(** * MaxkorotZI: identity, session keys, signaling and the message codec

    A shallow embedding of [src/app.js] and the properties of its
    identity/session layer.

    - JavaScript strings are lists of UTF-16 code units ([jsstring]).
    - [Uint8Array]s are lists of [byte].
    - The browser built-ins the program calls ([btoa], [atob],
      [String.prototype.trim], [TextEncoder], [TextDecoder], [Map], [Set])
      are modelled after their standards.
    - The cryptographic and transport capabilities (secp256k1, HKDF,
      AES-GCM, RTCPeerConnection) are parameters, bundled in [Platform].
    - The module-level [let] variables of the program are the fields of
      [State]; every function of the program is a computation in the
      state-and-exception monad [M], the function run from its call to
      its return.
    - The event loop is given twice. [step] and [run] take one input
      at a time and run its handler to its end before the next input:
      the schedule in which no two handlers overlap. [Async.turn] and
      [Async.turns] stop an [async] handler at every [await] and let
      any other input, or the rest of any other suspended handler, come
      before its rest; [step] is the schedule of [Async.turns] that
      resumes every handler at once ([Async.atomic]). *)

From Stdlib Require Import NArith ZArith List String Ascii Lia Bool.
From Stdlib Require Import Strings.Byte.
From stdpp Require Import gmap.
Import ListNotations.

(** ** JavaScript strings and byte arrays *)

(** A JavaScript string: its UTF-16 code units. *)
Definition jsstring : Type := list N.

(** A string literal of the source, for ASCII (and Latin-1) text. *)
Definition lit (s : string) : jsstring :=
  map N_of_ascii (list_ascii_of_string s).

(** The truthiness of a string: [''] is falsy. *)
Definition truthy (s : jsstring) : bool :=
  match s with [] => false | _ => true end.

(** [Uint8Array] conversion of a number: reduction modulo 256. *)
Definition byte_of_N (n : N) : byte :=
  match Byte.of_N (n mod 256)%N with
  | Some b => b
  | None => x00
  end.

(** ECMAScript WhiteSpace and LineTerminator code units, as
    [String.prototype.trim] strips them. *)
Definition is_js_whitespace (c : N) : bool :=
  ((9 <=? c) && (c <=? 13) || (c =? 32) || (c =? 160) || (c =? 5760)
   || (8192 <=? c) && (c <=? 8202) || (c =? 8232) || (c =? 8233)
   || (c =? 8239) || (c =? 8287) || (c =? 12288) || (c =? 65279))%N.

Fixpoint trimStart (s : jsstring) : jsstring :=
  match s with
  | c :: s' => if is_js_whitespace c then trimStart s' else s
  | [] => []
  end.

(** [s.trim()] *)
Definition trim (s : jsstring) : jsstring :=
  rev (trimStart (rev (trimStart s))).

(** ** Base64: [btoa] and [atob] *)

Module Base64.

(** The character of a 6-bit value in the base64 alphabet. *)
Definition b64_char (i : N) : N :=
  (if i <? 26 then 65 + i
   else if i <? 52 then 97 + (i - 26)
   else if i <? 62 then 48 + (i - 52)
   else if i =? 62 then 43 else 47)%N.

(** The 6-bit value of a character, [None] outside the alphabet. *)
Definition b64_value (c : N) : option N :=
  (if (65 <=? c) && (c <=? 90) then Some (c - 65)
   else if (97 <=? c) && (c <=? 122) then Some (c - 71)
   else if (48 <=? c) && (c <=? 57) then Some (c + 4)
   else if c =? 43 then Some 62
   else if c =? 47 then Some 63
   else None)%N.

(** The 6-bit groups of a sequence of octets; the last group of an
    incomplete triple is padded with zero bits. *)
Fixpoint sextets (bs : list N) : list N :=
  match bs with
  | a :: b :: c :: rest =>
      (a / 4 :: (a mod 4) * 16 + b / 16 :: (b mod 16) * 4 + c / 64
         :: c mod 64 :: sextets rest)%N
  | [a; b] => [a / 4; (a mod 4) * 16 + b / 16; (b mod 16) * 4]%N
  | [a] => [a / 4; (a mod 4) * 16]%N
  | [] => []
  end.

(** The ['='] padding after the characters of [n] octets. *)
Definition padding (n : nat) : list N :=
  match (n mod 3)%nat with
  | 1%nat => [61; 61]%N
  | 2%nat => [61]%N
  | _ => []
  end.

Definition b64_encode (bs : list N) : jsstring :=
  map b64_char (sextets bs) ++ padding (length bs).

(** [btoa(bin)]: throws [InvalidCharacterError] when a code unit is above
    255. *)
Definition btoa (bin : jsstring) : option jsstring :=
  if forallb (fun c => c <? 256)%N bin then Some (b64_encode bin) else None.

(** ASCII whitespace, which [atob] removes first. *)
Definition is_ascii_whitespace (c : N) : bool :=
  ((c =? 9) || (c =? 10) || (c =? 12) || (c =? 13) || (c =? 32))%N.

(** When the length is a multiple of four, one or two trailing ['=']
    are removed. *)
Definition strip_padding (s : jsstring) : jsstring :=
  if (length s mod 4 =? 0)%nat then
    match rev s with
    | c1 :: c2 :: r =>
        if (c1 =? 61)%N then
          if (c2 =? 61)%N then rev r else rev (c2 :: r)
        else s
    | _ => s
    end
  else s.

Fixpoint b64_values (s : jsstring) : option (list N) :=
  match s with
  | [] => Some []
  | c :: s' =>
      match b64_value c, b64_values s' with
      | Some v, Some vs => Some (v :: vs)
      | _, _ => None
      end
  end.

(** The octets of a sequence of 6-bit values: every four values give
    three octets; a rest of three gives two octets, a rest of two gives
    one, and the bits left over are discarded. *)
Fixpoint octets (vs : list N) : list N :=
  match vs with
  | a :: b :: c :: d :: rest =>
      ((a * 4 + b / 16) mod 256 :: ((b mod 16) * 16 + c / 4) mod 256
         :: ((c mod 4) * 64 + d) mod 256 :: octets rest)%N
  | [a; b; c] => [(a * 4 + b / 16) mod 256; ((b mod 16) * 16 + c / 4) mod 256]%N
  | [a; b] => [(a * 4 + b / 16) mod 256]%N
  | _ => []
  end.

(** [atob(str)], the forgiving-base64 decoder; [None] is its
    [InvalidCharacterError]. *)
Definition atob (str : jsstring) : option jsstring :=
  let data := strip_padding (List.filter (fun c => negb (is_ascii_whitespace c)) str) in
  if (length data mod 4 =? 1)%nat then None
  else option_map octets (b64_values data).

End Base64.

(** [toB64(bytes)]: [btoa(String.fromCharCode(...bytes))]; every code
    unit is a byte value, so [btoa] does not throw. *)
Definition toB64 (bytes : list byte) : jsstring :=
  Base64.b64_encode (map Byte.to_N bytes).

(** [fromB64(str)]: [Uint8Array.from(atob(str), c => c.charCodeAt(0))]. *)
Definition fromB64 (str : jsstring) : option (list byte) :=
  option_map (map byte_of_N) (Base64.atob str).

(** [shortId(bytes)]: the base64 text of the first six bytes, with every
    ['='] removed. *)
Definition shortId (bytes : list byte) : jsstring :=
  List.filter (fun c => negb (c =? 61)%N) (toB64 (firstn 6 bytes)).

(** ** UTF-8: [TextEncoder] and [TextDecoder] *)

Module Utf8.

Definition is_high_surrogate (c : N) : bool := ((55296 <=? c) && (c <=? 56319))%N.
Definition is_low_surrogate (c : N) : bool := ((56320 <=? c) && (c <=? 57343))%N.

(** The scalar values of a string: a surrogate pair is one code point,
    a surrogate without its partner becomes U+FFFD. *)
Fixpoint scalars (s : jsstring) : list N :=
  match s with
  | [] => []
  | c :: s' =>
      if is_high_surrogate c then
        match s' with
        | d :: s'' =>
            if is_low_surrogate d
            then (65536 + (c - 55296) * 1024 + (d - 56320))%N :: scalars s''
            else 65533%N :: scalars s'
        | [] => [65533%N]
        end
      else if is_low_surrogate c then 65533%N :: scalars s'
      else c :: scalars s'
  end.

(** The UTF-8 bytes of a scalar value. *)
Definition encode_scalar (cp : N) : list N :=
  (if cp <? 128 then [cp]
   else if cp <? 2048 then [192 + cp / 64; 128 + cp mod 64]
   else if cp <? 65536 then
     [224 + cp / 4096; 128 + (cp / 64) mod 64; 128 + cp mod 64]
   else
     [240 + cp / 262144; 128 + (cp / 4096) mod 64; 128 + (cp / 64) mod 64;
      128 + cp mod 64])%N.

(** [encoder.encode(text)] *)
Definition encode (text : jsstring) : list byte :=
  flat_map (fun cp => map byte_of_N (encode_scalar cp)) (scalars text).

(** The state of the UTF-8 decoder: the code point being assembled, the
    number of continuation bytes it needs and has seen, and the bounds
    of the next continuation byte. *)
Record DecoderState : Type := mkDecoderState {
  code_point : N;
  bytes_needed : N;
  bytes_seen : N;
  lower_boundary : N;
  upper_boundary : N
}.

Definition initial : DecoderState := mkDecoderState 0 0 0 128 191.

(** A byte read when no sequence is open. *)
Definition lead (b : N) : list N * DecoderState :=
  (if b <=? 127 then ([b], initial)
   else if (194 <=? b) && (b <=? 223) then
     ([], mkDecoderState (b mod 32) 1 0 128 191)
   else if (224 <=? b) && (b <=? 239) then
     ([], mkDecoderState (b mod 16) 2 0
            (if b =? 224 then 160 else 128) (if b =? 237 then 159 else 191))
   else if (240 <=? b) && (b <=? 244) then
     ([], mkDecoderState (b mod 8) 3 0
            (if b =? 240 then 144 else 128) (if b =? 244 then 143 else 191))
   else ([65533], initial))%N.

(** One byte through the decoder: the code points emitted and the next
    state. A byte that cannot continue the open sequence ends it with
    U+FFFD and is read again as a first byte. *)
Definition decode_byte (st : DecoderState) (b : N) : list N * DecoderState :=
  (if bytes_needed st =? 0 then lead b
   else if (lower_boundary st <=? b) && (b <=? upper_boundary st) then
     let cp := code_point st * 64 + b mod 64 in
     if bytes_seen st + 1 =? bytes_needed st then ([cp], initial)
     else ([], mkDecoderState cp (bytes_needed st) (bytes_seen st + 1) 128 191)
   else
     let '(out, st') := lead b in (65533 :: out, st'))%N.

Fixpoint decode_bytes (st : DecoderState) (bs : list byte) : list N :=
  match bs with
  | [] => if (bytes_needed st =? 0)%N then [] else [65533%N]
  | b :: rest =>
      let '(out, st') := decode_byte st (Byte.to_N b) in out ++ decode_bytes st' rest
  end.

(** The UTF-16 code units of a code point. *)
Definition units (cp : N) : list N :=
  (if cp <? 65536 then [cp]
   else [55296 + (cp - 65536) / 1024; 56320 + (cp - 65536) mod 1024])%N.

(** A leading byte order mark is consumed ([ignoreBOM] is false). *)
Definition strip_bom (bs : list byte) : list byte :=
  match bs with
  | xef :: xbb :: xbf :: rest => rest
  | _ => bs
  end.

(** [decoder.decode(bytes)], for [new TextDecoder()]: UTF-8, not fatal,
    byte order mark not ignored. *)
Definition decode (bs : list byte) : jsstring :=
  flat_map units (decode_bytes initial (strip_bom bs)).

(** A Unicode scalar value: a code point that is not a surrogate. *)
Definition is_scalar (cp : N) : Prop :=
  (cp < 1114112 /\ ~ (55296 <= cp <= 57343))%N.



End Utf8.

(** ** The platform's capabilities *)

Inductive SdpType : Type := SdpOffer | SdpAnswer.

(** The calls the program makes on an [RTCPeerConnection]. *)
Inductive RtcCall : Type :=
| CreateDataChannel
| CreateOffer
| CreateAnswer
| SetLocalDescription (ty : SdpType) (sdp : jsstring)
| SetRemoteDescription (ty : SdpType) (sdp : jsstring)
| AddIceCandidate (candidate : jsstring).

(** What the program consumes and does not define: the secp256k1
    library, WebCrypto's HKDF and AES-GCM, and the WebRTC transport. A
    throwing call returns [None]. The transport is opaque: whether a
    call on a connection is accepted, and the session description it
    produces, are functions of the calls made on it before. *)
Record Platform : Type := {
  AesKey : Type;
  (** [secp.getPublicKey(priv, true)] *)
  getPublicKey : list byte -> option (list byte);
  (** [secp.getSharedSecret(priv, pub, true)] *)
  getSharedSecret : list byte -> list byte -> option (list byte);
  (** [secp.utils.randomPrivateKey()], from the random bytes it draws *)
  randomPrivateKey : list byte -> list byte;
  (** [importKey('raw', ikm, 'HKDF')] then [deriveKey] with SHA-256, the
      salt and the info, for AES-GCM with a 256-bit key *)
  hkdf : list byte -> list byte -> list byte -> AesKey;
  (** [crypto.subtle.encrypt({name: 'AES-GCM', iv}, key, data)] *)
  aes_gcm_encrypt : AesKey -> list byte -> list byte -> list byte;
  (** [crypto.subtle.decrypt({name: 'AES-GCM', iv}, key, data)] *)
  aes_gcm_decrypt : AesKey -> list byte -> list byte -> option (list byte);
  rtc_accepts : list RtcCall -> RtcCall -> bool;
  rtc_sdp : list RtcCall -> jsstring
}.

(** ** The program's state *)

Record KeyPair : Type := { priv : list byte; pub : list byte }.

(** [{ iv, data }], the encrypted message as it travels on the data
    channel. *)
Record Payload : Type := { payload_iv : jsstring; payload_data : jsstring }.

(** A signaling event as it is read from the mailbox. An absent field
    and an empty string are both falsy, and are both [[]] here;
    [candidate] is an opaque object or absent. *)
Record SignalData : Type := {
  sig_type : jsstring;
  sig_from : jsstring;
  sig_pub : jsstring;
  sig_sdp : jsstring;
  sig_candidate : option jsstring
}.

(** The payload of [sendSignal]. *)
Inductive SignalPayload : Type :=
| OfferPayload (sdp pub : jsstring)
| AnswerPayload (sdp pub : jsstring)
| IcePayload (candidate : jsstring).

Inductive ReadyState : Type := Connecting | Open | Closing | Closed.

Inductive Error : Type :=
| TypeError              (** a property of [null] is read *)
| InvalidCharacterError  (** [atob] *)
| InvalidLength          (** ['Неверная длина'] *)
| Secp256k1Error         (** thrown by the secp256k1 library *)
| OperationError         (** [crypto.subtle.decrypt]: the tag does not verify *)
| TransportError         (** a rejected [RTCPeerConnection] call *)
| NoRoomError            (** ['Сначала войдите в room'] *)
| SyntaxError            (** [JSON.parse] *)
| InvalidStateError.     (** [channel.send] on a channel that is not open *)

Inductive Alert : Type :=
| AlertEnterRoomId       (** ['Введите room ID'] *)
| AlertNeedIdAndKey      (** ['Нужны ID и публичный ключ собеседника'] *)
| AlertNoActiveChannel   (** ['Нет активного канала'] *)
| AlertSeedCopied        (** ['Seed скопирован в буфер обмена'] *)
| AlertSeedImported      (** ['Seed импортирован'] *)
| AlertBadSeed           (** ['Некорректный seed'] *)
| AlertKeysUpdated.      (** ['Ключи обновлены'] *)

Inductive Status : Type :=
| StatusInRoom (roomId : jsstring)
| StatusOfferSent (peerId : jsstring)
| StatusAnswerSent (peerId : jsstring)
| StatusEstablished (peerId : jsstring)
| StatusChannelOpen (peerId : jsstring).

Inductive Author : Type := You | Peer (peerId : jsstring).

Inductive MessageText : Type :=
| Text (text : jsstring)
| KeyNotReady.           (** ['[получено сообщение, но ключ не готов]'] *)

(** What the program does to the outside, in order. [HandleSignal] is a
    ghost event: it records that the subscription called [handleSignal]
    for the item with that key. *)
Inductive Effect : Type :=
| EAlert (a : Alert)
| EStatus (st : Status)
| EShowIdentity (id pubB64 : jsstring)
| EAddMessage (author : Author) (text : MessageText)
| EClipboard (text : jsstring)
| ESubscribe (roomId mailbox : jsstring)
| ESignal (roomId target : jsstring) (payload : SignalPayload)
          (from : jsstring) (ts : N)
| EChannelSend (conn : nat) (payload : Payload)
| EConsoleError (e : Error)
| HandleSignal (key : jsstring).

(** The [value]s of the input elements the handlers read. *)
Record Elements : Type := {
  roomId_value : jsstring;
  peerId_value : jsstring;
  peerPub_value : jsstring;
  messageInput_value : jsstring;
  importSeedInput_value : jsstring
}.

(** The module's [Map] keeps insertion order. *)
Fixpoint map_get {V : Type} (m : list (jsstring * V)) (k : jsstring) : option V :=
  match m with
  | [] => None
  | (k', v) :: m' => if decide (k' = k) then Some v else map_get m' k
  end.

Fixpoint map_set {V : Type} (m : list (jsstring * V)) (k : jsstring) (v : V)
  : list (jsstring * V) :=
  match m with
  | [] => [(k, v)]
  | (k', v') :: m' =>
      if decide (k' = k) then (k, v) :: m' else (k', v') :: map_set m' k v
  end.

Definition map_values {V : Type} (m : list (jsstring * V)) : list V := map snd m.

(** [storageKeys] *)
Definition storageKeys_priv : jsstring := lit "maxkorotzi_priv".
Definition storageKeys_pub : jsstring := lit "maxkorotzi_pub".

Section Program.

Context {P : Platform}.

(** The object [createConnection] returns: [{ peerId, peer, channel,
    aesKey }]. [calls] is the history of its [peer]; [readyState] is that
    of its [channel], the data channel created locally. *)
Record Conn : Type := {
  conn_peerId : jsstring;
  calls : list RtcCall;
  readyState : ReadyState;
  aesKey : option (AesKey P)
}.

(** The module-level variables, the objects they refer to and the
    environment: [heap] holds the connection objects by reference,
    [connections] maps a peer id to a reference; [entropy] is the stream
    [crypto.getRandomValues] reads and [entropyPos] its position;
    [clock] is [Date.now()]. *)
Record State : Type := {
  room : option jsstring;
  myKeyPair : option KeyPair;
  myId : jsstring;
  myPubB64 : jsstring;
  connections : list (jsstring * nat);
  signalSeen : gset jsstring;
  heap : gmap nat Conn;
  localStorage : gmap jsstring jsstring;
  elements : Elements;
  entropy : nat -> byte;
  entropyPos : nat;
  clock : N;
  trace : list Effect
}.

Definition set_room (v : option jsstring) (s : State) : State :=
  {| room := v; myKeyPair := myKeyPair s; myId := myId s;
     myPubB64 := myPubB64 s; connections := connections s;
     signalSeen := signalSeen s; heap := heap s;
     localStorage := localStorage s; elements := elements s;
     entropy := entropy s; entropyPos := entropyPos s; clock := clock s;
     trace := trace s |}.

Definition set_identity (pair : KeyPair) (pubB64 id : jsstring) (s : State) : State :=
  {| room := room s; myKeyPair := Some pair; myId := id;
     myPubB64 := pubB64; connections := connections s;
     signalSeen := signalSeen s; heap := heap s;
     localStorage := localStorage s; elements := elements s;
     entropy := entropy s; entropyPos := entropyPos s; clock := clock s;
     trace := trace s |}.

Definition set_connections (v : list (jsstring * nat)) (s : State) : State :=
  {| room := room s; myKeyPair := myKeyPair s; myId := myId s;
     myPubB64 := myPubB64 s; connections := v;
     signalSeen := signalSeen s; heap := heap s;
     localStorage := localStorage s; elements := elements s;
     entropy := entropy s; entropyPos := entropyPos s; clock := clock s;
     trace := trace s |}.

Definition set_signalSeen (v : gset jsstring) (s : State) : State :=
  {| room := room s; myKeyPair := myKeyPair s; myId := myId s;
     myPubB64 := myPubB64 s; connections := connections s;
     signalSeen := v; heap := heap s;
     localStorage := localStorage s; elements := elements s;
     entropy := entropy s; entropyPos := entropyPos s; clock := clock s;
     trace := trace s |}.

Definition set_heap (v : gmap nat Conn) (s : State) : State :=
  {| room := room s; myKeyPair := myKeyPair s; myId := myId s;
     myPubB64 := myPubB64 s; connections := connections s;
     signalSeen := signalSeen s; heap := v;
     localStorage := localStorage s; elements := elements s;
     entropy := entropy s; entropyPos := entropyPos s; clock := clock s;
     trace := trace s |}.

Definition set_localStorage (v : gmap jsstring jsstring) (s : State) : State :=
  {| room := room s; myKeyPair := myKeyPair s; myId := myId s;
     myPubB64 := myPubB64 s; connections := connections s;
     signalSeen := signalSeen s; heap := heap s;
     localStorage := v; elements := elements s;
     entropy := entropy s; entropyPos := entropyPos s; clock := clock s;
     trace := trace s |}.

Definition set_elements (v : Elements) (s : State) : State :=
  {| room := room s; myKeyPair := myKeyPair s; myId := myId s;
     myPubB64 := myPubB64 s; connections := connections s;
     signalSeen := signalSeen s; heap := heap s;
     localStorage := localStorage s; elements := v;
     entropy := entropy s; entropyPos := entropyPos s; clock := clock s;
     trace := trace s |}.

Definition set_entropyPos (v : nat) (s : State) : State :=
  {| room := room s; myKeyPair := myKeyPair s; myId := myId s;
     myPubB64 := myPubB64 s; connections := connections s;
     signalSeen := signalSeen s; heap := heap s;
     localStorage := localStorage s; elements := elements s;
     entropy := entropy s; entropyPos := v; clock := clock s;
     trace := trace s |}.

Definition set_clock (v : N) (s : State) : State :=
  {| room := room s; myKeyPair := myKeyPair s; myId := myId s;
     myPubB64 := myPubB64 s; connections := connections s;
     signalSeen := signalSeen s; heap := heap s;
     localStorage := localStorage s; elements := elements s;
     entropy := entropy s; entropyPos := entropyPos s; clock := v;
     trace := trace s |}.

Definition set_trace (v : list Effect) (s : State) : State :=
  {| room := room s; myKeyPair := myKeyPair s; myId := myId s;
     myPubB64 := myPubB64 s; connections := connections s;
     signalSeen := signalSeen s; heap := heap s;
     localStorage := localStorage s; elements := elements s;
     entropy := entropy s; entropyPos := entropyPos s; clock := clock s;
     trace := v |}.

(** ** Computations: state and exceptions *)

Definition M (A : Type) : Type := State -> State * (Error + A).

Definition ret {A : Type} (a : A) : M A := fun s => (s, inr a).

Definition bind {A B : Type} (m : M A) (f : A -> M B) : M B :=
  fun s =>
    match m s with
    | (s', inr a) => f a s'
    | (s', inl e) => (s', inl e)
    end.

Definition throw {A : Type} (e : Error) : M A := fun s => (s, inl e).

(** [try { m } catch (err) { h }] *)
Definition try_catch {A : Type} (m : M A) (h : Error -> M A) : M A :=
  fun s =>
    match m s with
    | (s', inl e) => h e s'
    | r => r
    end.

Definition get : M State := fun s => (s, inr s).
Definition modify (f : State -> State) : M unit := fun s => (f s, inr tt).
Definition emit (e : Effect) : M unit :=
  modify (fun s => set_trace (trace s ++ [e]) s).

(** A call that throws when it returns [None]. *)
Definition orThrow {A : Type} (o : option A) (e : Error) : M A :=
  match o with Some a => ret a | None => throw e end.

End Program.

Arguments Conn : clear implicits.
Arguments State : clear implicits.
Arguments M : clear implicits.

Notation "x <- m ;; k" := (bind m (fun x => k))
  (at level 100, m at next level, right associativity).
Notation "m ;;; k" := (bind m (fun _ => k))
  (at level 100, right associativity).

(** ** The program *)

Section Handlers.

Context {P : Platform}.

(** [crypto.getRandomValues(new Uint8Array(n))]: the next [n] bytes of
    the entropy stream. *)
Definition draw (n : nat) (s : State P) : list byte :=
  map (entropy s) (seq (entropyPos s) n).

Definition getRandomValues (n : nat) : M P (list byte) :=
  fun s => (set_entropyPos (entropyPos s + n) s, inr (draw n s)).

Definition getItem (k : jsstring) : M P (option jsstring) :=
  fun s => (s, inr (localStorage s !! k)).

(** [localStorage.setItem]; a full storage, on which it throws, is not
    modelled. *)
Definition setItem (k v : jsstring) : M P unit :=
  modify (fun s => set_localStorage (<[k := v]> (localStorage s)) s).

Definition removeItem (k : jsstring) : M P unit :=
  modify (fun s => set_localStorage (delete k (localStorage s)) s).

Definition generateKeyPair : M P KeyPair :=
  seed <- getRandomValues 48 ;;
  let priv := randomPrivateKey P seed in
  pub <- orThrow (getPublicKey P priv) Secp256k1Error ;;
  ret {| priv := priv; pub := pub |}.

Definition loadOrCreateKeys : M P KeyPair :=
  privStored <- getItem storageKeys_priv ;;
  pubStored <- getItem storageKeys_pub ;;
  match privStored, pubStored with
  | Some ((_ :: _) as privStored), Some ((_ :: _) as pubStored) =>
      priv <- orThrow (fromB64 privStored) InvalidCharacterError ;;
      pub <- orThrow (fromB64 pubStored) InvalidCharacterError ;;
      ret {| priv := priv; pub := pub |}
  | _, _ =>
      pair <- generateKeyPair ;;
      setItem storageKeys_priv (toB64 (priv pair)) ;;;
      setItem storageKeys_pub (toB64 (pub pair)) ;;;
      ret pair
  end.

Definition setIdentity (pair : KeyPair) : M P unit :=
  modify (set_identity pair (toB64 (pub pair)) (shortId (pub pair))) ;;;
  s <- get ;;
  emit (EShowIdentity (myId s) (myPubB64 s)).

Definition deriveAesKey (peerPubB64 saltText : jsstring) : M P (AesKey P) :=
  peerPub <- orThrow (fromB64 peerPubB64) InvalidCharacterError ;;
  s <- get ;;
  me <- orThrow (myKeyPair s) TypeError ;;
  shared <- orThrow (getSharedSecret P (priv me) peerPub) Secp256k1Error ;;
  let sharedKey := skipn 1 shared in
  ret (hkdf P sharedKey (Utf8.encode saltText)
         (Utf8.encode (lit "maxkorotzi-e2ee"))).

Definition encryptMessage (aesKey : AesKey P) (text : jsstring) : M P Payload :=
  iv <- getRandomValues 12 ;;
  let cipher := aes_gcm_encrypt P aesKey iv (Utf8.encode text) in
  ret {| payload_iv := toB64 iv; payload_data := toB64 cipher |}.

Definition decryptMessage (aesKey : AesKey P) (payload : Payload) : M P jsstring :=
  iv <- orThrow (fromB64 (payload_iv payload)) InvalidCharacterError ;;
  data <- orThrow (fromB64 (payload_data payload)) InvalidCharacterError ;;
  plain <- orThrow (aes_gcm_decrypt P aesKey iv data) OperationError ;;
  ret (Utf8.decode plain).

Definition addMessage (author : Author) (text : MessageText) : M P unit :=
  emit (EAddMessage author text).

Definition setStatus (st : Status) : M P unit := emit (EStatus st).

Definition alert (a : Alert) : M P unit := emit (EAlert a).

Definition resetSignals : M P unit := modify (set_signalSeen ∅).

Definition ensureRoom : M P unit :=
  s <- get ;;
  match room s with
  | None => throw NoRoomError
  | Some _ => ret tt
  end.

Definition sendSignal (targetId : jsstring) (payload : SignalPayload) : M P unit :=
  s <- get ;;
  match room s with
  | None => ret tt
  | Some r => emit (ESignal r targetId payload (myId s) (clock s))
  end.

(** A call on [conn.peer]: it is recorded in the connection's history,
    and rejected when the transport does not accept it there. For
    [createOffer] and [createAnswer] the result is the [sdp] of the
    description. *)
Definition rtc (conn : nat) (call : RtcCall) : M P jsstring :=
  s <- get ;;
  c <- orThrow (heap s !! conn) TypeError ;;
  modify (set_heap (<[conn := {| conn_peerId := conn_peerId c;
                                calls := calls c ++ [call];
                                readyState := readyState c;
                                aesKey := aesKey c |}]> (heap s))) ;;;
  if rtc_accepts P (calls c) call then ret (rtc_sdp P (calls c))
  else throw TransportError.

(** A new object: its reference is one no object has. *)
Definition alloc (c : Conn P) : M P nat :=
  fun s =>
    let r := fresh (dom (heap s)) in
    (set_heap (<[r := c]> (heap s)) s, inr r).

(** [elements.roomId.value.trim() || 'maxkorotzi'] *)
Definition roomSalt (s : State P) : jsstring :=
  match trim (roomId_value (elements s)) with
  | [] => lit "maxkorotzi"
  | v => v
  end.

Definition createConnection (peerId peerPubB64 : jsstring) : M P nat :=
  s <- get ;;
  let roomSalt := roomSalt s in
  aesKey <- (if truthy peerPubB64
             then k <- deriveAesKey peerPubB64 roomSalt ;; ret (Some k)
             else ret None) ;;
  alloc {| conn_peerId := peerId; calls := [CreateDataChannel];
           readyState := Connecting; aesKey := aesKey |}.

Definition connections_set (peerId : jsstring) (conn : nat) : M P unit :=
  modify (fun s => set_connections (map_set (connections s) peerId conn) s).

Definition handleSignal (data : SignalData) : M P unit :=
  s <- get ;;
  let fromId := sig_from data in
  if negb (truthy fromId) || bool_decide (fromId = myId s) then ret tt
  else
    conn <- match map_get (connections s) fromId with
            | Some conn => ret conn
            | None =>
                conn <- createConnection fromId (sig_pub data) ;;
                connections_set fromId conn ;;;
                ret conn
            end ;;
    (if bool_decide (sig_type data = lit "offer") then
       rtc conn (SetRemoteDescription SdpOffer (sig_sdp data)) ;;;
       answer <- rtc conn CreateAnswer ;;
       rtc conn (SetLocalDescription SdpAnswer answer) ;;;
       s' <- get ;;
       sendSignal fromId (AnswerPayload answer (myPubB64 s')) ;;;
       setStatus (StatusAnswerSent fromId)
     else ret tt) ;;;
    (if bool_decide (sig_type data = lit "answer") then
       rtc conn (SetRemoteDescription SdpAnswer (sig_sdp data)) ;;;
       setStatus (StatusEstablished fromId)
     else ret tt) ;;;
    (if bool_decide (sig_type data = lit "ice") then
       match sig_candidate data with
       | Some candidate => rtc conn (AddIceCandidate candidate) ;;; ret tt
       | None => ret tt
       end
     else ret tt).

(** [p.catch(console.error)] *)
Definition catch_console (m : M P unit) : M P unit :=
  try_catch m (fun e => emit (EConsoleError e)).

(** [listenSignals]: the subscription it arms is the effect
    [ESubscribe]; its callback is [onSignal]. *)
Definition listenSignals : M P unit :=
  s <- get ;;
  match room s with
  | None => ret tt
  | Some r => resetSignals ;;; emit (ESubscribe r (myId s))
  end.

(** The callback of the subscription: [(data, key) => { ... }]. *)
Definition onSignal (data : option SignalData) (key : jsstring) : M P unit :=
  s <- get ;;
  match data with
  | None => ret tt
  | Some d =>
      if negb (truthy (sig_type d)) || bool_decide (key ∈ signalSeen s)
      then ret tt
      else
        modify (set_signalSeen ({[key]} ∪ signalSeen s)) ;;;
        emit (HandleSignal key) ;;;
        catch_console (handleSignal d)
  end.

Definition startConnection : M P unit :=
  ensureRoom ;;;
  s <- get ;;
  let peerId := trim (peerId_value (elements s)) in
  let peerPubB64 := trim (peerPub_value (elements s)) in
  if negb (truthy peerId) || negb (truthy peerPubB64)
  then alert AlertNeedIdAndKey
  else
    conn <- createConnection peerId peerPubB64 ;;
    connections_set peerId conn ;;;
    offer <- rtc conn CreateOffer ;;
    rtc conn (SetLocalDescription SdpOffer offer) ;;;
    s' <- get ;;
    sendSignal peerId (OfferPayload offer (myPubB64 s')) ;;;
    setStatus (StatusOfferSent peerId).

(** [c.channel.readyState === 'open'] *)
Definition is_open (s : State P) (conn : nat) : bool :=
  match heap s !! conn with
  | Some c => match readyState c with Open => true | _ => false end
  | None => false
  end.

(** [c.aesKey] is set. *)
Definition has_key (s : State P) (conn : nat) : bool :=
  match heap s !! conn with
  | Some {| aesKey := Some _ |} => true
  | _ => false
  end.

Definition set_messageInput (v : jsstring) (s : State P) : State P :=
  set_elements {| roomId_value := roomId_value (elements s);
                  peerId_value := peerId_value (elements s);
                  peerPub_value := peerPub_value (elements s);
                  messageInput_value := v;
                  importSeedInput_value := importSeedInput_value (elements s) |} s.

Definition sendMessage : M P unit :=
  s <- get ;;
  let text := trim (messageInput_value (elements s)) in
  if negb (truthy text) then ret tt
  else
    let active := find (is_open s) (map_values (connections s)) in
    match active with
    | Some conn =>
        match heap s !! conn with
        | Some {| aesKey := Some key |} =>
            payload <- encryptMessage key text ;;
            emit (EChannelSend conn payload) ;;;
            addMessage You (Text text) ;;;
            modify (set_messageInput [])
        | _ => alert AlertNoActiveChannel
        end
    | None => alert AlertNoActiveChannel
    end.

Definition exportSeed : M P unit :=
  s <- get ;;
  me <- orThrow (myKeyPair s) TypeError ;;
  emit (EClipboard (toB64 (priv me))) ;;;
  alert AlertSeedCopied.

Definition importSeed : M P unit :=
  s <- get ;;
  let seed := trim (importSeedInput_value (elements s)) in
  if negb (truthy seed) then ret tt
  else
    try_catch
      (priv <- orThrow (fromB64 seed) InvalidCharacterError ;;
       (if negb (length priv =? 32)%nat then throw InvalidLength else ret tt) ;;;
       pub <- orThrow (getPublicKey P priv) Secp256k1Error ;;
       setItem storageKeys_priv (toB64 priv) ;;;
       setItem storageKeys_pub (toB64 pub) ;;;
       setIdentity {| priv := priv; pub := pub |} ;;;
       alert AlertSeedImported)
      (fun _ => alert AlertBadSeed).

Definition regenerate : M P unit :=
  removeItem storageKeys_priv ;;;
  removeItem storageKeys_pub ;;;
  pair <- generateKeyPair ;;
  setItem storageKeys_priv (toB64 (priv pair)) ;;;
  setItem storageKeys_pub (toB64 (pub pair)) ;;;
  setIdentity pair ;;;
  alert AlertKeysUpdated.

(** The click handler of [elements.joinRoom]. *)
Definition joinRoom : M P unit :=
  s <- get ;;
  let roomId := trim (roomId_value (elements s)) in
  if negb (truthy roomId) then alert AlertEnterRoomId
  else
    modify (set_room (Some roomId)) ;;;
    listenSignals ;;;
    setStatus (StatusInRoom roomId).

Definition copyId : M P unit :=
  s <- get ;;
  emit (EClipboard (myId s)).

(** The callbacks [createConnection] binds on a connection object.
    [peer.ondatachannel] binds [onopen] and [onmessage] on the channel
    the peer offers as well; the events of either channel reach them. *)

(** [peer.onicecandidate] *)
Definition onicecandidate (conn : nat) (candidate : option jsstring) : M P unit :=
  s <- get ;;
  match heap s !! conn, candidate with
  | Some c, Some candidate => sendSignal (conn_peerId c) (IcePayload candidate)
  | _, _ => ret tt
  end.

(** [channel.onopen] *)
Definition onopen (conn : nat) : M P unit :=
  s <- get ;;
  match heap s !! conn with
  | Some c => setStatus (StatusChannelOpen (conn_peerId c))
  | None => ret tt
  end.

(** [channel.onmessage]; [data] is [JSON.parse(event.data)], [None]
    when it throws. *)
Definition onmessage (conn : nat) (data : option Payload) : M P unit :=
  s <- get ;;
  match heap s !! conn with
  | Some c =>
      match aesKey c with
      | None => addMessage (Peer (conn_peerId c)) KeyNotReady
      | Some key =>
          payload <- orThrow data SyntaxError ;;
          text <- decryptMessage key payload ;;
          addMessage (Peer (conn_peerId c)) (Text text)
      end
  | None => ret tt
  end.

(** The transport changes the [readyState] of a connection's channel. *)
Definition set_readyState (conn : nat) (st : ReadyState) : M P unit :=
  modify (fun s =>
    match heap s !! conn with
    | Some c =>
        set_heap (<[conn := {| conn_peerId := conn_peerId c; calls := calls c;
                              readyState := st; aesKey := aesKey c |}]> (heap s)) s
    | None => s
    end).

(** [init], before the listeners are added. *)
Definition init : M P unit :=
  pair <- loadOrCreateKeys ;;
  setIdentity pair.

(** The state when the module is loaded. *)
Definition boot (storage : gmap jsstring jsstring) (els : Elements)
    (rnd : nat -> byte) (now : N) : State P :=
  {| room := None; myKeyPair := None; myId := []; myPubB64 := [];
     connections := []; signalSeen := ∅; heap := ∅;
     localStorage := storage; elements := els;
     entropy := rnd; entropyPos := 0; clock := now; trace := [] |}.

(** ** The event loop *)

Inductive Input : Type :=
| EditElements (els : Elements)
| Tick (now : N)
| ClickJoinRoom
| ClickStartConnection
| ClickSendMessage
| ClickExportSeed
| ClickImportSeed
| ClickRegenerate
| ClickCopyId
| Deliver (data : option SignalData) (key : jsstring)
| IceCandidate (conn : nat) (candidate : option jsstring)
| ChannelReadyState (conn : nat) (st : ReadyState)
| ChannelOpen (conn : nat)
| ChannelMessage (conn : nat) (data : option Payload).

(** The state after a computation, whatever it returned. *)
Definition exec (m : M P unit) (s : State P) : State P := fst (m s).

(** One input and the whole of its handler: an [async] handler is run
    through its [await]s to its end, as it runs when no other input and
    no other handler comes in between ([Async.turn] is the event loop
    that stops at the [await]s). The mailbox delivers only to a
    subscription, and there is one from the first join on. *)
Definition step (s : State P) (i : Input) : State P :=
  match i with
  | EditElements els => set_elements els s
  | Tick now => set_clock now s
  | ClickJoinRoom => exec (catch_console joinRoom) s
  | ClickStartConnection => exec (catch_console startConnection) s
  | ClickSendMessage => exec (catch_console sendMessage) s
  | ClickExportSeed => exec (catch_console exportSeed) s
  | ClickImportSeed => exec (catch_console importSeed) s
  | ClickRegenerate => exec (catch_console regenerate) s
  | ClickCopyId => exec (catch_console copyId) s
  | Deliver data key =>
      match room s with
      | None => s
      | Some _ => exec (catch_console (onSignal data key)) s
      end
  | IceCandidate conn candidate => exec (catch_console (onicecandidate conn candidate)) s
  | ChannelReadyState conn st => exec (set_readyState conn st) s
  | ChannelOpen conn => exec (catch_console (onopen conn)) s
  | ChannelMessage conn data => exec (catch_console (onmessage conn data)) s
  end.

Definition run (s : State P) (inputs : list Input) : State P :=
  fold_left step inputs s.

End Handlers.

(** ** Reading a trace *)

(** The item a peer reads in its mailbox for a signal that was sent:
    [{ ...payload, from, ts }]. *)
Definition event_of (payload : SignalPayload) (from : jsstring) : SignalData :=
  match payload with
  | OfferPayload sdp pub =>
      {| sig_type := lit "offer"; sig_from := from; sig_pub := pub;
         sig_sdp := sdp; sig_candidate := None |}
  | AnswerPayload sdp pub =>
      {| sig_type := lit "answer"; sig_from := from; sig_pub := pub;
         sig_sdp := sdp; sig_candidate := None |}
  | IcePayload candidate =>
      {| sig_type := lit "ice"; sig_from := from; sig_pub := [];
         sig_sdp := []; sig_candidate := Some candidate |}
  end.

(** The events a trace published, oldest first. *)
Definition published (tr : list Effect) : list SignalData :=
  flat_map (fun e => match e with
                     | ESignal _ _ payload from _ => [event_of payload from]
                     | _ => []
                     end) tr.

(** The messages a trace sent on data channels, oldest first. *)
Definition sent (tr : list Effect) : list Payload :=
  flat_map (fun e => match e with
                     | EChannelSend _ payload => [payload]
                     | _ => []
                     end) tr.

(** ** What the properties assume of the capabilities *)

(** The public key is the one of the private key. *)
Definition valid_keypair (P : Platform) (k : KeyPair) : Prop :=
  getPublicKey P (priv k) = Some (pub k).

(** Static key agreement is symmetric: two parties with valid private
    keys compute the same shared point from each other's public key. *)
Definition key_agreement_symmetric (P : Platform) : Prop :=
  forall a b pa pb,
    getPublicKey P a = Some pa -> getPublicKey P b = Some pb ->
    exists shared,
      getSharedSecret P a pb = Some shared /\
      getSharedSecret P b pa = Some shared.

(** The authenticated cipher decrypts what it encrypted. *)
Definition aead_correct (P : Platform) : Prop :=
  forall k iv m, aes_gcm_decrypt P k iv (aes_gcm_encrypt P k iv m) = Some m.


(** Under one key, two different 96-bit nonces never give the same
    output for the same plaintext. *)
Definition aead_nonce_injective (P : Platform) : Prop :=
  forall k iv1 iv2 m,
    length iv1 = 12%nat -> length iv2 = 12%nat -> iv1 <> iv2 ->
    aes_gcm_encrypt P k iv1 m <> aes_gcm_encrypt P k iv2 m.

(** A supplied peer public key the key agreement cannot use: text
    that is not base64, or bytes the secp256k1 library refuses (a wrong
    length, a point that is not on the curve). *)
Definition malformed_public_key (P : Platform) (priv : list byte)
    (peerPubB64 : jsstring) : Prop :=
  match fromB64 peerPubB64 with
  | None => True
  | Some peerPub => getSharedSecret P priv peerPub = None
  end.

(** A seed the import refuses: text that is not base64, or bytes that
    are not exactly 32. *)
Definition malformed_seed (seed : jsstring) : Prop :=
  match fromB64 seed with
  | None => True
  | Some priv => length priv <> 32%nat
  end.

(** How many times the subscription called [handleSignal] for the item
    with the key [k], in a trace. *)
Definition is_handle (k : jsstring) (e : Effect) : bool :=
  match e with
  | HandleSignal k' => bool_decide (k' = k)
  | _ => false
  end.

Definition handled (k : jsstring) (tr : list Effect) : nat :=
  length (List.filter (is_handle k) tr).

(** ** Relations between the states of a run *)

Section Relations.

Context {P : Platform}.

(** The computation relates every state to the state it leaves,
    whether it returns or throws. *)
Definition frame (R : State P -> State P -> Prop) {A : Type} (m : M P A) : Prop :=
  forall s, R s (fst (m s)).

(** The set of seen keys and the number of calls of the handler for
    [k] are unchanged. *)
Definition same_seen (k : jsstring) (s s' : State P) : Prop :=
  signalSeen s' = signalSeen s /\ handled k (trace s') = handled k (trace s).

(** Every connection object is still there, with the peer and the key
    it had. *)
Definition keys_fixed (s s' : State P) : Prop :=
  forall r c, heap s !! r = Some c ->
    exists c', heap s' !! r = Some c' /\ aesKey c' = aesKey c /\
               conn_peerId c' = conn_peerId c.

(** No session is recorded and no connection object is created. *)
Definition same_sessions (s s' : State P) : Prop :=
  connections s' = connections s /\ dom (heap s') = dom (heap s).

(** The key [createConnection] gives a new session: none without a
    public key, the derived key with one, or the error of the
    derivation. *)
Definition session_key (peerPubB64 : jsstring) (s : State P)
  : Error + option (AesKey P) :=
  if truthy peerPubB64 then
    match snd (deriveAesKey peerPubB64 (roomSalt s) s) with
    | inl e => inl e
    | inr k => inr (Some k)
    end
  else inr None.

(** The object a successful [createConnection] returns. *)
Definition new_conn (peerId : jsstring) (key : option (AesKey P)) : Conn P :=
  {| conn_peerId := peerId; calls := [CreateDataChannel];
     readyState := Connecting; aesKey := key |}.

(** What [handleSignal] does once it holds the sender's session. *)
Definition signal_actions (data : SignalData) (conn : nat) : M P unit :=
  let fromId := sig_from data in
  (if bool_decide (sig_type data = lit "offer") then
     rtc conn (SetRemoteDescription SdpOffer (sig_sdp data)) ;;;
     answer <- rtc conn CreateAnswer ;;
     rtc conn (SetLocalDescription SdpAnswer answer) ;;;
     s' <- get ;;
     sendSignal fromId (AnswerPayload answer (myPubB64 s')) ;;;
     setStatus (StatusAnswerSent fromId)
   else ret tt) ;;;
  (if bool_decide (sig_type data = lit "answer") then
     rtc conn (SetRemoteDescription SdpAnswer (sig_sdp data)) ;;;
     setStatus (StatusEstablished fromId)
   else ret tt) ;;;
  (if bool_decide (sig_type data = lit "ice") then
     match sig_candidate data with
     | Some candidate => rtc conn (AddIceCandidate candidate) ;;; ret tt
     | None => ret tt
     end
   else ret tt).

End Relations.

(** ** A small platform, on which the hypotheses above hold *)

Module Toy.

(** A byte string as a number, least significant byte first. *)
Fixpoint num (bs : list byte) : N :=
  match bs with
  | [] => 0
  | b :: rest => Byte.to_N b + 256 * num rest
  end.

Fixpoint bytes_eqb (a b : list byte) : bool :=
  match a, b with
  | [], [] => true
  | x :: a', y :: b' => Byte.eqb x y && bytes_eqb a' b'
  | _, _ => false
  end.

(** Key agreement in the additive group of integers modulo 251, with
    generator 7; a public key is one byte. *)
Definition public_key (priv : list byte) : option (list byte) :=
  Some [byte_of_N ((num priv * 7) mod 251)].

Definition shared_secret (priv pub : list byte) : option (list byte) :=
  match pub with
  | [b] => Some [x02; byte_of_N ((num priv * Byte.to_N b) mod 251)]
  | _ => None
  end.

(** A cipher that prefixes the plaintext with the key and the nonce. *)
Definition encrypt (k iv m : list byte) : list byte := k ++ iv ++ m.

Definition decrypt (k iv c : list byte) : option (list byte) :=
  if bytes_eqb (firstn (length (k ++ iv)) c) (k ++ iv)
  then Some (skipn (length (k ++ iv)) c)
  else None.

Definition platform : Platform :=
  {| AesKey := list byte;
     getPublicKey := public_key;
     getSharedSecret := shared_secret;
     randomPrivateKey := firstn 32;
     hkdf := fun ikm salt info => ikm ++ salt ++ info;
     aes_gcm_encrypt := encrypt;
     aes_gcm_decrypt := decrypt;
     rtc_accepts := fun _ _ => true;
     rtc_sdp := fun history => [N.of_nat (length history)] |}.

Definition key (b : byte) : AesKey platform := [b].


(** Two random sources: one that repeats itself, one that counts. *)
Definition zeros : nat -> byte := fun _ => x00.
Definition counter : nat -> byte := fun i => byte_of_N (N.of_nat i).

Definition keypair (priv : list byte) : KeyPair :=
  {| priv := priv; pub := [byte_of_N ((num priv * 7) mod 251)] |}.

Definition no_elements : Elements :=
  {| roomId_value := []; peerId_value := []; peerPub_value := [];
     messageInput_value := []; importSeedInput_value := [] |}.

(** A state after [init], with the identity of [priv], in no room. *)
Definition state (priv : list byte) (rnd : nat -> byte) : State platform :=
  set_identity (keypair priv) (toB64 (pub (keypair priv)))
    (shortId (pub (keypair priv)))
    (boot ∅ no_elements rnd 0).

(** The same party with [room] typed in the room field. *)
Definition in_lobby (room : jsstring) : State platform :=
  set_elements
    {| roomId_value := room; peerId_value := []; peerPub_value := [];
       messageInput_value := []; importSeedInput_value := [] |}
    (state [x03] zeros).

(** An [ice] event from the peer ["b1"], without a public key. *)
Definition ice_from_b1 : SignalData :=
  {| sig_type := lit "ice"; sig_from := lit "b1"; sig_pub := [];
     sig_sdp := []; sig_candidate := Some (lit "candidate") |}.

(** An [offer] event from the peer ["b1"], without a public key. *)
Definition offer_without_pub : SignalData :=
  {| sig_type := lit "offer"; sig_from := lit "b1"; sig_pub := [];
     sig_sdp := lit "v=0"; sig_candidate := None |}.

(** The user's fields for a connection to the peer ["c1"], whose
    private key is [5], and the text ["hi"] to send. *)
Definition fields_for_c1 : Elements :=
  {| roomId_value := lit "r1"; peerId_value := lit "c1";
     peerPub_value := toB64 (pub (keypair [x05]));
     messageInput_value := lit "hi"; importSeedInput_value := [] |}.

(** A run that leaves two sessions with an open channel: the party
    joins ["r1"]; an [ice] event of ["b1"] arrives first and creates the
    session 0, without a key; the user connects to ["c1"], session 1,
    with a key; both channels open. *)
Definition two_open_sessions : State platform :=
  run (in_lobby (lit "r1"))
    [ClickJoinRoom; Deliver (Some ice_from_b1) (lit "k1");
     EditElements fields_for_c1; ClickStartConnection;
     ChannelReadyState 0 Open; ChannelReadyState 1 Open].

(** The same run without the event of ["b1"]: one session, with a key
    and an open channel. *)
Definition one_open_session : State platform :=
  run (in_lobby (lit "r1"))
    [ClickJoinRoom; EditElements fields_for_c1; ClickStartConnection;
     ChannelReadyState 0 Open].

(** Two parties in the room ["r1"]: [alice], private key [3], and [bob],
    private key [5], who has typed the identifier and the public key of
    [alice]. *)
Definition alice : State platform := in_lobby (lit "r1").

Definition bob : State platform :=
  set_elements
    {| roomId_value := lit "r1"; peerId_value := myId alice;
       peerPub_value := myPubB64 alice; messageInput_value := [];
       importSeedInput_value := [] |}
    (state [x05] counter).

(** [bob] joins and connects to [alice]; [alice] joins and reads the
    offer; [bob] reads the answer; the channels open; [alice] sends
    ["hi"]; [bob] receives what [alice] sent. *)
Definition bob_offers : State platform :=
  run bob [ClickJoinRoom; ClickStartConnection].

Definition alice_answers : State platform :=
  run alice
    [ClickJoinRoom; Deliver (head (published (trace bob_offers))) (lit "k1")].

Definition bob_connected : State platform :=
  run bob_offers
    [Deliver (head (published (trace alice_answers))) (lit "k2");
     ChannelReadyState 0 Open].

Definition alice_sends : State platform :=
  run alice_answers
    [ChannelReadyState 0 Open;
     EditElements
       {| roomId_value := lit "r1"; peerId_value := []; peerPub_value := [];
          messageInput_value := lit " hi "; importSeedInput_value := [] |};
     ClickSendMessage].

Definition bob_receives : State platform :=
  run bob_connected [ChannelMessage 0 (head (sent (trace alice_sends)))].

End Toy.

(** ** Reading a trace, continued *)

(** The mailboxes a trace subscribed to, oldest first: the room and
    the identifier of each. *)
Definition subscriptions (tr : list Effect) : list (jsstring * jsstring) :=
  flat_map (fun e => match e with
                     | ESubscribe roomId mailbox => [(roomId, mailbox)]
                     | _ => []
                     end) tr.

(** The texts a trace displayed as received from a peer. *)
Definition displayed (tr : list Effect) : list (jsstring * jsstring) :=
  flat_map (fun e => match e with
                     | EAddMessage (Peer peerId) (Text text) => [(peerId, text)]
                     | _ => []
                     end) tr.

(** ** The program from its start *)

Section Reachable.

Context {P : Platform}.

(** The module as a whole, [init().catch(console.error)] and then the
    events: the listeners of the buttons are added only when
    [loadOrCreateKeys] and [setIdentity] have returned, so after a
    failed start no input is handled. *)
Definition launch (storage : gmap jsstring jsstring) (els : Elements)
    (rnd : nat -> byte) (now : N) (inputs : list Input) : State P :=
  match init (boot storage els rnd now) with
  | (s, inr _) => run s inputs
  | (s, inl e) => set_trace (trace s ++ [EConsoleError e]) s
  end.

(** [getItem] returned a text that is not empty. *)
Definition has_item (storage : gmap jsstring jsstring) (k : jsstring) : bool :=
  match storage !! k with
  | Some (_ :: _) => true
  | _ => false
  end.

(** The bytes a stored text decodes to. *)
Definition stored_bytes (k : jsstring) (s : State P) : option (list byte) :=
  match localStorage s !! k with
  | Some t => fromB64 t
  | None => None
  end.

(** The state in which a key pair has been stored, set as the identity
    and shown: what [setItem], [setItem] and [setIdentity] leave, in
    [loadOrCreateKeys] and [init], in [importSeed] and in
    [regenerate]. *)
Definition with_new_identity (me : KeyPair) (s : State P) : State P :=
  set_trace (trace s ++ [EShowIdentity (shortId (pub me)) (toB64 (pub me))])
    (set_identity me (toB64 (pub me)) (shortId (pub me))
       (set_localStorage
          (<[storageKeys_pub := toB64 (pub me)]>
             (<[storageKeys_priv := toB64 (priv me)]> (localStorage s))) s)).

(** ** Invariants of the identity *)

(** The identifier and the public key text are those of the key pair
    in memory; there is none of them before there is a key pair. *)
Definition identity_consistent (s : State P) : Prop :=
  match myKeyPair s with
  | Some me => myPubB64 s = toB64 (pub me) /\ myId s = shortId (pub me)
  | None => myPubB64 s = [] /\ myId s = []
  end.

(** The stored texts decode to the key pair in memory. *)
Definition identity_stored (s : State P) : Prop :=
  match myKeyPair s with
  | Some me =>
      stored_bytes storageKeys_priv s = Some (priv me) /\
      stored_bytes storageKeys_pub s = Some (pub me)
  | None => True
  end.

(** A computation keeps an invariant. *)
Definition preserves (I : State P -> Prop) (s s' : State P) : Prop := I s -> I s'.

(** The identity and the storage are unchanged. *)
Definition same_identity (s s' : State P) : Prop :=
  myKeyPair s' = myKeyPair s /\ myPubB64 s' = myPubB64 s /\ myId s' = myId s /\
  localStorage s' = localStorage s.

(** ** Invariants of the sessions *)

(** Every session is recorded under a peer identifier that is not
    empty, and refers to a connection object that exists and was created
    for that peer. *)
Definition sessions_wf (s : State P) : Prop :=
  forall p r, map_get (connections s) p = Some r ->
    truthy p = true /\ exists c, heap s !! r = Some c /\ conn_peerId c = p.

(** A connection object after more calls on its [peer]. *)
Definition after_calls (c : Conn P) (more : list RtcCall) : Conn P :=
  {| conn_peerId := conn_peerId c; calls := calls c ++ more;
     readyState := readyState c; aesKey := aesKey c |}.

(** The state in which the reference [conn] holds the object [c]. *)
Definition with_conn (conn : nat) (c : Conn P) (s : State P) : State P :=
  set_heap (<[conn := c]> (heap s)) s.

(** What [startConnection] does once the session is recorded. *)
Definition offer_actions (peerId : jsstring) (conn : nat) : M P unit :=
  offer <- rtc conn CreateOffer ;;
  rtc conn (SetLocalDescription SdpOffer offer) ;;;
  s' <- get ;;
  sendSignal peerId (OfferPayload offer (myPubB64 s')) ;;;
  setStatus (StatusOfferSent peerId).

(** The state in which a new connection object for [peerId], with the
    key [key], is recorded as the session of [peerId]: what
    [createConnection] and [connections.set] leave. *)
Definition with_session (peerId : jsstring) (key : option (AesKey P))
    (s : State P) : State P :=
  set_connections (map_set (connections s) peerId (fresh (dom (heap s))))
    (set_heap (<[fresh (dom (heap s)) := new_conn peerId key]> (heap s)) s).

(** The room and the published events are unchanged. *)
Definition quiet (s s' : State P) : Prop :=
  room s' = room s /\ published (trace s') = published (trace s).

(** The subscriptions are unchanged. *)
Definition same_subscriptions (s s' : State P) : Prop :=
  subscriptions (trace s') = subscriptions (trace s).

(** The texts displayed as received are unchanged. *)
Definition same_displayed (s s' : State P) : Prop :=
  displayed (trace s') = displayed (trace s).

(** The messages sent on data channels are unchanged. *)
Definition same_sent (s s' : State P) : Prop :=
  sent (trace s') = sent (trace s).

End Reachable.

(** The key generation of the library never fails on a key it drew
    itself. *)
Definition generated_keys_valid (P : Platform) : Prop :=
  forall seed, getPublicKey P (randomPrivateKey P seed) <> None.

(** ** More scenes on the small platform *)

Module Scenes.

(** The state a first visit leaves: an empty storage, the random
    source that repeats zero. *)
Definition first_visit : State Toy.platform :=
  launch ∅ Toy.no_elements Toy.zeros 0 [].

(** A first visit with the fields of [bob]: the party gets a new
    identity, joins the room ["r1"] and connects to [alice]. *)
Definition dave_offers : State Toy.platform :=
  launch ∅ (elements Toy.bob) Toy.counter 0 [ClickJoinRoom; ClickStartConnection].

(** A party whose private key has 32 bytes. *)
Definition carol : State Toy.platform :=
  Toy.state (repeat x01 32) Toy.zeros.

(** [alice] and [bob] in the room ["r1"]. *)
Definition alice_joined : State Toy.platform := step Toy.alice ClickJoinRoom.
Definition bob_joined : State Toy.platform := step Toy.bob ClickJoinRoom.

(** The offer [bob] publishes, as [alice] reads it, and an answer of
    [alice], as [bob] reads it. *)
Definition offer_of_bob : SignalData :=
  event_of (OfferPayload (rtc_sdp Toy.platform [CreateDataChannel]) (myPubB64 Toy.bob))
    (myId Toy.bob).

Definition answer_of_alice : SignalData :=
  event_of (AnswerPayload (lit "v=0") (myPubB64 Toy.alice)) (myId Toy.alice).

(** [alice], her channel to [bob] open, has typed [" hi "]. *)
Definition alice_typing : State Toy.platform :=
  run Toy.alice_answers
    [ChannelReadyState 0 Open;
     EditElements
       {| roomId_value := lit "r1"; peerId_value := []; peerPub_value := [];
          messageInput_value := lit " hi "; importSeedInput_value := [] |}].

End Scenes.

(** ** The event loop, one [await] at a time *)

(** An [async] function runs from its call to its first [await] at
    once; the rest runs in a later turn of the event loop, and other
    inputs and the rests of other handlers can come before it. Every
    [await] of [handleSignal], [startConnection], [sendMessage],
    [regenerate] and [channel.onmessage] is a point where the handler
    is suspended; the [await]s of [deriveAesKey], [encryptMessage] and
    [decryptMessage] are passed together with the [await] of their
    caller, as nothing of the state is read or written between them.
    What an awaited call does to the state, and whether it fails, is
    settled when the call is made; a failure reaches [console.error] in
    a later turn. A schedule resumes the suspended handlers in any
    order and at any time; the browser takes some of these orders only
    (a handler whose awaited promise is already settled is resumed
    before the next input is taken), so that what holds of every
    schedule holds of the program. *)

Module Async.

Section Tasks.

Context {P : Platform}.

(** A suspended handler: the [await] it stopped at and the local
    variables its rest reads. *)
Inductive Task : Type :=
(** [handleSignal], in [createConnection]: [await deriveAesKey(...)],
    line 200; the key is derived from the values read at the call. *)
| SignalDeriving (data : SignalData) (key : AesKey P)
(** [await createConnection(fromId, data.pub || '')], line 160 *)
| SignalCreated (data : SignalData) (conn : nat)
(** [await conn.peer.setRemoteDescription(...)], line 164 *)
| SignalOfferSet (data : SignalData) (conn : nat)
(** [await conn.peer.createAnswer()], line 165 *)
| SignalAnswerCreated (data : SignalData) (conn : nat) (answer : jsstring)
(** [await conn.peer.setLocalDescription(answer)], line 166 *)
| SignalAnswerSet (data : SignalData) (conn : nat) (answer : jsstring)
(** [await conn.peer.setRemoteDescription(...)], line 175 *)
| SignalRemoteSet (data : SignalData) (conn : nat)
(** [await conn.peer.addIceCandidate(data.candidate)], line 179 *)
| SignalIceAdded
(** [startConnection], in [createConnection]: line 200 *)
| StartDeriving (peerId : jsstring) (key : AesKey P)
(** [await createConnection(peerId, peerPubB64)], line 241 *)
| StartCreated (peerId : jsstring) (conn : nat)
(** [await conn.peer.createOffer()], line 243 *)
| StartOfferCreated (peerId : jsstring) (conn : nat) (offer : jsstring)
(** [await conn.peer.setLocalDescription(offer)], line 244 *)
| StartOfferSet (peerId : jsstring) (conn : nat) (offer : jsstring)
(** [await encryptMessage(active.aesKey, text)], line 257 *)
| SendEncrypted (conn : nat) (text : jsstring) (payload : Payload)
(** [await generateKeyPair()], line 288 *)
| RegenerateGenerated (newPair : KeyPair)
(** [await decryptMessage(aesKey, payload)], line 224 *)
| MessageDecrypted (peerId : jsstring) (text : jsstring)
(** the promise of the handler is rejected; [console.error] has not
    run yet *)
| Rejected (e : Error).

(** What a part of a handler leaves: [None] when the handler has
    returned, the suspended handler otherwise. *)
Definition finished : M P (option Task) := ret None.
Definition await (t : Task) : M P (option Task) := ret (Some t).

(** [createConnection] from its call to its [await], or to its return
    when there is no public key and so no [await]. [deriving] and
    [created] are the places of the caller. *)
Definition createConnection_begin (peerId peerPubB64 : jsstring)
    (deriving : AesKey P -> Task) (created : nat -> Task) : M P (option Task) :=
  s <- get ;;
  let roomSalt := roomSalt s in
  if truthy peerPubB64 then
    k <- deriveAesKey peerPubB64 roomSalt ;;
    await (deriving k)
  else
    conn <- alloc {| conn_peerId := peerId; calls := [CreateDataChannel];
                     readyState := Connecting; aesKey := None |} ;;
    await (created conn).

(** [createConnection] after [await deriveAesKey(...)]: lines 203 to
    230. *)
Definition createConnection_end (peerId : jsstring) (key : AesKey P)
    (created : nat -> Task) : M P (option Task) :=
  conn <- alloc {| conn_peerId := peerId; calls := [CreateDataChannel];
                   readyState := Connecting; aesKey := Some key |} ;;
  await (created conn).

(** [handleSignal] from line 178. *)
Definition handleSignal_ice (data : SignalData) (conn : nat) : M P (option Task) :=
  if bool_decide (sig_type data = lit "ice") then
    match sig_candidate data with
    | Some candidate => rtc conn (AddIceCandidate candidate) ;;; await SignalIceAdded
    | None => finished
    end
  else finished.

(** [handleSignal] from line 174. *)
Definition handleSignal_answer (data : SignalData) (conn : nat) : M P (option Task) :=
  if bool_decide (sig_type data = lit "answer") then
    rtc conn (SetRemoteDescription SdpAnswer (sig_sdp data)) ;;;
    await (SignalRemoteSet data conn)
  else handleSignal_ice data conn.

(** [handleSignal] from line 163. *)
Definition handleSignal_offer (data : SignalData) (conn : nat) : M P (option Task) :=
  if bool_decide (sig_type data = lit "offer") then
    rtc conn (SetRemoteDescription SdpOffer (sig_sdp data)) ;;;
    await (SignalOfferSet data conn)
  else handleSignal_answer data conn.

(** [handleSignal] from its call. *)
Definition handleSignal_begin (data : SignalData) : M P (option Task) :=
  s <- get ;;
  let fromId := sig_from data in
  if negb (truthy fromId) || bool_decide (fromId = myId s) then finished
  else
    match map_get (connections s) fromId with
    | Some conn => handleSignal_offer data conn
    | None =>
        createConnection_begin fromId (sig_pub data)
          (SignalDeriving data) (SignalCreated data)
    end.

(** The callback of the subscription, [handleSignal] up to its first
    [await]. *)
Definition onSignal_begin (data : option SignalData) (key : jsstring)
  : M P (option Task) :=
  s <- get ;;
  match data with
  | None => finished
  | Some d =>
      if negb (truthy (sig_type d)) || bool_decide (key ∈ signalSeen s)
      then finished
      else
        modify (set_signalSeen ({[key]} ∪ signalSeen s)) ;;;
        emit (HandleSignal key) ;;;
        handleSignal_begin d
  end.

(** [startConnection] from its call. *)
Definition startConnection_begin : M P (option Task) :=
  ensureRoom ;;;
  s <- get ;;
  let peerId := trim (peerId_value (elements s)) in
  let peerPubB64 := trim (peerPub_value (elements s)) in
  if negb (truthy peerId) || negb (truthy peerPubB64)
  then alert AlertNeedIdAndKey ;;; finished
  else
    createConnection_begin peerId peerPubB64
      (StartDeriving peerId) (StartCreated peerId).

(** [sendMessage] from its call: [encryptMessage] draws the nonce at
    once. *)
Definition sendMessage_begin : M P (option Task) :=
  s <- get ;;
  let text := trim (messageInput_value (elements s)) in
  if negb (truthy text) then finished
  else
    let active := find (is_open s) (map_values (connections s)) in
    match active with
    | Some conn =>
        match heap s !! conn with
        | Some {| aesKey := Some key |} =>
            payload <- encryptMessage key text ;;
            await (SendEncrypted conn text payload)
        | _ => alert AlertNoActiveChannel ;;; finished
        end
    | None => alert AlertNoActiveChannel ;;; finished
    end.

(** [regenerate] from its call. *)
Definition regenerate_begin : M P (option Task) :=
  removeItem storageKeys_priv ;;;
  removeItem storageKeys_pub ;;;
  pair <- generateKeyPair ;;
  await (RegenerateGenerated pair).

(** [channel.onmessage] from its call. *)
Definition onmessage_begin (conn : nat) (data : option Payload) : M P (option Task) :=
  s <- get ;;
  match heap s !! conn with
  | Some c =>
      match aesKey c with
      | None => addMessage (Peer (conn_peerId c)) KeyNotReady ;;; finished
      | Some key =>
          payload <- orThrow data SyntaxError ;;
          text <- decryptMessage key payload ;;
          await (MessageDecrypted (conn_peerId c) text)
      end
  | None => finished
  end.

(** The rest of a suspended handler, to its next [await] or to its
    end. *)
Definition resume (t : Task) : M P (option Task) :=
  match t with
  | SignalDeriving data key =>
      createConnection_end (sig_from data) key (SignalCreated data)
  | SignalCreated data conn =>
      connections_set (sig_from data) conn ;;;
      handleSignal_offer data conn
  | SignalOfferSet data conn =>
      answer <- rtc conn CreateAnswer ;;
      await (SignalAnswerCreated data conn answer)
  | SignalAnswerCreated data conn answer =>
      rtc conn (SetLocalDescription SdpAnswer answer) ;;;
      await (SignalAnswerSet data conn answer)
  | SignalAnswerSet data conn answer =>
      s' <- get ;;
      sendSignal (sig_from data) (AnswerPayload answer (myPubB64 s')) ;;;
      setStatus (StatusAnswerSent (sig_from data)) ;;;
      handleSignal_answer data conn
  | SignalRemoteSet data conn =>
      setStatus (StatusEstablished (sig_from data)) ;;;
      handleSignal_ice data conn
  | SignalIceAdded => finished
  | StartDeriving peerId key =>
      createConnection_end peerId key (StartCreated peerId)
  | StartCreated peerId conn =>
      connections_set peerId conn ;;;
      offer <- rtc conn CreateOffer ;;
      await (StartOfferCreated peerId conn offer)
  | StartOfferCreated peerId conn offer =>
      rtc conn (SetLocalDescription SdpOffer offer) ;;;
      await (StartOfferSet peerId conn offer)
  | StartOfferSet peerId conn offer =>
      s' <- get ;;
      sendSignal peerId (OfferPayload offer (myPubB64 s')) ;;;
      setStatus (StatusOfferSent peerId) ;;;
      finished
  | SendEncrypted conn text payload =>
      s <- get ;;
      (if is_open s conn then emit (EChannelSend conn payload)
       else throw InvalidStateError) ;;;
      addMessage You (Text text) ;;;
      modify (set_messageInput []) ;;;
      finished
  | RegenerateGenerated newPair =>
      setItem storageKeys_priv (toB64 (priv newPair)) ;;;
      setItem storageKeys_pub (toB64 (pub newPair)) ;;;
      setIdentity newPair ;;;
      alert AlertKeysUpdated ;;;
      finished
  | MessageDecrypted peerId text =>
      addMessage (Peer peerId) (Text text) ;;;
      finished
  | Rejected e => emit (EConsoleError e) ;;; finished
  end.

(** An input and its handler up to the first [await]. The listeners
    that are no [async] functions run to their end. *)
Definition start (i : Input) : M P (option Task) :=
  match i with
  | ClickStartConnection => startConnection_begin
  | ClickSendMessage => sendMessage_begin
  | ClickExportSeed => exportSeed ;;; finished
  | ClickImportSeed => importSeed ;;; finished
  | ClickRegenerate => regenerate_begin
  | Deliver data key =>
      s <- get ;;
      match room s with
      | None => finished
      | Some _ => onSignal_begin data key
      end
  | ChannelMessage conn data => onmessage_begin conn data
  | EditElements _ | Tick _ | ClickJoinRoom | ClickCopyId | IceCandidate _ _
  | ChannelReadyState _ _ | ChannelOpen _ =>
      modify (fun s => step s i) ;;; finished
  end.

(** The state and the handlers that are suspended, oldest first. *)
Record World : Type := {
  current : State P;
  pending : list Task
}.

(** What the event loop takes up next: an input, or the rest of the
    [n]-th suspended handler. *)
Inductive Event : Type :=
| Occurs (i : Input)
| Resumes (n : nat).

(** The world after a part of a handler: a handler that is suspended
    joins the others, a handler that threw is rejected. *)
Definition settle (others : list Task) (r : State P * (Error + option Task)) : World :=
  match r with
  | (s, inr None) => {| current := s; pending := others |}
  | (s, inr (Some t)) => {| current := s; pending := others ++ [t] |}
  | (s, inl e) => {| current := s; pending := others ++ [Rejected e] |}
  end.

(** One turn of the event loop. *)
Definition turn (w : World) (e : Event) : World :=
  match e with
  | Occurs i => settle (pending w) (start i (current w))
  | Resumes n =>
      match pending w !! n with
      | Some t => settle (delete n (pending w)) (resume t (current w))
      | None => w
      end
  end.

Definition turns (w : World) (events : list Event) : World :=
  fold_left turn events w.

(** The world in which no handler is suspended. *)
Definition idle (s : State P) : World := {| current := s; pending := [] |}.

(** The schedule in which the handler of an input is resumed until it
    has ended, before anything else: no handler is suspended more than
    seven times on its way, the rejection of its promise included, and
    to resume where nothing is suspended does nothing. *)
Definition atomic (i : Input) : list Event :=
  Occurs i :: repeat (Resumes 0) 8.

(** The world after a part of a handler that is alone, when what it
    leaves is resumed at once, [fuel] times at most. *)
Fixpoint alone (fuel : nat) (r : State P * (Error + option Task)) : World :=
  match fuel with
  | 0 => settle [] r
  | S fuel' =>
      match r with
      | (s, inr None) => idle s
      | (s, inr (Some t)) => alone fuel' (resume t s)
      | (s, inl e) => alone fuel' (resume (Rejected e) s)
      end
  end.

(** The handler is about to record a session for the peer [p]: it is
    suspended in [createConnection], or at the [await] of its call,
    before [connections.set]. *)
Definition creating (p : jsstring) (t : Task) : bool :=
  match t with
  | SignalDeriving data _ | SignalCreated data _ => bool_decide (sig_from data = p)
  | StartDeriving peerId _ | StartCreated peerId _ => bool_decide (peerId = p)
  | _ => false
  end.


(** The session recorded for the peer [p] is the same. *)
Definition same_binding (p : jsstring) (s s' : State P) : Prop :=
  map_get (connections s') p = map_get (connections s) p.

(** The sessions recorded are the same. *)
Definition same_connections (s s' : State P) : Prop :=
  connections s' = connections s.


End Tasks.

Arguments Task : clear implicits.
Arguments World : clear implicits.

End Async.

(** ** An overlap on the small platform *)

Module Overlap.

(** An [offer] of the peer ["b1"], private key [5], with its public
    key. *)
Definition offer_of_b1 : SignalData :=
  {| sig_type := lit "offer"; sig_from := lit "b1";
     sig_pub := toB64 (pub (Toy.keypair [x05]));
     sig_sdp := lit "v=0"; sig_candidate := None |}.

(** The party has joined the room ["r1"]. *)
Definition joined : Async.World Toy.platform :=
  Async.idle (step (Toy.in_lobby (lit "r1")) ClickJoinRoom).

(** The offer of ["b1"] is read and its handler waits for the key; the
    [ice] event of ["b1"] is read, and its handler records a session
    without a key. *)
Definition ice_overtakes : list Async.Event :=
  [Async.Occurs (Deliver (Some offer_of_b1) (lit "k1"));
   Async.Occurs (Deliver (Some Toy.ice_from_b1) (lit "k2"));
   Async.Resumes 1; Async.Resumes 1].

(** The handler of the offer goes on: the key is there, the object is
    created and recorded. *)
Definition offer_completes : list Async.Event :=
  [Async.Resumes 0; Async.Resumes 0].

End Overlap.

(** * Properties *)

(** ** Arithmetic with division by constants *)

Ltac Zify.zify_post_hook ::= Z.to_euclidean_division_equations.

(** Case analysis on every comparison of binary naturals in the goal. *)
Ltac ncases :=
  repeat match goal with
    | |- context [N.ltb ?a ?b] => destruct (N.ltb_spec a b)
    | |- context [N.leb ?a ?b] => destruct (N.leb_spec a b)
    | |- context [N.eqb ?a ?b] => destruct (N.eqb_spec a b)
    end.

Lemma byte_of_to_N (b : byte) : byte_of_N (Byte.to_N b) = b.
Proof.
  unfold byte_of_N. pose proof (Byte.to_N_bounded b) as Hb.
  rewrite N.mod_small by lia. now rewrite Byte.of_to_N.
Qed.

Lemma to_N_byte_of_N (n : N) : (n < 256)%N -> Byte.to_N (byte_of_N n) = n.
Proof.
  intros Hn. unfold byte_of_N. rewrite N.mod_small by lia.
  destruct (Byte.of_N n) as [b|] eqn:E.
  - now apply Byte.to_of_N.
  - apply Byte.of_N_None_iff in E. lia.
Qed.

Lemma to_N_lt_256 (b : byte) : (Byte.to_N b < 256)%N.
Proof. pose proof (Byte.to_N_bounded b). lia. Qed.

Lemma map_byte_of_to_N (bs : list byte) : map byte_of_N (map Byte.to_N bs) = bs.
Proof.
  induction bs as [|b bs IH]; simpl; [reflexivity|].
  now rewrite byte_of_to_N, IH.
Qed.

Lemma Forall_to_N_lt (bs : list byte) : Forall (fun n => (n < 256)%N) (map Byte.to_N bs).
Proof. induction bs; simpl; constructor; auto using to_N_lt_256. Qed.

(** ** Base64 *)

(** Induction on a list three elements at a time, as [btoa] reads it. *)
Lemma list_ind3 {A : Type} (Q : list A -> Prop) :
  Q [] -> (forall a, Q [a]) -> (forall a b, Q [a; b]) ->
  (forall a b c l, Q l -> Q (a :: b :: c :: l)) ->
  forall l, Q l.
Proof.
  intros H0 H1 H2 H3.
  assert (H : forall l, Q l /\ (forall a, Q (a :: l)) /\ (forall a b, Q (a :: b :: l))).
  { induction l as [|x l (IH0 & IH1 & IH2)]; [now auto|].
    split; [apply IH1|]. split; [intros; apply IH2|]. intros; now apply H3. }
  intros l. apply H.
Qed.

Module Base64Facts.
Import Base64.

Lemma b64_value_char (i : N) : (i < 64)%N -> b64_value (b64_char i) = Some i.
Proof.
  intros Hi. unfold b64_value, b64_char.
  ncases; simpl; try lia; f_equal; lia.
Qed.

Lemma b64_char_not_pad (i : N) : b64_char i <> 61%N.
Proof. unfold b64_char. ncases; lia. Qed.

Lemma b64_char_range (i : N) : (43 <= b64_char i <= 122)%N.
Proof. unfold b64_char. ncases; lia. Qed.

Lemma b64_char_not_space (i : N) : is_ascii_whitespace (b64_char i) = false.
Proof.
  pose proof (b64_char_range i) as H. revert H.
  generalize (b64_char i). intros c Hc. unfold is_ascii_whitespace.
  ncases; simpl; try reflexivity; exfalso; lia.
Qed.

Lemma sextets_lt (bs : list N) :
  Forall (fun n => (n < 256)%N) bs -> Forall (fun n => (n < 64)%N) (sextets bs).
Proof.
  induction bs as [| a | a b | a b c l IH] using list_ind3; intros H; simpl.
  - constructor.
  - inversion_clear H. repeat constructor; lia.
  - inversion_clear H as [|? ? ? H']. inversion_clear H'.
    repeat constructor; lia.
  - inversion_clear H as [|? ? ? H']. inversion_clear H' as [|? ? ? H''].
    inversion_clear H''. repeat (constructor; [lia|]). now apply IH.
Qed.

Lemma b64_values_chars (vs : list N) :
  Forall (fun n => (n < 64)%N) vs -> b64_values (map b64_char vs) = Some vs.
Proof.
  induction 1 as [|v vs Hv _ IH]; simpl; [reflexivity|].
  now rewrite b64_value_char, IH.
Qed.

Lemma octets_sextets (bs : list N) :
  Forall (fun n => (n < 256)%N) bs -> octets (sextets bs) = bs.
Proof.
  induction bs as [| a | a b | a b c l IH] using list_ind3; intros H; simpl.
  - reflexivity.
  - inversion_clear H. f_equal. lia.
  - inversion_clear H as [|? ? ? H']. inversion_clear H'.
    f_equal; [lia|]. f_equal. lia.
  - inversion_clear H as [|? ? ? H']. inversion_clear H' as [|? ? ? H''].
    inversion_clear H''. rewrite IH by assumption.
    f_equal; [lia|]. f_equal; [lia|]. f_equal. lia.
Qed.

Lemma padding_SSS (n : nat) : padding (S (S (S n))) = padding n.
Proof.
  unfold padding. replace (S (S (S n))) with (n + 1 * 3)%nat by lia.
  now rewrite Nat.Div0.mod_add.
Qed.

(** The shape of an encoding: the length is a multiple of four, the
    characters before the padding are never one more than a multiple of
    four, and padding follows at least two characters. *)
Lemma encode_shape (bs : list N) :
  (exists k, length (sextets bs) + length (padding (length bs)) = 4 * k)%nat /\
  (exists k r, length (sextets bs) = 4 * k + r /\ (r = 0 \/ r = 2 \/ r = 3))%nat /\
  (padding (length bs) <> [] -> sextets bs <> []).
Proof.
  induction bs as [| a | a b | a b c l IH] using list_ind3.
  - split; [exists 0%nat; reflexivity|]. split; [exists 0%nat, 0%nat; auto|]. now intros [].
  - split; [exists 1%nat; reflexivity|]. split; [exists 0%nat, 2%nat; auto|]. discriminate.
  - split; [exists 1%nat; reflexivity|]. split; [exists 0%nat, 3%nat; auto|]. discriminate.
  - destruct IH as ((k & Hk) & (k' & r & Hk' & Hr) & _).
    cbn [length sextets]. rewrite padding_SSS.
    split; [exists (S k); lia|]. split; [exists (S k'), r; split; [lia|assumption]|].
    discriminate.
Qed.

Lemma mod4_of_mul (k : nat) : ((4 * k) mod 4 = 0)%nat.
Proof. rewrite Nat.mul_comm. apply Nat.Div0.mod_mul. Qed.

Lemma mod4_of_mul_add (k r : nat) : (r < 4 -> (4 * k + r) mod 4 = r)%nat.
Proof.
  intros Hr. rewrite Nat.add_comm, Nat.mul_comm, Nat.Div0.mod_add.
  now apply Nat.mod_small.
Qed.

(** Removing the padding of a padded text gives back the text. *)
Lemma strip_padding_app (chars pad : list N) :
  Forall (fun c => c <> 61%N) chars ->
  pad = [] \/ pad = [61%N] \/ pad = [61%N; 61%N] ->
  (length (chars ++ pad) mod 4 = 0)%nat ->
  (pad <> [] -> chars <> []) ->
  strip_padding (chars ++ pad) = chars.
Proof.
  intros Hc Hpad Hlen Hne. unfold strip_padding.
  rewrite Hlen. simpl. rewrite rev_app_distr.
  assert (Hlast : forall c r, rev chars = c :: r -> (c =? 61)%N = false).
  { intros c r E. apply N.eqb_neq. rewrite List.Forall_forall in Hc. apply Hc.
    apply in_rev. rewrite E. now left. }
  destruct Hpad as [-> | [-> | ->]]; simpl.
  - rewrite app_nil_r.
    destruct (rev chars) as [|c1 [|c2 r]] eqn:E; try reflexivity.
    now rewrite (Hlast _ _ eq_refl).
  - destruct (rev chars) as [|c2 r] eqn:E.
    + destruct chars; [now destruct Hne|].
      apply (f_equal (@length N)) in E. rewrite length_rev in E. discriminate.
    + rewrite (Hlast _ _ eq_refl).
      change (rev (c2 :: r) = chars). rewrite <- E. apply rev_involutive.
  - apply rev_involutive.
Qed.

Lemma atob_encode (bs : list N) :
  Forall (fun n => (n < 256)%N) bs -> atob (b64_encode bs) = Some bs.
Proof.
  intros Hbs. unfold atob, b64_encode.
  destruct (encode_shape bs) as ((k & Hk) & (k' & r & Hk' & Hr) & Hne).
  assert (Hpad : padding (length bs) = [] \/ padding (length bs) = [61%N]
                 \/ padding (length bs) = [61%N; 61%N]).
  { unfold padding. destruct (length bs mod 3)%nat as [|[|[|?]]]; auto. }
  assert (Hfilter : forall l : list N,
             Forall (fun c => is_ascii_whitespace c = false) l ->
             List.filter (fun c => negb (is_ascii_whitespace c)) l = l).
  { induction 1 as [|c l Hc _ IH]; [reflexivity|].
    simpl. now rewrite Hc, IH. }
  rewrite Hfilter.
  2:{ apply List.Forall_app. split.
      - apply List.Forall_forall. intros c Hin. apply in_map_iff in Hin.
        destruct Hin as (i & <- & _). apply b64_char_not_space.
      - destruct Hpad as [-> | [-> | ->]]; repeat constructor. }
  rewrite strip_padding_app; try assumption.
  - rewrite length_map.
    replace (length (sextets bs) mod 4 =? 1)%nat with false.
    2:{ symmetry. apply Nat.eqb_neq. rewrite Hk'.
        rewrite mod4_of_mul_add by lia. lia. }
    rewrite b64_values_chars by now apply sextets_lt.
    simpl. now rewrite octets_sextets.
  - apply List.Forall_forall. intros c Hin. apply in_map_iff in Hin.
    destruct Hin as (i & <- & _). apply b64_char_not_pad.
  - rewrite length_app, length_map, Hk. apply mod4_of_mul.
  - intros Hp E. apply Hne in Hp. apply Hp.
    destruct (sextets bs); [reflexivity|discriminate].
Qed.

End Base64Facts.

(** [fromB64] undoes [toB64] on every byte array. *)
Lemma fromB64_toB64 (bytes : list byte) : fromB64 (toB64 bytes) = Some bytes.
Proof.
  unfold fromB64, toB64.
  rewrite Base64Facts.atob_encode by apply Forall_to_N_lt.
  simpl. now rewrite map_byte_of_to_N.
Qed.

Lemma toB64_inj (a b : list byte) : toB64 a = toB64 b -> a = b.
Proof.
  intros E. apply (f_equal fromB64) in E.
  rewrite !fromB64_toB64 in E. now injection E.
Qed.

(** ** UTF-8 *)

Module Utf8Facts.
Import Utf8.





Lemma encode_scalar_lt (cp : N) :
  is_scalar cp -> Forall (fun n => (n < 256)%N) (encode_scalar cp).
Proof.
  intros [H1 H2]. unfold encode_scalar.
  ncases; repeat constructor; lia.
Qed.




End Utf8Facts.

Module Utf8Roundtrip.
Import Utf8 Utf8Facts.







End Utf8Roundtrip.

(** ** The session key deriver and the message codec *)

Section Codec.

Context {P : Platform}.

Lemma deriveAesKey_eq (s : State P) (me : KeyPair) (peerPub shared : list byte)
    (saltText : jsstring) :
  myKeyPair s = Some me ->
  getSharedSecret P (priv me) peerPub = Some shared ->
  deriveAesKey (toB64 peerPub) saltText s =
  (s, inr (hkdf P (skipn 1 shared) (Utf8.encode saltText)
             (Utf8.encode (lit "maxkorotzi-e2ee")))).
Proof.
  intros Hme Hshared. unfold deriveAesKey, bind, orThrow, ret, get, throw.
  rewrite fromB64_toB64. cbv beta iota. rewrite Hme.
  cbv beta iota. now rewrite Hshared.
Qed.

(** (C1) Session-key derivation is symmetric: for valid key pairs [A]
    and [B] and one salt, [A] deriving with [B]'s public key and [B]
    deriving with [A]'s public key obtain the same key, whenever the key
    agreement itself is symmetric. *)
Theorem derive_symmetric (sA sB : State P) (A B : KeyPair) (salt : jsstring) :
  key_agreement_symmetric P ->
  valid_keypair P A -> valid_keypair P B ->
  myKeyPair sA = Some A -> myKeyPair sB = Some B ->
  exists key,
    deriveAesKey (toB64 (pub B)) salt sA = (sA, inr key) /\
    deriveAesKey (toB64 (pub A)) salt sB = (sB, inr key).
Proof.
  intros Hsym HA HB HsA HsB.
  destruct (Hsym _ _ _ _ HA HB) as (shared & H1 & H2).
  exists (hkdf P (skipn 1 shared) (Utf8.encode salt)
            (Utf8.encode (lit "maxkorotzi-e2ee"))).
  split.
  - apply deriveAesKey_eq with (me := A); assumption.
  - apply deriveAesKey_eq with (me := B); assumption.
Qed.

Lemma encryptMessage_eq (key : AesKey P) (text : jsstring) (s : State P) :
  encryptMessage key text s =
  (set_entropyPos (entropyPos s + 12) s,
   inr {| payload_iv := toB64 (draw 12 s);
          payload_data := toB64 (aes_gcm_encrypt P key (draw 12 s) (Utf8.encode text)) |}).
Proof. reflexivity. Qed.

Lemma decryptMessage_eq (key : AesKey P) (iv data : list byte) (s : State P) :
  decryptMessage key {| payload_iv := toB64 iv; payload_data := toB64 data |} s =
  (s, match aes_gcm_decrypt P key iv data with
      | Some plain => inr (Utf8.decode plain)
      | None => inl OperationError
      end).
Proof.
  unfold decryptMessage, bind, orThrow, ret, throw.
  cbn [payload_iv payload_data]. rewrite !fromB64_toB64. cbv beta iota.
  now destruct (aes_gcm_decrypt P key iv data).
Qed.

Lemma length_draw (n : nat) (s : State P) : length (draw n s) = n.
Proof. unfold draw. now rewrite length_map, length_seq. Qed.

(** What the receiver reads is the sender's text after a passage
    through UTF-8. *)
Lemma decrypt_encrypt (key : AesKey P) (text : jsstring) (s s' : State P) :
  aead_correct P ->
  exists payload,
    encryptMessage key text s = (set_entropyPos (entropyPos s + 12) s, inr payload) /\
    decryptMessage key payload s' = (s', inr (Utf8.decode (Utf8.encode text))).
Proof.
  intros Hok. eexists. split; [apply encryptMessage_eq|].
  now rewrite decryptMessage_eq, Hok.
Qed.


(** (C8, amended) Every call of [encryptMessage] takes its nonce from
    the random source: the next twelve bytes, 96 bits, which the call
    consumes, so that the call after it reads the twelve bytes that
    follow. Nothing else enters the nonce: two encryptions of one
    plaintext under one key have different nonces exactly when the
    bytes drawn differ, and then different ciphertexts; when the bytes
    drawn are the same, nonce and ciphertext are the same. *)
Theorem encrypt_fresh_nonce (key : AesKey P) (text : jsstring) (s1 s2 : State P) :
  aead_nonce_injective P ->
  exists p1 p2,
    encryptMessage key text s1 = (set_entropyPos (entropyPos s1 + 12) s1, inr p1) /\
    encryptMessage key text s2 = (set_entropyPos (entropyPos s2 + 12) s2, inr p2) /\
    fromB64 (payload_iv p1) = Some (draw 12 s1) /\
    fromB64 (payload_iv p2) = Some (draw 12 s2) /\
    length (draw 12 s1) = 12%nat /\ length (draw 12 s2) = 12%nat /\
    draw 12 (set_entropyPos (entropyPos s1 + 12) s1)
    = map (entropy s1) (seq (entropyPos s1 + 12) 12) /\
    (payload_iv p1 = payload_iv p2 <-> draw 12 s1 = draw 12 s2) /\
    (draw 12 s1 <> draw 12 s2 -> payload_data p1 <> payload_data p2) /\
    (draw 12 s1 = draw 12 s2 -> p1 = p2).
Proof.
  intros Hinj. do 2 eexists.
  split; [apply encryptMessage_eq|]. split; [apply encryptMessage_eq|].
  cbn [payload_iv payload_data]. rewrite !fromB64_toB64, !length_draw.
  do 5 (split; [reflexivity|]). split; [|split].
  - split; [apply toB64_inj|now intros ->].
  - intros Hne E. apply toB64_inj in E. revert E.
    apply Hinj; auto using length_draw.
  - now intros ->.
Qed.

End Codec.

(** ** The small platform satisfies the hypotheses *)

Module ToyFacts.


Lemma symmetric : key_agreement_symmetric Toy.platform.
Proof.
  intros a b pa pb Ha Hb. cbn in Ha, Hb. unfold Toy.public_key in Ha, Hb.
  injection Ha as <-. injection Hb as <-. cbn.
  rewrite !to_N_byte_of_N by lia. eexists. split; [reflexivity|].
  do 3 f_equal.
  rewrite !N.Div0.mul_mod_idemp_r. f_equal. lia.
Qed.


Lemma nonce_injective : aead_nonce_injective Toy.platform.
Proof.
  intros k iv1 iv2 m _ _ Hne E. cbn in E. unfold Toy.encrypt in E.
  apply app_inv_head, app_inv_tail in E. contradiction.
Qed.




End ToyFacts.

(** Witness of [derive_symmetric]: the private keys [3] and [5] on the
    small platform, salt ["r1"]. *)
Lemma derive_symmetric_witness :
  exists key,
    deriveAesKey (toB64 (pub (Toy.keypair [x05]))) (lit "r1")
      (Toy.state [x03] Toy.zeros)
    = (Toy.state [x03] Toy.zeros, inr key) /\
    deriveAesKey (toB64 (pub (Toy.keypair [x03]))) (lit "r1")
      (Toy.state [x05] Toy.zeros)
    = (Toy.state [x05] Toy.zeros, inr key).
Proof.
  apply (derive_symmetric (Toy.state [x03] Toy.zeros)
           (Toy.state [x05] Toy.zeros) (Toy.keypair [x03]) (Toy.keypair [x05])
           (lit "r1") ToyFacts.symmetric);
    reflexivity.
Defined.



(** The same on every platform whose cipher is correct; and a text that
    begins with U+FEFF loses it. *)
Lemma decrypt_encrypt_lone_surrogate {P : Platform} (key : AesKey P) (s s' : State P) :
  aead_correct P ->
  exists payload,
    encryptMessage key [55296%N] s = (set_entropyPos (entropyPos s + 12) s, inr payload) /\
    decryptMessage key payload s' = (s', inr [65533%N]).
Proof. intros Hok. exact (decrypt_encrypt key [55296%N] s s' Hok). Qed.

Lemma decrypt_encrypt_byte_order_mark {P : Platform} (key : AesKey P) (s s' : State P) :
  aead_correct P ->
  exists payload,
    encryptMessage key [65279%N; 104%N; 105%N] s
    = (set_entropyPos (entropyPos s + 12) s, inr payload) /\
    decryptMessage key payload s' = (s', inr [104%N; 105%N]).
Proof. intros Hok. exact (decrypt_encrypt key [65279%N; 104%N; 105%N] s s' Hok). Qed.

(** Witness of [encrypt_fresh_nonce]: two calls in a row on a random
    source that counts. *)
Lemma encrypt_fresh_nonce_witness :
  exists p1 p2 : Payload,
    encryptMessage (Toy.key x01) (lit "hi")
      (Toy.state [x03] Toy.counter)
    = (set_entropyPos 12 (Toy.state [x03] Toy.counter), inr p1) /\
    encryptMessage (Toy.key x01) (lit "hi")
      (set_entropyPos 12 (Toy.state [x03] Toy.counter))
    = (set_entropyPos 24 (Toy.state [x03] Toy.counter), inr p2) /\
    payload_iv p1 <> payload_iv p2 /\ payload_data p1 <> payload_data p2.
Proof.
  destruct (encrypt_fresh_nonce (Toy.key x01) (lit "hi")
              (Toy.state [x03] Toy.counter)
              (set_entropyPos 12 (Toy.state [x03] Toy.counter))
              ToyFacts.nonce_injective)
    as (p1 & p2 & H1 & H2 & _ & _ & _ & _ & _ & H3 & H4 & _).
  assert (Hne : draw 12 (Toy.state [x03] Toy.counter)
                <> draw 12 (set_entropyPos 12 (Toy.state [x03] Toy.counter))).
  { vm_compute. discriminate. }
  exists p1, p2. split; [exact H1|]. split; [exact H2|].
  split; [|exact (H4 Hne)].
  intros E. apply Hne. now apply H3.
Defined.

(** Counterexample to the claim (C8) as stated: on a random source that
    repeats itself, two calls in a row, the second in the state the
    first leaves, encrypt the text ["hi"] under one key with the same
    nonce, and give the same ciphertext. *)
Lemma nonce_reused_on_repeating_source :
  exists (p1 p2 : Payload) (s1 s2 : State Toy.platform),
    encryptMessage (Toy.key x01) (lit "hi") (Toy.state [x03] Toy.zeros) = (s1, inr p1) /\
    encryptMessage (Toy.key x01) (lit "hi") s1 = (s2, inr p2) /\
    entropyPos s1 = 12%nat /\ entropyPos s2 = 24%nat /\
    payload_iv p1 = payload_iv p2 /\ payload_data p1 = payload_data p2.
Proof.
  do 4 eexists. split; [apply encryptMessage_eq|]. split; [apply encryptMessage_eq|].
  split; [reflexivity|]. split; [reflexivity|]. split; vm_compute; reflexivity.
Qed.

(** ** The state and the monad *)

Section Monad.

Context {P : Platform}.

Lemma state_eta (s : State P) : set_trace (trace s) s = s.
Proof. now destruct s. Qed.

Lemma set_signalSeen_eta (s : State P) : set_signalSeen (signalSeen s) s = s.
Proof. now destruct s. Qed.

Lemma bind_ret {A B : Type} (a : A) (f : A -> M P B) (s : State P) :
  bind (ret a) f s = f a s.
Proof. reflexivity. Qed.

Lemma bind_throw {A B : Type} (e : Error) (f : A -> M P B) (s : State P) :
  bind (throw e) f s = (s, inl e).
Proof. reflexivity. Qed.

Lemma bind_get {B : Type} (f : State P -> M P B) (s : State P) :
  bind get f s = f s s.
Proof. reflexivity. Qed.

Lemma bind_modify {B : Type} (g : State P -> State P) (f : unit -> M P B) (s : State P) :
  bind (modify g) f s = f tt (g s).
Proof. reflexivity. Qed.

Lemma bind_assoc {A B C : Type} (m : M P A) (f : A -> M P B) (g : B -> M P C)
    (s : State P) :
  bind (bind m f) g s = bind m (fun a => bind (f a) g) s.
Proof. unfold bind. destruct (m s) as [s' [e|a]]; reflexivity. Qed.

Lemma exec_bind {A : Type} (m : M P A) (f : A -> M P unit) (s : State P) :
  exec (bind m f) s =
  match m s with
  | (s', inr a) => exec (f a) s'
  | (s', inl _) => s'
  end.
Proof. unfold exec, bind. destruct (m s) as [s' [e|a]]; reflexivity. Qed.

(** [p.catch(console.error)] never rejects. *)
Lemma catch_console_returns (m : M P unit) (s : State P) :
  catch_console m s = (exec (catch_console m) s, inr tt).
Proof.
  unfold exec, catch_console, try_catch.
  now destruct (m s) as [s' [e|[]]].
Qed.

(** A delivery to the subscription: the item is dropped when it has no
    type or its key was seen; otherwise the key is marked and the
    handler is called. *)
Lemma onSignal_eq (d : SignalData) (key : jsstring) (s : State P) :
  exec (catch_console (onSignal (Some d) key)) s =
  if negb (truthy (sig_type d)) || bool_decide (key ∈ signalSeen s) then s
  else exec (catch_console (handleSignal d))
         (set_trace (trace s ++ [HandleSignal key])
            (set_signalSeen ({[key]} ∪ signalSeen s) s)).
Proof.
  unfold exec, catch_console at 1, try_catch at 1, onSignal. rewrite bind_get.
  destruct (negb (truthy (sig_type d)) || bool_decide (key ∈ signalSeen s));
    [reflexivity|].
  rewrite bind_modify. unfold emit at 1. rewrite bind_modify.
  cbn [trace set_signalSeen].
  now rewrite catch_console_returns.
Qed.

End Monad.

(** ** Self-accept filtering *)

Section SelfSignal.

Context {P : Platform}.

(** (C9) A signaling event whose [from] is the local identifier is
    ignored: [handleSignal] returns at once and leaves the whole state
    as it was, so no session is created, no session changes and nothing
    is sent. Delivered through the subscription, such an event changes
    nothing but the set of seen keys, and the trace records at most the
    call of the handler. *)
Theorem self_signal_ignored (s : State P) (data : SignalData) (key : jsstring) :
  sig_from data = myId s ->
  handleSignal data s = (s, inr tt) /\
  exists seen tr,
    step s (Deliver (Some data) key) = set_trace tr (set_signalSeen seen s) /\
    (tr = trace s \/ tr = trace s ++ [HandleSignal key]).
Proof.
  intros Hself.
  assert (Hh : handleSignal data s = (s, inr tt)).
  { unfold handleSignal. rewrite bind_get. cbv zeta.
    rewrite Hself, bool_decide_eq_true_2 by reflexivity.
    now rewrite orb_true_r. }
  assert (Hh' : forall seen tr,
             handleSignal data (set_trace tr (set_signalSeen seen s))
             = (set_trace tr (set_signalSeen seen s), inr tt)).
  { intros seen tr. unfold handleSignal. rewrite bind_get. cbv zeta.
    cbn [myId set_trace set_signalSeen].
    rewrite Hself, bool_decide_eq_true_2 by reflexivity.
    now rewrite orb_true_r. }
  split; [exact Hh|].
  unfold step. destruct (room s).
  2:{ exists (signalSeen s), (trace s).
      rewrite set_signalSeen_eta, state_eta. auto. }
  rewrite onSignal_eq.
  destruct (negb (truthy (sig_type data)) || bool_decide (key ∈ signalSeen s)).
  - exists (signalSeen s), (trace s).
    rewrite set_signalSeen_eta, state_eta. auto.
  - unfold exec, catch_console, try_catch. rewrite Hh'. cbn [fst]. eauto.
Qed.

End SelfSignal.

(** Witness of [self_signal_ignored]: the party [3] of the small
    platform reads an offer that carries its own identifier. *)
Lemma self_signal_ignored_witness :
  let s := Toy.state [x03] Toy.zeros in
  let data := {| sig_type := lit "offer"; sig_from := myId s; sig_pub := [];
                 sig_sdp := lit "v=0"; sig_candidate := None |} in
  handleSignal data s = (s, inr tt) /\
  exists seen tr,
    step s (Deliver (Some data) (lit "k1")) = set_trace tr (set_signalSeen seen s) /\
    (tr = trace s \/ tr = trace s ++ [HandleSignal (lit "k1")]).
Proof.
  apply (self_signal_ignored (Toy.state [x03] Toy.zeros)
           {| sig_type := lit "offer"; sig_from := myId (Toy.state [x03] Toy.zeros);
              sig_pub := []; sig_sdp := lit "v=0"; sig_candidate := None |}
           (lit "k1")).
  reflexivity.
Defined.


(** ** Importing a seed *)

Section ImportSeed.

Context {P : Platform}.

(** (C3, amended) When the text to import, trimmed, is not empty and
    either does not decode or decodes to a private key that is not
    exactly 32 bytes, [importSeed] reports ['Некорректный seed'] and
    changes nothing else: the stored keys, the key pair in memory, the
    identifier and the public key text are those of before. When the
    trimmed text is empty the operation returns at once, reports nothing
    and changes nothing. *)
Theorem import_failure_keeps_identity (s : State P) :
  let seed := trim (importSeedInput_value (elements s)) in
  (truthy seed = false -> importSeed s = (s, inr tt)) /\
  (truthy seed = true -> malformed_seed seed ->
   importSeed s = (set_trace (trace s ++ [EAlert AlertBadSeed]) s, inr tt)).
Proof.
  cbv zeta. unfold importSeed. rewrite bind_get. cbv zeta.
  split; intros Hseed.
  - now rewrite Hseed.
  - intros Hbad. rewrite Hseed. cbn [negb].
    unfold malformed_seed in Hbad. unfold try_catch, bind.
    destruct (fromB64 (trim (importSeedInput_value (elements s)))) as [priv|];
      [|reflexivity].
    cbn [orThrow ret].
    apply Nat.eqb_neq in Hbad. now rewrite Hbad.
Qed.

End ImportSeed.

(** Witness of [import_failure_keeps_identity]: the text ["AAAA"], three
    bytes, on the small platform. *)
Lemma import_failure_keeps_identity_witness :
  let s := set_elements
             {| roomId_value := []; peerId_value := []; peerPub_value := [];
                messageInput_value := []; importSeedInput_value := lit " AAAA " |}
             (Toy.state [x03] Toy.zeros) in
  importSeed s = (set_trace (trace s ++ [EAlert AlertBadSeed]) s, inr tt).
Proof.
  cbv zeta.
  apply (import_failure_keeps_identity
           (set_elements
              {| roomId_value := []; peerId_value := []; peerPub_value := [];
                 messageInput_value := []; importSeedInput_value := lit " AAAA " |}
              (Toy.state [x03] Toy.zeros))).
  - reflexivity.
  - vm_compute. discriminate.
Defined.

(** Counterexample to the claim (C3) as stated: the empty text decodes
    to no byte at all, which is not 32 bytes, and [importSeed] reports
    nothing. *)
Lemma import_blank_is_silent :
  fromB64 (trim (importSeedInput_value (elements (Toy.state [x03] Toy.zeros)))) = Some []
  /\ importSeed (Toy.state [x03] Toy.zeros) = (Toy.state [x03] Toy.zeros, inr tt)
  /\ ~ In (EAlert AlertBadSeed) (trace (exec importSeed (Toy.state [x03] Toy.zeros))).
Proof. repeat split. now intros []. Qed.

(** ** Relations every handler preserves *)

Section Frame.

Context {P : Platform}.
Context (R : State P -> State P -> Prop) `{!PreOrder R}.

Lemma frame_ret {A : Type} (a : A) : frame R (ret a).
Proof. intros s. reflexivity. Qed.

Lemma frame_throw {A : Type} (e : Error) : frame R (throw (A := A) e).
Proof. intros s. reflexivity. Qed.

Lemma frame_get : frame R get.
Proof. intros s. reflexivity. Qed.

Lemma frame_orThrow {A : Type} (o : option A) (e : Error) : frame R (orThrow o e).
Proof. intros s. destruct o; reflexivity. Qed.

Lemma frame_bind {A B : Type} (m : M P A) (f : A -> M P B) :
  frame R m -> (forall a, frame R (f a)) -> frame R (bind m f).
Proof.
  intros Hm Hf s. unfold bind. specialize (Hm s).
  destruct (m s) as [s' [e|a]]; cbn [fst] in *; [assumption|].
  etransitivity; [eassumption|apply Hf].
Qed.

Lemma frame_try_catch {A : Type} (m : M P A) (h : Error -> M P A) :
  frame R m -> (forall e, frame R (h e)) -> frame R (try_catch m h).
Proof.
  intros Hm Hh s. unfold try_catch. specialize (Hm s).
  destruct (m s) as [s' [e|a]]; cbn [fst] in *; [|assumption].
  etransitivity; [eassumption|apply Hh].
Qed.

Lemma frame_modify (f : State P -> State P) :
  (forall s, R s (f s)) -> frame R (modify f).
Proof. intros Hf s. apply Hf. Qed.

Lemma frame_exec (m : M P unit) (s : State P) : frame R m -> R s (exec m s).
Proof. intros Hm. apply Hm. Qed.

End Frame.

Create HintDb handlers.

#[global] Hint Unfold generateKeyPair setIdentity deriveAesKey
  encryptMessage decryptMessage addMessage setStatus alert ensureRoom sendSignal
  createConnection handleSignal catch_console startConnection sendMessage
  exportSeed importSeed regenerate copyId onicecandidate onopen onmessage
  setItem removeItem connections_set joinRoom listenSignals
  resetSignals onSignal : handlers.

(** Walks through a computation: [leaf] closes the goals about the
    operations that change the state. *)
Ltac frame_walk leaf :=
  repeat first
    [ match goal with
      | |- PreOrder _ => typeclasses eauto
      | |- forall _, _ => intros ?
      end
    | leaf
    | apply frame_ret
    | apply frame_throw
    | apply frame_get
    | apply frame_orThrow
    | apply frame_bind
    | apply frame_try_catch
    | progress cbv zeta
    | match goal with
      | |- frame _ (if ?b then _ else _) => destruct b
      | |- frame _ (match ?x with _ => _ end) => destruct x
      end ].

(** ** Deduplication of signaling events *)

Section Dedup.

Context {P : Platform}.
Variable k : jsstring.

#[local] Instance same_seen_preorder : PreOrder (same_seen (P := P) k).
Proof.
  split.
  - intros s. now split.
  - intros s1 s2 s3 [H1 H2] [H3 H4]. split; congruence.
Qed.

Lemma handled_app (tr tr' : list Effect) :
  handled k (tr ++ tr') = (handled k tr + handled k tr')%nat.
Proof. unfold handled. now rewrite List.filter_app, length_app. Qed.

Lemma same_seen_emit (e : Effect) : is_handle k e = false -> frame (P := P) (same_seen k) (emit e).
Proof.
  intros He s. split; [reflexivity|].
  unfold emit, modify. cbn [fst trace set_trace].
  rewrite handled_app. unfold handled at 2. cbn [List.filter].
  rewrite He. cbn [length]. lia.
Qed.

Lemma same_seen_rtc (conn : nat) (call : RtcCall) : frame (P := P) (same_seen k) (rtc conn call).
Proof.
  intros s. unfold rtc, bind, get, orThrow.
  destruct (heap s !! conn); [|now split].
  cbn. destruct (rtc_accepts P (calls c) call); now split.
Qed.

Ltac same_seen_leaf :=
  first
    [ apply same_seen_rtc
    | apply same_seen_emit; reflexivity
    | intros ?; split; reflexivity
    | apply frame_modify; intros ?; split; reflexivity
    | intros ?; unfold set_readyState, modify; cbn [fst]; case_match;
      split; reflexivity ].

Lemma same_seen_handleSignal (data : SignalData) : frame (P := P) (same_seen k) (handleSignal data).
Proof. repeat autounfold with handlers. frame_walk same_seen_leaf. Qed.

(** Every input but a join and a delivery leaves the set of seen keys
    and the calls of the handler as they are. *)
Lemma same_seen_step (s : State P) (i : Input) :
  i <> ClickJoinRoom -> (forall data key, i <> Deliver data key) ->
  same_seen k s (step s i).
Proof.
  intros Hjoin Hdeliver.
  destruct i; cbn [step]; try (now split); try congruence;
    try (exfalso; eapply Hdeliver; reflexivity);
    apply frame_exec; repeat autounfold with handlers;
    frame_walk same_seen_leaf.
Qed.

(** A delivery calls the handler only for a key that was not seen, and
    then the key is seen. *)
Lemma deliver_step (s : State P) (data : option SignalData) (key : jsstring) :
  let s' := step s (Deliver data key) in
  same_seen k s s' \/
  ((key ∉ signalSeen s) /\ signalSeen s' = {[key]} ∪ signalSeen s /\
   handled k (trace s') = (handled k (trace s) + (if bool_decide (key = k) then 1 else 0))%nat).
Proof.
  cbv zeta. cbn [step]. destruct (room s); [|left; reflexivity].
  destruct data as [d|]; [|left; reflexivity].
  rewrite onSignal_eq.
  destruct (negb (truthy (sig_type d))); [left; reflexivity|]. cbn [orb].
  destruct (bool_decide (key ∈ signalSeen s)) eqn:Hseen; [left; reflexivity|].
  right. apply bool_decide_eq_false in Hseen. split; [assumption|].
  set (s1 := set_trace _ _).
  assert (H1 : same_seen k s1 (exec (catch_console (handleSignal d)) s1)).
  { apply frame_exec; repeat autounfold with handlers;
      frame_walk same_seen_leaf. }
  destruct H1 as [-> ->]. subst s1. cbn [signalSeen trace set_trace set_signalSeen].
  split; [reflexivity|]. rewrite handled_app. unfold handled at 2.
  cbn [List.filter is_handle]. now destruct (bool_decide (key = k)).
Qed.

(** Within an epoch: a seen key stays seen and is not handled again; a
    key that was not seen is handled at most once. *)
Lemma epoch_dedup (inputs : list Input) (s : State P) :
  Forall (fun i => i <> ClickJoinRoom) inputs ->
  let s' := run s inputs in
  signalSeen s ⊆ signalSeen s' /\
  (k ∈ signalSeen s -> handled k (trace s') = handled k (trace s)) /\
  (handled k (trace s') <= handled k (trace s) + 1)%nat.
Proof.
  intros Hin. revert s. induction Hin as [|i inputs Hi _ IH]; intros s.
  - cbn. split; [reflexivity|]. split; [reflexivity|lia].
  - cbv zeta. cbn [run fold_left]. specialize (IH (step s i)).
    cbv zeta in IH. fold (run (step s i) inputs) in *.
    destruct IH as (IH1 & IH2 & IH3).
    assert (Hstep : same_seen k s (step s i) \/
              exists key, i = Deliver (snd key) (fst key) /\ (fst key ∉ signalSeen s) /\
                signalSeen (step s i) = {[fst key]} ∪ signalSeen s /\
                handled k (trace (step s i)) =
                (handled k (trace s) + (if bool_decide (fst key = k) then 1 else 0))%nat).
    { assert (Hcase : (exists data key, i = Deliver data key) \/
                       (forall data key, i <> Deliver data key)).
      { destruct i; try (right; discriminate). left; eauto. }
      destruct Hcase as [(data & key & ->)|Hn].
      - destruct (deliver_step s data key) as [H|H]; [now left|].
        right. exists (key, data). cbn [fst snd]. now split.
      - left. now apply same_seen_step. }
    destruct Hstep as [[H1 H2]|((key & data) & -> & Hnew & H1 & H2)];
      cbn [fst snd] in *.
    + rewrite H1 in IH1, IH2. rewrite H2 in IH2, IH3. auto.
    + rewrite H1 in IH1, IH2. rewrite H2 in IH2, IH3.
      split; [etransitivity; [apply union_subseteq_r|exact IH1]|].
      case_bool_decide as Hk.
      * subst key. split; [intros Hk; contradiction|].
        rewrite IH2 by (apply elem_of_union_l, elem_of_singleton; reflexivity).
        lia.
      * split; [|lia]. intros Hk'.
        rewrite IH2 by (apply elem_of_union_r; assumption). lia.
Qed.

End Dedup.

(** (C4) Within one room-membership epoch, that is over any inputs
    among which the party does not join a room, the handler is called at
    most once for the items that carry one key, and not at all for a
    key that was seen before; and every join of a room, the first or a
    later one, empties the set of seen keys, so the guarantee covers the
    current epoch only. *)
Theorem dedup_once_per_epoch {P : Platform} (s : State P) (k : jsstring)
    (inputs : list Input) :
  Forall (fun i => i <> ClickJoinRoom) inputs ->
  (handled k (trace (run s inputs)) <= handled k (trace s) + 1)%nat /\
  (k ∈ signalSeen s -> handled k (trace (run s inputs)) = handled k (trace s)) /\
  (forall s0 : State P, truthy (trim (roomId_value (elements s0))) = true ->
     signalSeen (step s0 ClickJoinRoom) = ∅).
Proof.
  intros Hin. destruct (epoch_dedup k inputs s Hin) as (_ & H1 & H2).
  split; [exact H2|]. split; [exact H1|].
  intros s0 Hroom. cbn [step]. unfold exec, catch_console, try_catch, joinRoom.
  rewrite bind_get. cbv zeta. rewrite Hroom. cbn [negb].
  rewrite bind_modify. unfold listenSignals. rewrite bind_assoc, bind_get.
  cbn [room set_room]. reflexivity.
Qed.

(** Witness of [dedup_once_per_epoch]: on the small platform the party
    joins the room ["r1"], and the item ["k1"] arrives twice. *)
Lemma dedup_once_per_epoch_witness :
  let ice := {| sig_type := lit "ice"; sig_from := lit "b1"; sig_pub := [];
                sig_sdp := []; sig_candidate := Some (lit "candidate") |} in
  let s := step (set_elements
                   {| roomId_value := lit "r1"; peerId_value := [];
                      peerPub_value := []; messageInput_value := [];
                      importSeedInput_value := [] |}
                   (Toy.state [x03] Toy.zeros)) ClickJoinRoom in
  let inputs := [Deliver (Some ice) (lit "k1"); ChannelOpen 0;
                 Deliver (Some ice) (lit "k1")] in
  handled (lit "k1") (trace (run s inputs)) = 1%nat /\
  (handled (lit "k1") (trace (run s inputs)) <= handled (lit "k1") (trace s) + 1)%nat.
Proof.
  cbv zeta. split; [vm_compute; reflexivity|].
  apply (dedup_once_per_epoch
           (step (set_elements
                    {| roomId_value := lit "r1"; peerId_value := [];
                       peerPub_value := []; messageInput_value := [];
                       importSeedInput_value := [] |}
                    (Toy.state [x03] Toy.zeros)) ClickJoinRoom)
           (lit "k1")
           [Deliver (Some {| sig_type := lit "ice"; sig_from := lit "b1";
                             sig_pub := []; sig_sdp := [];
                             sig_candidate := Some (lit "candidate") |}) (lit "k1");
            ChannelOpen 0;
            Deliver (Some {| sig_type := lit "ice"; sig_from := lit "b1";
                             sig_pub := []; sig_sdp := [];
                             sig_candidate := Some (lit "candidate") |}) (lit "k1")]).
  repeat constructor; discriminate.
Defined.

(** After a second join the same key is handled again. *)
Example rejoin_handles_again :
  let ice := {| sig_type := lit "ice"; sig_from := lit "b1"; sig_pub := [];
                sig_sdp := []; sig_candidate := Some (lit "candidate") |} in
  let s := set_elements
             {| roomId_value := lit "r1"; peerId_value := [];
                peerPub_value := []; messageInput_value := [];
                importSeedInput_value := [] |}
             (Toy.state [x03] Toy.zeros) in
  handled (lit "k1")
    (trace (run s [ClickJoinRoom; Deliver (Some ice) (lit "k1"); ClickJoinRoom;
                   Deliver (Some ice) (lit "k1")])) = 2%nat.
Proof. vm_compute. reflexivity. Qed.

(** ** Sessions *)

Section Sessions.

Context {P : Platform}.

#[local] Instance keys_fixed_preorder : PreOrder (keys_fixed (P := P)).
Proof.
  split.
  - intros s r c H. eauto.
  - intros s1 s2 s3 H12 H23 r c H.
    destruct (H12 r c H) as (c2 & H2 & Hk2 & Hp2).
    destruct (H23 r c2 H2) as (c3 & H3 & Hk3 & Hp3).
    exists c3. repeat split; congruence.
Qed.

#[local] Instance same_sessions_preorder : PreOrder (same_sessions (P := P)).
Proof.
  split.
  - intros s. now split.
  - intros s1 s2 s3 [H1 H2] [H3 H4]. split; congruence.
Qed.

Lemma rtc_eq (conn : nat) (call : RtcCall) (s : State P) :
  rtc conn call s =
  match heap s !! conn with
  | None => (s, inl TypeError)
  | Some c =>
      (set_heap (<[conn := {| conn_peerId := conn_peerId c;
                              calls := calls c ++ [call];
                              readyState := readyState c;
                              aesKey := aesKey c |}]> (heap s)) s,
       if rtc_accepts P (calls c) call then inr (rtc_sdp P (calls c))
       else inl TransportError)
  end.
Proof.
  unfold rtc. rewrite bind_get. unfold bind at 1.
  destruct (heap s !! conn) as [c|]; [|reflexivity].
  cbn [orThrow ret]. rewrite bind_modify.
  now destruct (rtc_accepts P (calls c) call).
Qed.

Lemma keys_fixed_same_heap {A : Type} (m : M P A) :
  (forall s, heap (fst (m s)) = heap s) -> frame (P := P) keys_fixed m.
Proof. intros H s r c Hr. exists c. rewrite H. auto. Qed.

Lemma keys_fixed_rtc (conn : nat) (call : RtcCall) : frame (P := P) keys_fixed (rtc conn call).
Proof.
  intros s r c Hr. rewrite rtc_eq.
  destruct (heap s !! conn) as [c0|] eqn:Hc; cbn [fst heap set_heap]; [|eauto].
  destruct (decide (r = conn)) as [->|Hne].
  - rewrite lookup_insert_eq. eexists. split; [reflexivity|].
    cbn. split; congruence.
  - rewrite lookup_insert_ne by congruence. eauto.
Qed.

Lemma keys_fixed_alloc (c : Conn P) : frame (P := P) keys_fixed (alloc c).
Proof.
  intros s r c0 Hr. cbn [alloc fst heap set_heap].
  rewrite lookup_insert_ne; [eauto|].
  intros <-. apply (is_fresh (dom (heap s))).
  apply elem_of_dom. eauto.
Qed.

Lemma keys_fixed_set_readyState (conn : nat) (st : ReadyState) :
  frame (P := P) keys_fixed (set_readyState conn st).
Proof.
  intros s r c Hr. unfold set_readyState, modify. cbn [fst].
  destruct (heap s !! conn) as [c0|] eqn:Hc; [|eauto]. cbn [heap set_heap].
  destruct (decide (r = conn)) as [->|Hne].
  - rewrite lookup_insert_eq. eexists. split; [reflexivity|].
    cbn. split; congruence.
  - rewrite lookup_insert_ne by congruence. eauto.
Qed.

Lemma same_sessions_same {A : Type} (m : M P A) :
  (forall s, connections (fst (m s)) = connections s /\ heap (fst (m s)) = heap s) ->
  frame (P := P) same_sessions m.
Proof. intros H s. destruct (H s) as [H1 H2]. split; congruence. Qed.

Lemma dom_insert_present (h : gmap nat (Conn P)) (r : nat) (c c' : Conn P) :
  h !! r = Some c -> dom (<[r := c']> h) = dom h.
Proof.
  intros H. rewrite dom_insert_L.
  assert (Hr : r ∈ dom h) by (apply elem_of_dom; eauto).
  apply set_eq. intros x. rewrite elem_of_union, elem_of_singleton.
  split; [intros [->|]; assumption|auto].
Qed.

Lemma same_sessions_rtc (conn : nat) (call : RtcCall) :
  frame (P := P) same_sessions (rtc conn call).
Proof.
  intros s. rewrite rtc_eq.
  destruct (heap s !! conn) as [c0|] eqn:Hc; cbn [fst]; [|reflexivity].
  split; [reflexivity|]. cbn [heap set_heap]. eapply dom_insert_present; eauto.
Qed.

Lemma same_sessions_set_readyState (conn : nat) (st : ReadyState) :
  frame (P := P) same_sessions (set_readyState conn st).
Proof.
  intros s. unfold set_readyState, modify. cbn [fst].
  destruct (heap s !! conn) as [c0|] eqn:Hc; [|reflexivity].
  split; [reflexivity|]. cbn [heap set_heap]. eapply dom_insert_present; eauto.
Qed.

End Sessions.

Ltac keys_leaf :=
  first
    [ apply keys_fixed_rtc
    | apply keys_fixed_alloc
    | apply keys_fixed_set_readyState
    | apply keys_fixed_same_heap; intros ?; reflexivity ].

Ltac sessions_leaf :=
  first
    [ apply same_sessions_rtc
    | apply same_sessions_set_readyState
    | apply same_sessions_same; intros ?; split; reflexivity ].

Section SessionFacts.

Context {P : Platform}.

#[local] Existing Instance keys_fixed_preorder.
#[local] Existing Instance same_sessions_preorder.

(** No input removes a connection object or changes its key. *)
Lemma keys_fixed_step (s : State P) (i : Input) : keys_fixed s (step s i).
Proof.
  destruct i; cbn [step]; try (intros r c H; exists c; now auto);
    try (destruct (room s); [|reflexivity]);
    apply frame_exec; repeat autounfold with handlers; frame_walk keys_leaf.
Qed.

Lemma same_sessions_signal_actions (data : SignalData) (conn : nat) :
  frame (P := P) same_sessions (signal_actions data conn).
Proof.
  unfold signal_actions. repeat autounfold with handlers.
  frame_walk sessions_leaf.
Qed.

Lemma keys_fixed_signal_actions (data : SignalData) (conn : nat) :
  frame (P := P) keys_fixed (signal_actions data conn).
Proof.
  unfold signal_actions. repeat autounfold with handlers.
  frame_walk keys_leaf.
Qed.

Lemma deriveAesKey_state (peerPubB64 saltText : jsstring) (s : State P) :
  deriveAesKey peerPubB64 saltText s = (s, snd (deriveAesKey peerPubB64 saltText s)).
Proof.
  unfold deriveAesKey, bind, get, orThrow, ret, throw.
  destruct (fromB64 peerPubB64); [|reflexivity]. cbv beta iota.
  destruct (myKeyPair s) as [me|]; [|reflexivity]. cbv beta iota.
  now destruct (getSharedSecret P (priv me) _).
Qed.

(** [createConnection] either fails and leaves the state as it was, or
    adds one new object whose key is [session_key]. *)
Lemma createConnection_eq (peerId peerPubB64 : jsstring) (s : State P) :
  createConnection peerId peerPubB64 s =
  match session_key peerPubB64 s with
  | inl e => (s, inl e)
  | inr key =>
      (set_heap (<[fresh (dom (heap s)) := new_conn peerId key]> (heap s)) s,
       inr (fresh (dom (heap s))))
  end.
Proof.
  unfold createConnection, session_key. rewrite bind_get. cbv zeta.
  destruct (truthy peerPubB64); [|reflexivity].
  unfold bind. rewrite deriveAesKey_state.
  now destruct (snd (deriveAesKey peerPubB64 (roomSalt s) s)).
Qed.

Lemma handleSignal_split (data : SignalData) :
  handleSignal (P := P) data =
  (s <- get ;;
   if negb (truthy (sig_from data)) || bool_decide (sig_from data = myId s)
   then ret tt
   else
     conn <- match map_get (connections s) (sig_from data) with
             | Some conn => ret conn
             | None =>
                 conn <- createConnection (sig_from data) (sig_pub data) ;;
                 connections_set (sig_from data) conn ;;;
                 ret conn
             end ;;
     signal_actions data conn).
Proof. reflexivity. Qed.

(** [handleSignal] for a sender that has no session: nothing happens
    when the key derivation fails; otherwise the new object is recorded
    for the sender and the event is applied to it. *)
Lemma handleSignal_unknown (data : SignalData) (s : State P) :
  negb (truthy (sig_from data)) || bool_decide (sig_from data = myId s) = false ->
  map_get (connections s) (sig_from data) = None ->
  handleSignal data s =
  match session_key (sig_pub data) s with
  | inl e => (s, inl e)
  | inr key =>
      signal_actions data (fresh (dom (heap s)))
        (set_connections
           (map_set (connections s) (sig_from data) (fresh (dom (heap s))))
           (set_heap (<[fresh (dom (heap s)) := new_conn (sig_from data) key]> (heap s)) s))
  end.
Proof.
  intros Hguard Hget. rewrite handleSignal_split, bind_get, Hguard, Hget.
  rewrite bind_assoc. unfold bind at 1. rewrite createConnection_eq.
  destruct (session_key (sig_pub data) s) as [e|key]; [reflexivity|].
  unfold connections_set. now rewrite bind_assoc, bind_modify, bind_ret.
Qed.

Lemma handleSignal_known (data : SignalData) (s : State P) (conn : nat) :
  negb (truthy (sig_from data)) || bool_decide (sig_from data = myId s) = false ->
  map_get (connections s) (sig_from data) = Some conn ->
  handleSignal data s = signal_actions data conn s.
Proof.
  intros Hguard Hget. now rewrite handleSignal_split, bind_get, Hguard, Hget, bind_ret.
Qed.

Lemma handleSignal_guard (data : SignalData) (s : State P) :
  negb (truthy (sig_from data)) || bool_decide (sig_from data = myId s) = true ->
  handleSignal data s = (s, inr tt).
Proof. intros Hguard. now rewrite handleSignal_split, bind_get, Hguard. Qed.

Lemma map_set_absent {V : Type} (m : list (jsstring * V)) (k : jsstring) (v : V) :
  map_get m k = None -> map_set m k v = m ++ [(k, v)].
Proof.
  induction m as [|[k' v'] m IH]; cbn; [reflexivity|].
  destruct (decide (k' = k)); [discriminate|]. intros H. now rewrite IH.
Qed.

Lemma map_get_set_other {V : Type} (m : list (jsstring * V)) (k k' : jsstring) (v : V) :
  k <> k' -> map_get (map_set m k v) k' = map_get m k'.
Proof.
  intros Hne. induction m as [|[k0 v0] m IH]; cbn.
  - destruct (decide (k = k')); [contradiction|reflexivity].
  - destruct (decide (k0 = k)) as [->|]; cbn.
    + destruct (decide (k = k')); [contradiction|reflexivity].
    + destruct (decide (k0 = k')); [reflexivity|assumption].
Qed.

Lemma map_get_set_same {V : Type} (m : list (jsstring * V)) (k : jsstring) (v : V) :
  map_get (map_set m k v) k = Some v.
Proof.
  induction m as [|[k0 v0] m IH]; cbn.
  - destruct (decide (k = k)); [reflexivity|contradiction].
  - destruct (decide (k0 = k)) as [->|Hne]; cbn.
    + destruct (decide (k = k)); [reflexivity|contradiction].
    + destruct (decide (k0 = k)); [contradiction|assumption].
Qed.

End SessionFacts.

Section SessionClaims.

Context {P : Platform}.

#[local] Existing Instance keys_fixed_preorder.
#[local] Existing Instance same_sessions_preorder.

Lemma guard_false (data : SignalData) (s : State P) :
  truthy (sig_from data) = true -> sig_from data <> myId s ->
  negb (truthy (sig_from data)) || bool_decide (sig_from data = myId s) = false.
Proof. intros -> Hne. now rewrite bool_decide_eq_false_2. Qed.

(** (C2, amended) An [ice] event whose sender, not empty and not the
    local identifier, has no session: when the event carries a public
    key for which the key derivation fails, the handler fails and the
    state is as before; otherwise a new session is created and recorded
    for the sender, after the sessions already there, with the key
    derived from the event's public key or with no key, and the
    candidate, when there is one, is passed to the transport of the new
    session. *)
Theorem ice_from_unknown_sender (s : State P) (data : SignalData) :
  sig_type data = lit "ice" ->
  map_get (connections s) (sig_from data) = None ->
  truthy (sig_from data) = true -> sig_from data <> myId s ->
  match session_key (sig_pub data) s with
  | inl e => handleSignal data s = (s, inl e)
  | inr key =>
      heap s !! fresh (dom (heap s)) = None /\
      connections (exec (handleSignal data) s)
      = connections s ++ [(sig_from data, fresh (dom (heap s)))] /\
      heap (exec (handleSignal data) s) !! fresh (dom (heap s))
      = Some {| conn_peerId := sig_from data;
                calls := CreateDataChannel ::
                         match sig_candidate data with
                         | Some candidate => [AddIceCandidate candidate]
                         | None => []
                         end;
                readyState := Connecting;
                aesKey := key |}
  end.
Proof.
  intros Htype Hget Hfrom Hself. unfold exec.
  rewrite (handleSignal_unknown data s (guard_false data s Hfrom Hself) Hget).
  destruct (session_key (sig_pub data) s) as [e|key]; [reflexivity|].
  assert (Hfresh : heap s !! fresh (dom (heap s)) = None).
  { apply not_elem_of_dom, is_fresh. }
  split; [exact Hfresh|].
  unfold signal_actions. cbv zeta. rewrite Htype.
  change (bool_decide (lit "ice" = lit "offer")) with false.
  change (bool_decide (lit "ice" = lit "answer")) with false.
  change (bool_decide (lit "ice" = lit "ice")) with true.
  cbv beta iota. rewrite !bind_ret.
  rewrite (map_set_absent _ _ _ Hget).
  destruct (sig_candidate data) as [candidate|].
  - unfold bind. rewrite rtc_eq. cbn [heap set_heap set_connections].
    rewrite lookup_insert_eq.
    destruct (rtc_accepts P _ _);
      cbn [ret fst connections set_heap set_connections heap];
      (split; [reflexivity|]); now rewrite lookup_insert_eq.
  - cbn [ret fst connections set_connections heap set_heap].
    split; [reflexivity|]. now rewrite lookup_insert_eq.
Qed.

(** Every input but a start of a connection and a delivery changes no
    session. *)
Lemma same_sessions_step (s : State P) (i : Input) :
  i <> ClickStartConnection -> (forall data key, i <> Deliver data key) ->
  same_sessions s (step s i).
Proof.
  intros Hstart Hdeliver.
  destruct i; cbn [step]; try (now split); try congruence;
    try (exfalso; eapply Hdeliver; reflexivity);
    apply frame_exec; repeat autounfold with handlers;
    frame_walk sessions_leaf.
Qed.

Lemma catch_console_connections (m : M P unit) (s : State P) :
  connections (exec (catch_console m) s) = connections (exec m s) /\
  heap (exec (catch_console m) s) = heap (exec m s).
Proof.
  unfold exec, catch_console, try_catch.
  now destruct (m s) as [s' [e|[]]].
Qed.

Lemma keys_fixed_run (inputs : list Input) (s : State P) : keys_fixed s (run s inputs).
Proof.
  revert s. induction inputs as [|i inputs IH]; intros s; [reflexivity|].
  cbn [run fold_left]. etransitivity; [apply keys_fixed_step|apply IH].
Qed.

End SessionClaims.

(** Witness of [ice_from_unknown_sender]: the event of ["b1"] reaches a
    party that has no session. *)
Lemma ice_from_unknown_sender_witness :
  match session_key (sig_pub Toy.ice_from_b1) (Toy.state [x03] Toy.zeros) with
  | inl e => handleSignal Toy.ice_from_b1 (Toy.state [x03] Toy.zeros)
             = (Toy.state [x03] Toy.zeros, inl e)
  | inr key =>
      heap (Toy.state [x03] Toy.zeros) !! fresh (dom (heap (Toy.state [x03] Toy.zeros)))
      = None /\
      connections (exec (handleSignal Toy.ice_from_b1) (Toy.state [x03] Toy.zeros))
      = connections (Toy.state [x03] Toy.zeros)
        ++ [(sig_from Toy.ice_from_b1, fresh (dom (heap (Toy.state [x03] Toy.zeros))))] /\
      heap (exec (handleSignal Toy.ice_from_b1) (Toy.state [x03] Toy.zeros))
        !! fresh (dom (heap (Toy.state [x03] Toy.zeros)))
      = Some {| conn_peerId := sig_from Toy.ice_from_b1;
                calls := CreateDataChannel ::
                         match sig_candidate Toy.ice_from_b1 with
                         | Some candidate => [AddIceCandidate candidate]
                         | None => []
                         end;
                readyState := Connecting;
                aesKey := key |}
  end.
Proof.
  apply (ice_from_unknown_sender (Toy.state [x03] Toy.zeros) Toy.ice_from_b1);
    [reflexivity | reflexivity | reflexivity | vm_compute; discriminate].
Defined.

(** Counterexample to the claim (C2) as stated: the party has no
    session for ["b1"]; after the [ice] event of ["b1"] the connections
    map holds one. *)
Lemma ice_event_creates_session :
  connections (Toy.state [x03] Toy.zeros) = [] /\
  connections (exec (handleSignal Toy.ice_from_b1) (Toy.state [x03] Toy.zeros))
  = [(lit "b1", 0%nat)] /\
  heap (exec (handleSignal Toy.ice_from_b1) (Toy.state [x03] Toy.zeros)) !! 0%nat
  = Some {| conn_peerId := lit "b1";
            calls := [CreateDataChannel; AddIceCandidate (lit "candidate")];
            readyState := Connecting; aesKey := None |}.
Proof.
  split; [vm_compute; reflexivity|]. split; vm_compute; reflexivity.
Qed.

(** ** A conversation *)

(** On the small platform [bob] connects to [alice] with her public
    key; [alice] reads the offer and answers; both hold the same session
    key; [alice] sends ["hi"] and [bob] reads exactly ["hi"]. *)
Example conversation :
  option_map aesKey (heap Toy.alice_answers !! 0%nat)
  = option_map aesKey (heap Toy.bob_connected !! 0%nat)
  /\ trace Toy.bob_receives
     = trace Toy.bob_connected
       ++ [EAddMessage (Peer (myId Toy.alice)) (Text (lit "hi"))].
Proof. split; vm_compute; reflexivity. Qed.

(** ** Handlers that overlap *)

#[global] Hint Unfold Async.finished Async.await Async.createConnection_begin
  Async.createConnection_end Async.handleSignal_ice Async.handleSignal_answer
  Async.handleSignal_offer Async.handleSignal_begin Async.onSignal_begin
  Async.startConnection_begin Async.sendMessage_begin Async.regenerate_begin
  Async.onmessage_begin Async.resume Async.start : handlers.

Section Overlapping.

Context {P : Platform}.

#[local] Existing Instance keys_fixed_preorder.







(** *** The two parts of [createConnection] *)

Lemma createConnection_begin_eq (peerId peerPubB64 : jsstring)
    (deriving : AesKey P -> Async.Task P) (created : nat -> Async.Task P) (s : State P) :
  Async.createConnection_begin peerId peerPubB64 deriving created s =
  match session_key peerPubB64 s with
  | inl e => (s, inl e)
  | inr (Some k) => (s, inr (Some (deriving k)))
  | inr None =>
      (set_heap (<[fresh (dom (heap s)) := new_conn peerId None]> (heap s)) s,
       inr (Some (created (fresh (dom (heap s))))))
  end.
Proof.
  unfold Async.createConnection_begin, session_key. rewrite bind_get. cbv zeta.
  destruct (truthy peerPubB64); [|reflexivity].
  unfold bind. rewrite deriveAesKey_state.
  now destruct (snd (deriveAesKey peerPubB64 (roomSalt s) s)).
Qed.

Lemma createConnection_end_eq (peerId : jsstring) (k : AesKey P)
    (created : nat -> Async.Task P) (s : State P) :
  Async.createConnection_end peerId k created s =
  (set_heap (<[fresh (dom (heap s)) := new_conn peerId (Some k)]> (heap s)) s,
   inr (Some (created (fresh (dom (heap s)))))).
Proof. reflexivity. Qed.

(** *** What a part of a handler leaves suspended *)





End Overlapping.


Section Bindings.

Context {P : Platform}.

#[local] Instance same_connections_preorder : PreOrder (Async.same_connections (P := P)).
Proof.
  split.
  - intros s. reflexivity.
  - intros s1 s2 s3 H1 H2. unfold Async.same_connections in *. congruence.
Qed.

Lemma same_connections_same {A : Type} (m : M P A) :
  (forall s, connections (fst (m s)) = connections s) ->
  frame (P := P) Async.same_connections m.
Proof. intros H s. apply H. Qed.

Lemma same_connections_rtc (conn : nat) (call : RtcCall) :
  frame (P := P) Async.same_connections (rtc conn call).
Proof.
  intros s. rewrite rtc_eq. now destruct (heap s !! conn).
Qed.

Lemma same_connections_sync (i : Input) :
  i <> ClickStartConnection -> (forall data key, i <> Deliver data key) ->
  frame (P := P) Async.same_connections (modify (fun s => step s i)).
Proof.
  intros H1 H2 s. unfold Async.same_connections, modify. cbn [fst].
  now destruct (same_sessions_step s i H1 H2) as [-> _].
Qed.

End Bindings.

Ltac connections_leaf :=
  first
    [ apply same_connections_rtc
    | apply same_connections_sync; [discriminate|discriminate]
    | apply same_connections_same; intros ?; reflexivity
    | intros ?; unfold set_readyState, modify; cbn [fst]; case_match; reflexivity ].

Section BindingFacts.

Context {P : Platform}.

#[local] Existing Instance same_connections_preorder.


Lemma same_connections_handleSignal_offer (data : SignalData) (conn : nat) :
  frame (P := P) Async.same_connections (Async.handleSignal_offer data conn).
Proof. repeat autounfold with handlers. frame_walk connections_leaf. Qed.

(** The rest of a handler records a session only after the [await] of
    [createConnection], and then the object of that call for the peer of
    that call. *)
Lemma resume_connections (t : Async.Task P) (s : State P) :
  connections (fst (Async.resume t s)) =
  match t with
  | Async.SignalCreated data conn => map_set (connections s) (sig_from data) conn
  | Async.StartCreated peerId conn => map_set (connections s) peerId conn
  | _ => connections s
  end.
Proof.
  destruct t; cbn [Async.resume];
    try solve [ revert s;
                match goal with
                | |- forall s, connections (fst (?m s)) = _ =>
                    change (frame Async.same_connections m)
                end;
                repeat autounfold with handlers; frame_walk connections_leaf ].
  - unfold connections_set. rewrite bind_modify.
    now rewrite (same_connections_handleSignal_offer data conn).
  - unfold connections_set. rewrite bind_modify.
    match goal with |- connections (fst (?m ?s1)) = _ =>
      assert (H : frame Async.same_connections m)
        by (repeat autounfold with handlers; frame_walk connections_leaf);
      now rewrite (H s1)
    end.
Qed.








End BindingFacts.

(** *** The run without overlap is a schedule *)

Section Atomic.
Context {P : Platform}.

Lemma turns_cons (w : Async.World P) (e : Async.Event) (events : list Async.Event) :
  Async.turns w (e :: events) = Async.turns (Async.turn w e) events.
Proof. reflexivity. Qed.

Lemma turns_app (w : Async.World P) (events events' : list Async.Event) :
  Async.turns w (events ++ events') = Async.turns (Async.turns w events) events'.
Proof. apply fold_left_app. Qed.

Lemma turns_idle (s : State P) (k : nat) :
  Async.turns (Async.idle s) (repeat (Async.Resumes 0) k) = Async.idle s.
Proof. induction k as [|k IH]; [reflexivity|exact IH]. Qed.

Lemma turns_alone (k : nat) (r : State P * (Error + option (Async.Task P))) :
  Async.turns (Async.settle [] r) (repeat (Async.Resumes 0) k) = Async.alone k r.
Proof.
  revert r. induction k as [|k IH]; intros r; [reflexivity|].
  destruct r as [s [e|[t|]]]; cbn [Async.alone repeat Async.turns fold_left].
  - apply IH.
  - apply IH.
  - apply turns_idle.
Qed.

Lemma alone_done (k : nat) (s : State P) : Async.alone k (s, inr None) = Async.idle s.
Proof. now destruct k. Qed.

Lemma alone_suspended (k : nat) (s : State P) (t : Async.Task P) :
  Async.alone (S k) (s, inr (Some t)) = Async.alone k (Async.resume t s).
Proof. reflexivity. Qed.

Lemma alone_rejected (k : nat) (s : State P) (e : Error) :
  Async.alone (S k) (s, inl e)
  = Async.idle (set_trace (trace s ++ [EConsoleError e]) s).
Proof. cbn [Async.alone]. apply alone_done. Qed.

Lemma bind_ext {A B : Type} (m : M P A) (f g : A -> M P B) (s : State P) :
  (forall a s', f a s' = g a s') -> bind m f s = bind m g s.
Proof. intros H. unfold bind. destruct (m s) as [s' [e|a]]; [reflexivity|apply H]. Qed.

Lemma exec_catch_ext (m m' : M P unit) (s : State P) :
  m s = m' s -> exec (catch_console m) s = exec (catch_console m') s.
Proof. unfold exec, catch_console, try_catch. now intros ->. Qed.

Lemma lock_bind {A : Type} (k : nat) (m : M P A) (f : A -> M P (option (Async.Task P)))
    (f' : A -> M P unit) (s : State P) :
  (forall a s', Async.alone (S k) (f a s') = Async.idle (exec (catch_console (f' a)) s')) ->
  Async.alone (S k) (bind m f s) = Async.idle (exec (catch_console (bind m f')) s).
Proof.
  intros H. unfold bind at 1. unfold exec at 1, catch_console at 1, try_catch at 1, bind at 1.
  destruct (m s) as [s' [e|a]].
  - apply alone_rejected.
  - rewrite H. reflexivity.
Qed.

Lemma lock_await (k : nat) (t : Async.Task P) (m' : M P unit) (s : State P) :
  Async.alone k (Async.resume t s) = Async.idle (exec (catch_console m') s) ->
  Async.alone (S k) (Async.await t s) = Async.idle (exec (catch_console m') s).
Proof. intros H. exact H. Qed.

Lemma lock_finished (k : nat) (s : State P) :
  Async.alone k (Async.finished s) = Async.idle (exec (catch_console (ret tt)) s).
Proof. apply alone_done. Qed.

Lemma lock_assoc {A B : Type} (k : nat) (l : M P (option (Async.Task P)))
    (m : M P A) (f : A -> M P B) (g : B -> M P unit) (s : State P) :
  Async.alone k (l s) = Async.idle (exec (catch_console (bind m (fun a => bind (f a) g))) s) ->
  Async.alone k (l s) = Async.idle (exec (catch_console (bind (bind m f) g)) s).
Proof.
  intros ->. f_equal. apply exec_catch_ext. symmetry. apply bind_assoc.
Qed.

Lemma lock_get (k : nat) (l : M P (option (Async.Task P)))
    (f : State P -> M P unit) (s : State P) :
  Async.alone k (l s) = Async.idle (exec (catch_console (f s)) s) ->
  Async.alone k (l s) = Async.idle (exec (catch_console (bind get f)) s).
Proof. intros ->. reflexivity. Qed.

Lemma lock_ret_unit (k : nat) (l : M P (option (Async.Task P)))
    (g : unit -> M P unit) (s : State P) :
  Async.alone k (l s) = Async.idle (exec (catch_console (g tt)) s) ->
  Async.alone k (l s) = Async.idle (exec (catch_console (bind (ret tt) g)) s).
Proof. intros ->. reflexivity. Qed.

Lemma lock_bind_ret (k : nat) (l : M P (option (Async.Task P)))
    (m : M P unit) (s : State P) :
  Async.alone k (l s) = Async.idle (exec (catch_console (bind m (fun _ => ret tt))) s) ->
  Async.alone k (l s) = Async.idle (exec (catch_console m) s).
Proof.
  intros ->. f_equal. apply exec_catch_ext. unfold bind, ret.
  now destruct (m s) as [s' [e|[]]].
Qed.

Lemma lock_ice (k : nat) (data : SignalData) (conn : nat) (s : State P) :
  Async.alone (S k) (Async.handleSignal_ice data conn s) =
  Async.idle
    (exec (catch_console
             (if bool_decide (sig_type data = lit "ice") then
                match sig_candidate data with
                | Some candidate => rtc conn (AddIceCandidate candidate) ;;; ret tt
                | None => ret tt
                end
              else ret tt)) s).
Proof.
  unfold Async.handleSignal_ice.
  destruct (bool_decide _); [|apply lock_finished].
  destruct (sig_candidate data); [|apply lock_finished].
  apply lock_bind. intros _ s'. apply lock_await. apply lock_finished.
Qed.

Lemma lock_answer (k : nat) (data : SignalData) (conn : nat) (s : State P) :
  Async.alone (S (S k)) (Async.handleSignal_answer data conn s) =
  Async.idle
    (exec (catch_console
             ((if bool_decide (sig_type data = lit "answer") then
                 rtc conn (SetRemoteDescription SdpAnswer (sig_sdp data)) ;;;
                 setStatus (StatusEstablished (sig_from data))
               else ret tt) ;;;
              (if bool_decide (sig_type data = lit "ice") then
                 match sig_candidate data with
                 | Some candidate => rtc conn (AddIceCandidate candidate) ;;; ret tt
                 | None => ret tt
                 end
               else ret tt))) s).
Proof.
  unfold Async.handleSignal_answer.
  destruct (bool_decide (sig_type data = lit "answer")).
  - apply lock_assoc. apply lock_bind. intros _ s'. apply lock_await.
    cbn [Async.resume]. apply lock_bind. intros _ s''. apply lock_ice.
  - apply lock_ret_unit. apply lock_ice.
Qed.

Lemma lock_offer (k : nat) (data : SignalData) (conn : nat) (s : State P) :
  Async.alone (S (S (S (S (S k))))) (Async.handleSignal_offer data conn s) =
  Async.idle (exec (catch_console (signal_actions data conn)) s).
Proof.
  unfold Async.handleSignal_offer, signal_actions. cbv zeta.
  destruct (bool_decide (sig_type data = lit "offer")).
  - apply lock_assoc. apply lock_bind. intros _ s1. apply lock_await.
    cbn [Async.resume]. apply lock_assoc. apply lock_bind. intros answer s2.
    apply lock_await. cbn [Async.resume]. apply lock_assoc. apply lock_bind.
    intros _ s3. apply lock_await. cbn [Async.resume].
    apply lock_assoc. apply lock_bind. intros s4 s5.
    apply lock_assoc. apply lock_bind. intros _ s6.
    apply lock_bind. intros _ s7. apply lock_answer.
  - apply lock_ret_unit. apply lock_answer.
Qed.


Lemma lock_create (k : nat) (peerId peerPubB64 : jsstring)
    (deriving : AesKey P -> Async.Task P) (created : nat -> Async.Task P)
    (f' : nat -> M P unit) (s : State P) :
  (forall key s', Async.resume (deriving key) s'
                  = Async.createConnection_end peerId key created s') ->
  (forall n conn s', Async.alone (k + n) (Async.resume (created conn) s')
                     = Async.idle (exec (catch_console (f' conn)) s')) ->
  Async.alone (S (S k))
    (Async.createConnection_begin peerId peerPubB64 deriving created s)
  = Async.idle (exec (catch_console (bind (createConnection peerId peerPubB64) f')) s).
Proof.
  intros Hderiving Hcreated. rewrite createConnection_begin_eq.
  unfold exec at 1, catch_console at 1, try_catch at 1, bind at 1.
  rewrite createConnection_eq.
  destruct (session_key peerPubB64 s) as [e|[key|]].
  - apply alone_rejected.
  - rewrite alone_suspended, Hderiving, createConnection_end_eq, alone_suspended.
    specialize (Hcreated 0%nat). rewrite Nat.add_0_r in Hcreated.
    now rewrite Hcreated.
  - rewrite alone_suspended. specialize (Hcreated 1%nat).
    replace (k + 1)%nat with (S k) in Hcreated by lia. now rewrite Hcreated.
Qed.

Lemma lock_handleSignal (k : nat) (data : SignalData) (s : State P) :
  Async.alone (S (S (S (S (S (S (S k))))))) (Async.handleSignal_begin data s)
  = Async.idle (exec (catch_console (handleSignal data)) s).
Proof.
  unfold Async.handleSignal_begin. rewrite bind_get. cbv zeta.
  destruct (negb (truthy (sig_from data)) || bool_decide (sig_from data = myId s))
    eqn:Hguard.
  { rewrite (exec_catch_ext _ (ret tt) s (handleSignal_guard data s Hguard)).
    apply lock_finished. }
  destruct (map_get (connections s) (sig_from data)) as [conn|] eqn:Hget.
  { rewrite (exec_catch_ext _ _ s (handleSignal_known data s conn Hguard Hget)).
    apply lock_offer. }
  rewrite (exec_catch_ext (handleSignal data)
             (bind (createConnection (sig_from data) (sig_pub data))
                (fun conn => connections_set (sig_from data) conn ;;;
                             signal_actions data conn)) s).
  2:{ rewrite handleSignal_split, bind_get, Hguard, Hget.
      rewrite bind_assoc. apply bind_ext. intros conn s'.
      now rewrite bind_assoc. }
  apply lock_create; [reflexivity|].
  intros n conn s'. cbn [Async.resume].
  replace (5 + k + n)%nat with (S (S (S (S (S (k + n)))))) by lia.
  apply lock_bind. intros _ s''. apply lock_offer.
Qed.

Lemma lock_onSignal (k : nat) (data : option SignalData) (key : jsstring) (s : State P) :
  Async.alone (S (S (S (S (S (S (S k))))))) (Async.onSignal_begin data key s)
  = Async.idle (exec (catch_console (onSignal data key)) s).
Proof.
  destruct data as [d|]; [|apply alone_done].
  rewrite onSignal_eq. unfold Async.onSignal_begin. rewrite bind_get.
  destruct (negb (truthy (sig_type d)) || bool_decide (key ∈ signalSeen s));
    [apply alone_done|].
  rewrite bind_modify. unfold emit at 1. rewrite bind_modify.
  apply lock_handleSignal.
Qed.

Lemma lock_startConnection (k : nat) (s : State P) :
  Async.alone (S (S (S (S (S (S k)))))) (Async.startConnection_begin s)
  = Async.idle (exec (catch_console startConnection) s).
Proof.
  unfold Async.startConnection_begin, startConnection.
  apply lock_bind. intros _ s1. apply lock_bind. intros s2 s3. cbv zeta.
  destruct (negb (truthy (trim (peerId_value (elements s2)))) || _).
  { apply lock_bind_ret. apply lock_bind. intros _ s4. apply lock_finished. }
  apply lock_create; [reflexivity|].
  intros n conn s'. cbn [Async.resume].
  replace (4 + k + n)%nat with (S (S (S (S (k + n))))) by lia.
  apply lock_bind. intros _ s4. apply lock_bind. intros offer s5.
  apply lock_await. cbn [Async.resume]. apply lock_bind. intros _ s6.
  apply lock_await. cbn [Async.resume]. apply lock_bind. intros s7 s8.
  apply lock_bind. intros _ s9.
  apply lock_bind_ret. apply lock_bind. intros _ s10. apply lock_finished.
Qed.

Lemma is_open_entropyPos (s : State P) (n conn : nat) :
  is_open (set_entropyPos n s) conn = is_open s conn.
Proof. reflexivity. Qed.

Lemma lock_sendMessage (k : nat) (s : State P) :
  Async.alone (S (S k)) (Async.sendMessage_begin s)
  = Async.idle (exec (catch_console sendMessage) s).
Proof.
  unfold Async.sendMessage_begin, sendMessage. rewrite bind_get.
  apply lock_get. cbv zeta.
  destruct (negb (truthy (trim (messageInput_value (elements s)))));
    [apply alone_done|].
  destruct (find (is_open s) (map_values (connections s))) as [conn|] eqn:Hfind.
  2:{ apply lock_bind_ret. apply lock_bind. intros _ s4. apply lock_finished. }
  apply find_some in Hfind as [_ Hopen].
  destruct (heap s !! conn) as [[pid cs rs [key|]]|] eqn:Hheap.
  2,3: apply lock_bind_ret; apply lock_bind; intros _ s4; apply lock_finished.
  unfold bind at 1. unfold exec, catch_console, try_catch, bind at 1.
  rewrite encryptMessage_eq. cbn [Async.await ret Async.alone Async.resume].
  rewrite bind_get, is_open_entropyPos, Hopen.
  set (s1 := set_entropyPos _ s).
  set (payload := Build_Payload _ _).
  change (Async.alone (S k)
            ((emit (EChannelSend conn payload) ;;;
              addMessage You (Text (trim (messageInput_value (elements s)))) ;;;
              modify (set_messageInput []) ;;; Async.finished) s1)
          = Async.idle
              (exec (catch_console
                       (emit (EChannelSend conn payload) ;;;
                        addMessage You (Text (trim (messageInput_value (elements s)))) ;;;
                        modify (set_messageInput [])))
                 s1)).
  apply lock_bind. intros _ s2. apply lock_bind. intros _ s3.
  apply lock_bind_ret. apply lock_bind. intros _ s4. apply lock_finished.
Qed.

Lemma lock_regenerate (k : nat) (s : State P) :
  Async.alone (S (S k)) (Async.regenerate_begin s)
  = Async.idle (exec (catch_console regenerate) s).
Proof.
  unfold Async.regenerate_begin, regenerate.
  apply lock_bind. intros _ s1. apply lock_bind. intros _ s2.
  apply lock_bind. intros newPair s3. apply lock_await. cbn [Async.resume].
  apply lock_bind. intros _ s4. apply lock_bind. intros _ s5.
  apply lock_bind. intros _ s6.
  apply lock_bind_ret. apply lock_bind. intros _ s7. apply lock_finished.
Qed.

Lemma lock_onmessage (k : nat) (conn : nat) (data : option Payload) (s : State P) :
  Async.alone (S (S k)) (Async.onmessage_begin conn data s)
  = Async.idle (exec (catch_console (onmessage conn data)) s).
Proof.
  unfold Async.onmessage_begin, onmessage. rewrite bind_get. apply lock_get.
  destruct (heap s !! conn) as [c|]; [|apply alone_done].
  destruct (aesKey c) as [key|].
  - apply lock_bind. intros payload s1. apply lock_bind. intros text s2.
    apply lock_await. cbn [Async.resume].
    apply lock_bind_ret. apply lock_bind. intros _ s3. apply lock_finished.
  - apply lock_bind_ret. apply lock_bind. intros _ s3. apply lock_finished.
Qed.

(** The schedule that runs the handler of an input to its end before
    anything else gives the state of [step]: the event loop that runs
    one handler at a time is one schedule of the event loop that stops
    at every [await]. *)
Lemma atomic_schedule (s : State P) (i : Input) :
  Async.turns (Async.idle s) (Async.atomic i) = Async.idle (step s i).
Proof.
  unfold Async.atomic. rewrite turns_cons.
  cbn [Async.turn Async.idle Async.pending Async.current].
  rewrite turns_alone.
  destruct i; cbn [Async.start step];
    try (rewrite bind_modify; apply alone_done).
  - apply lock_startConnection.
  - apply lock_sendMessage.
  - apply lock_bind_ret. apply lock_bind. intros _ s1. apply lock_finished.
  - apply lock_bind_ret. apply lock_bind. intros _ s1. apply lock_finished.
  - apply lock_regenerate.
  - rewrite bind_get. destruct (room s); [|apply alone_done]. apply lock_onSignal.
  - apply lock_onmessage.
Qed.

(** So does a run of [step]: every run in which no two handlers
    overlap is a schedule. *)
Lemma run_schedule (inputs : list Input) (s : State P) :
  Async.turns (Async.idle s) (concat (map Async.atomic inputs)) = Async.idle (run s inputs).
Proof.
  revert s. induction inputs as [|i inputs IH]; intros s; [reflexivity|].
  cbn [map concat run fold_left].
  rewrite turns_app, atomic_schedule. apply IH.
Qed.

End Atomic.

(** *** The session key and the schedule *)

Section SessionKey.

Context {P : Platform}.


End SessionKey.

(** A handler that is suspended in [createConnection] replaces the
    session another handler records in the meantime. The party reads
    the offer of ["b1"], and the handler waits for the key; it reads the
    [ice] event of ["b1"], whose handler finds no session, creates the
    object 0 without a key and records it; then the handler of the
    offer is resumed, creates the object 1 with the key and records it
    in the place of the object 0. The object 0 is still there, and still
    has no key. *)
Example suspended_offer_replaces_session :
  let w1 := Async.turns Overlap.joined Overlap.ice_overtakes in
  let w2 := Async.turns w1 Overlap.offer_completes in
  map_get (connections (Async.current w1)) (lit "b1") = Some 0%nat /\
  option_map aesKey (heap (Async.current w1) !! 0%nat) = Some None /\
  map (Async.creating (lit "b1")) (Async.pending w1) = [true] /\
  map_get (connections (Async.current w2)) (lit "b1") = Some 1%nat /\
  (exists key,
     session_key (sig_pub Overlap.offer_of_b1) (Async.current Overlap.joined)
     = inr (Some key) /\
     option_map aesKey (heap (Async.current w2) !! 1%nat) = Some (Some key)) /\
  option_map aesKey (heap (Async.current w2) !! 0%nat) = Some None.
Proof.
  cbv zeta. split; [vm_compute; reflexivity|]. split; [vm_compute; reflexivity|].
  split; [vm_compute; reflexivity|]. split; [vm_compute; reflexivity|].
  split; [|vm_compute; reflexivity].
  eexists. split; vm_compute; reflexivity.
Qed.

(** ** Malformed keys and the send request *)

Section KeysAndSend.

Context {P : Platform}.

#[local] Existing Instance keys_fixed_preorder.
#[local] Existing Instance same_sessions_preorder.

(** (C6, amended) A peer public key that is supplied, that is not the
    empty text, and malformed: the key derivation fails,
    [createConnection] fails and leaves the state as it was, and neither
    an inbound signaling event that carries the key nor a connection the
    user starts with it records a session or creates a connection
    object; the handler fails before its first [await], so that nothing
    of it is suspended. The empty text is not refused: it is the absence
    of a key. An event without [pub] whose sender has no session records
    a session for the sender, with no key, and a connection the user
    starts with an empty key field is refused with a notice before a
    session is created. *)
Theorem malformed_key_records_no_session (s : State P) (me : KeyPair)
    (peerPubB64 : jsstring) :
  myKeyPair s = Some me ->
  malformed_public_key P (priv me) peerPubB64 ->
  (truthy peerPubB64 = true ->
   (forall salt, exists e, deriveAesKey peerPubB64 salt s = (s, inl e)) /\
   (forall peerId, exists e, createConnection peerId peerPubB64 s = (s, inl e)) /\
   (forall data, sig_pub data = peerPubB64 ->
      same_sessions s (exec (handleSignal data) s)) /\
   (forall data, sig_pub data = peerPubB64 ->
      truthy (sig_from data) = true -> sig_from data <> myId s ->
      map_get (connections s) (sig_from data) = None ->
      exists e, handleSignal data s = (s, inl e) /\
                Async.handleSignal_begin data s = (s, inl e)) /\
   (trim (peerPub_value (elements s)) = peerPubB64 ->
    same_sessions s (exec startConnection s)) /\
   (trim (peerPub_value (elements s)) = peerPubB64 -> room s <> None ->
    truthy (trim (peerId_value (elements s))) = true ->
    exists e, startConnection s = (s, inl e) /\
              Async.startConnection_begin s = (s, inl e))) /\
  (peerPubB64 = [] ->
   (forall peerId,
      createConnection peerId peerPubB64 s
      = (set_heap (<[fresh (dom (heap s)) := new_conn peerId None]> (heap s)) s,
         inr (fresh (dom (heap s))))) /\
   (forall data, sig_pub data = peerPubB64 ->
      truthy (sig_from data) = true -> sig_from data <> myId s ->
      map_get (connections s) (sig_from data) = None ->
      connections (exec (handleSignal data) s)
      = connections s ++ [(sig_from data, fresh (dom (heap s)))] /\
      (exists c, heap (exec (handleSignal data) s) !! fresh (dom (heap s)) = Some c /\
                 conn_peerId c = sig_from data /\ aesKey c = None) /\
      Async.handleSignal_begin data s
      = (set_heap (<[fresh (dom (heap s)) := new_conn (sig_from data) None]> (heap s)) s,
         inr (Some (Async.SignalCreated data (fresh (dom (heap s)))))) /\
      forall s' : State P,
        connections (fst (Async.resume (Async.SignalCreated data (fresh (dom (heap s)))) s'))
        = map_set (connections s') (sig_from data) (fresh (dom (heap s)))) /\
   (trim (peerPub_value (elements s)) = peerPubB64 -> room s <> None ->
    startConnection s = (set_trace (trace s ++ [EAlert AlertNeedIdAndKey]) s, inr tt) /\
    Async.startConnection_begin s
    = (set_trace (trace s ++ [EAlert AlertNeedIdAndKey]) s, inr None))).
Proof.
  intros Hme Hbad. split.
  - intros Hpub.
    assert (Hderive : forall salt, exists e, deriveAesKey peerPubB64 salt s = (s, inl e)).
    { intros salt. unfold malformed_public_key in Hbad.
      unfold deriveAesKey, bind, get, orThrow, ret, throw.
      destruct (fromB64 peerPubB64) as [peerPub|]; [|eauto].
      cbv beta iota. rewrite Hme. cbv beta iota. rewrite Hbad. eauto. }
    assert (Hkey : exists e, session_key peerPubB64 s = inl e).
    { unfold session_key. rewrite Hpub.
      destruct (Hderive (roomSalt s)) as [e ->]. eauto. }
    assert (Hcreate : forall peerId, exists e, createConnection peerId peerPubB64 s = (s, inl e)).
    { intros peerId. rewrite createConnection_eq. destruct Hkey as [e ->]. eauto. }
    split; [exact Hderive|]. split; [exact Hcreate|].
    split; [|split; [|split]].
    + intros data <-.
      destruct (negb (truthy (sig_from data)) || bool_decide (sig_from data = myId s))
        eqn:Hguard.
      { unfold exec. rewrite handleSignal_guard by assumption. reflexivity. }
      destruct (map_get (connections s) (sig_from data)) as [conn|] eqn:Hget.
      * unfold exec. rewrite (handleSignal_known data s conn) by assumption.
        apply same_sessions_signal_actions.
      * unfold exec. rewrite handleSignal_unknown by assumption.
        destruct Hkey as [e ->]. reflexivity.
    + intros data <- Hfrom Hself Hget. destruct Hkey as [e Hkey]. exists e. split.
      * rewrite (handleSignal_unknown data s (guard_false data s Hfrom Hself) Hget).
        now rewrite Hkey.
      * unfold Async.handleSignal_begin. rewrite bind_get. cbv zeta.
        rewrite (guard_false data s Hfrom Hself), Hget.
        now rewrite createConnection_begin_eq, Hkey.
    + intros Htrim. unfold exec, startConnection, ensureRoom.
      rewrite bind_assoc, bind_get.
      destruct (room s); [|reflexivity].
      rewrite bind_ret, bind_get. cbv zeta. rewrite Htrim, Hpub.
      destruct (truthy (trim (peerId_value (elements s)))); cbn [negb orb].
      * unfold bind at 1. destruct (Hcreate (trim (peerId_value (elements s)))) as [e ->].
        reflexivity.
      * split; reflexivity.
    + intros Htrim Hroom Hid. destruct Hkey as [e Hkey]. exists e.
      unfold startConnection, Async.startConnection_begin, ensureRoom.
      rewrite !bind_assoc, !bind_get.
      destruct (room s); [|contradiction].
      rewrite !bind_ret, !bind_get. cbv zeta. rewrite Htrim, Hpub, Hid. cbn [negb orb].
      split.
      * unfold bind at 1. now rewrite createConnection_eq, Hkey.
      * now rewrite createConnection_begin_eq, Hkey.
  - intros ->. split; [|split].
    + intros peerId. now rewrite createConnection_eq.
    + intros data Hpub Hfrom Hself Hget. unfold exec.
      rewrite (handleSignal_unknown data s (guard_false data s Hfrom Hself) Hget).
      rewrite Hpub. cbn [session_key truthy].
      match goal with |- context [signal_actions data ?c ?s2] =>
        pose proof (same_sessions_signal_actions data c s2) as [Hc _];
        pose proof (keys_fixed_signal_actions data c s2) as Hk
      end.
      rewrite Hc. cbn [connections set_connections].
      split; [now apply map_set_absent|]. split; [|split].
      * edestruct Hk as (c' & Hc' & Hkey' & Hpeer').
        { cbn [heap set_heap set_connections]. apply lookup_insert_eq. }
        exists c'. split; [exact Hc'|]. split; [exact Hpeer'|exact Hkey'].
      * unfold Async.handleSignal_begin. rewrite bind_get. cbv zeta.
        rewrite (guard_false data s Hfrom Hself), Hget.
        now rewrite createConnection_begin_eq, Hpub.
      * intros s'. now rewrite resume_connections.
    + intros Htrim Hroom.
      unfold startConnection, Async.startConnection_begin, ensureRoom.
      rewrite !bind_assoc, !bind_get.
      destruct (room s); [|contradiction].
      rewrite !bind_ret, !bind_get. cbv zeta. rewrite Htrim. cbn [truthy negb].
      rewrite orb_true_r. split; reflexivity.
Qed.

(** (C5, amended) A send request with a text that is not blank takes
    the first session, in the order the sessions were added, whose data
    channel is open, whether it has a key or not. When that session has
    a key, the text is encrypted under it with fresh random bytes and
    exactly one message is sent, on that session's channel; the message
    is sent when the encryption has ended, and if the channel is no
    longer open then, the request fails and nothing is sent. When the
    session taken has no key the request is rejected with
    ['Нет активного канала'] and nothing is sent or changed, even when a
    session added later has an open channel and a key. The request is
    rejected in the same way when no session has an open channel; so it
    is whenever no session has both an open channel and a key. *)
Theorem send_on_first_open_session (s : State P) :
  truthy (trim (messageInput_value (elements s))) = true ->
  (forall conn c key,
     find (is_open s) (map_values (connections s)) = Some conn ->
     heap s !! conn = Some c -> aesKey c = Some key ->
     exists payload s1,
       encryptMessage key (trim (messageInput_value (elements s))) s = (s1, inr payload) /\
       sendMessage s
       = (set_messageInput []
            (set_trace (trace s ++ [EChannelSend conn payload;
                                    EAddMessage You (Text (trim (messageInput_value (elements s))))])
               s1), inr tt) /\
       trace (exec sendMessage s)
       = trace s ++ [EChannelSend conn payload;
                     EAddMessage You (Text (trim (messageInput_value (elements s))))] /\
       Async.sendMessage_begin s
       = (s1, inr (Some (Async.SendEncrypted conn
                           (trim (messageInput_value (elements s))) payload))) /\
       forall s' : State P,
         Async.resume (Async.SendEncrypted conn
                         (trim (messageInput_value (elements s))) payload) s'
         = if is_open s' conn
           then (set_messageInput []
                   (set_trace
                      (trace s' ++ [EChannelSend conn payload;
                                    EAddMessage You
                                      (Text (trim (messageInput_value (elements s))))])
                      s'), inr None)
           else (s', inl InvalidStateError)) /\
  (forall conn c,
     find (is_open s) (map_values (connections s)) = Some conn ->
     heap s !! conn = Some c -> aesKey c = None ->
     sendMessage s = (set_trace (trace s ++ [EAlert AlertNoActiveChannel]) s, inr tt) /\
     Async.sendMessage_begin s
     = (set_trace (trace s ++ [EAlert AlertNoActiveChannel]) s, inr None)) /\
  (find (is_open s) (map_values (connections s)) = None ->
   sendMessage s = (set_trace (trace s ++ [EAlert AlertNoActiveChannel]) s, inr tt) /\
   Async.sendMessage_begin s
   = (set_trace (trace s ++ [EAlert AlertNoActiveChannel]) s, inr None)) /\
  ((forall conn c,
      In conn (map_values (connections s)) -> heap s !! conn = Some c ->
      readyState c = Open -> aesKey c = None) ->
   sendMessage s = (set_trace (trace s ++ [EAlert AlertNoActiveChannel]) s, inr tt) /\
   Async.sendMessage_begin s
   = (set_trace (trace s ++ [EAlert AlertNoActiveChannel]) s, inr None)).
Proof.
  intros Htext. unfold exec, sendMessage, Async.sendMessage_begin.
  rewrite !bind_get. cbv zeta.
  rewrite Htext. cbn [negb]. split; [|split; [|split]].
  - intros conn c key Hfind Hheap Hkey. rewrite Hfind, Hheap.
    destruct c as [pid cs rs [k0|]]; cbn [aesKey] in Hkey; [|discriminate].
    injection Hkey as ->.
    do 2 eexists. split; [apply encryptMessage_eq|].
    unfold bind. rewrite encryptMessage_eq.
    cbn [emit addMessage modify fst trace set_trace set_entropyPos set_messageInput
         set_elements].
    rewrite <- app_assoc. split; [reflexivity|]. split; [reflexivity|].
    split; [reflexivity|].
    intros s'. cbn [Async.resume]. rewrite bind_get.
    destruct (is_open s' conn); [|reflexivity].
    unfold bind, emit, addMessage, modify, Async.finished, ret.
    cbn [trace set_trace]. unfold emit, modify. cbn [trace set_trace].
    now rewrite <- app_assoc.
  - intros conn c Hfind Hheap Hkey. rewrite Hfind, Hheap.
    destruct c as [pid cs rs [k0|]]; cbn [aesKey] in Hkey; [discriminate|].
    split; reflexivity.
  - intros ->. split; reflexivity.
  - intros Hnokey.
    destruct (find (is_open s) (map_values (connections s))) as [conn|] eqn:Hfind;
      [|split; reflexivity].
    apply find_some in Hfind as [Hin Hopen]. unfold is_open in Hopen.
    destruct (heap s !! conn) as [c|] eqn:Hheap; [|split; reflexivity].
    destruct (readyState c) eqn:Hready; try discriminate.
    pose proof (Hnokey conn c Hin Hheap Hready) as Hk.
    destruct c as [pid cs rs [k0|]]; cbn [aesKey] in Hk; [discriminate|].
    split; reflexivity.
Qed.

End KeysAndSend.

(** Witness of [malformed_key_records_no_session]: the text ["AAAA"] is
    three bytes, and a public key of the small platform is one; the
    empty text is no byte. *)
Lemma malformed_key_records_no_session_witness :
  ((forall salt, exists e,
      deriveAesKey (lit "AAAA") salt (Toy.state [x03] Toy.zeros)
      = (Toy.state [x03] Toy.zeros, inl e)) /\
   (forall data, sig_pub data = lit "AAAA" ->
      same_sessions (Toy.state [x03] Toy.zeros)
        (exec (handleSignal data) (Toy.state [x03] Toy.zeros)))) /\
  (forall peerId,
     createConnection peerId [] (Toy.state [x03] Toy.zeros)
     = (set_heap (<[fresh (dom (heap (Toy.state [x03] Toy.zeros)))
                     := new_conn peerId None]> (heap (Toy.state [x03] Toy.zeros)))
          (Toy.state [x03] Toy.zeros),
        inr (fresh (dom (heap (Toy.state [x03] Toy.zeros)))))).
Proof.
  split.
  - destruct (malformed_key_records_no_session (Toy.state [x03] Toy.zeros)
                (Toy.keypair [x03]) (lit "AAAA")) as [H _];
      [reflexivity | vm_compute; reflexivity |].
    destruct (H eq_refl) as (H1 & _ & H3 & _). split; [exact H1|exact H3].
  - destruct (malformed_key_records_no_session (Toy.state [x03] Toy.zeros)
                (Toy.keypair [x03]) []) as [_ H];
      [reflexivity | vm_compute; reflexivity |].
    destruct (H eq_refl) as (H1 & _). exact H1.
Defined.

(** Counterexample to the claim (C6) as stated: the empty text is not
    a public key, the key agreement refuses its bytes; yet the offer of
    ["b1"] that carries it is not refused: after it the connections map
    holds a session for ["b1"], without a key. *)
Lemma empty_key_records_session :
  malformed_public_key Toy.platform (priv (Toy.keypair [x03])) (sig_pub Toy.offer_without_pub) /\
  connections (Toy.state [x03] Toy.zeros) = [] /\
  snd (handleSignal Toy.offer_without_pub (Toy.state [x03] Toy.zeros)) = inr tt /\
  connections (exec (handleSignal Toy.offer_without_pub) (Toy.state [x03] Toy.zeros))
  = [(lit "b1", 0%nat)] /\
  option_map aesKey
    (heap (exec (handleSignal Toy.offer_without_pub) (Toy.state [x03] Toy.zeros)) !! 0%nat)
  = Some None.
Proof.
  split; [vm_compute; reflexivity|]. split; [vm_compute; reflexivity|].
  split; [vm_compute; reflexivity|]. split; vm_compute; reflexivity.
Qed.

(** Witness of [send_on_first_open_session]: with one session, open and
    with a key, the text ["hi"] is sent on it; with two open sessions of
    which the first has no key, the request is rejected. *)
Lemma send_on_first_open_session_witness :
  (exists payload,
     trace (exec sendMessage Toy.one_open_session)
     = trace Toy.one_open_session
       ++ [EChannelSend 0 payload; EAddMessage You (Text (lit "hi"))]) /\
  sendMessage Toy.two_open_sessions
  = (set_trace (trace Toy.two_open_sessions ++ [EAlert AlertNoActiveChannel])
       Toy.two_open_sessions, inr tt).
Proof.
  split.
  - destruct (send_on_first_open_session Toy.one_open_session
                ltac:(vm_compute; reflexivity)) as [Hsend _].
    destruct (heap Toy.one_open_session !! 0%nat) as [c|] eqn:Hc;
      [|vm_compute in Hc; discriminate].
    assert (Hkey : exists key, aesKey c = Some key).
    { vm_compute in Hc. injection Hc as <-. eexists. reflexivity. }
    destruct Hkey as [key Hkey].
    destruct (Hsend 0%nat c key ltac:(vm_compute; reflexivity) Hc Hkey)
      as (payload & s1 & _ & _ & Htrace & _).
    exists payload. exact Htrace.
  - destruct (send_on_first_open_session Toy.two_open_sessions
                ltac:(vm_compute; reflexivity)) as (_ & Hreject & _).
    destruct (heap Toy.two_open_sessions !! 0%nat) as [c|] eqn:Hc;
      [|vm_compute in Hc; discriminate].
    apply (Hreject 0%nat c); [vm_compute; reflexivity | exact Hc |].
    vm_compute in Hc. injection Hc as <-. reflexivity.
Defined.

(** Counterexample to the claim (C5) as stated: the session of ["c1"]
    has an open channel and a key, but the session of ["b1"], added
    before it, has an open channel and no key; the send request is
    rejected and nothing is sent. *)
Lemma send_rejected_with_a_ready_session :
  map_get (connections Toy.two_open_sessions) (lit "c1") = Some 1%nat /\
  is_open Toy.two_open_sessions 1 = true /\
  has_key Toy.two_open_sessions 1 = true /\
  trim (messageInput_value (elements Toy.two_open_sessions)) = lit "hi" /\
  trace (step Toy.two_open_sessions ClickSendMessage)
  = trace Toy.two_open_sessions ++ [EAlert AlertNoActiveChannel].
Proof.
  split; [vm_compute; reflexivity|]. split; [vm_compute; reflexivity|].
  split; [vm_compute; reflexivity|]. split; vm_compute; reflexivity.
Qed.

(** * Further properties of the program *)

(** ** The base64 helpers and the short identifier *)

Module Base64More.
Import Base64 Base64Facts.

Lemma length_sextets (bs : list N) :
  length (sextets bs) = ((4 * length bs + 2) / 3)%nat.
Proof.
  induction bs as [| a | a b | a b c l IH] using list_ind3; try reflexivity.
  cbn [sextets length]. rewrite IH.
  replace (4 * S (S (S (length l))) + 2)%nat with (4 * length l + 2 + 4 * 3)%nat by lia.
  rewrite Nat.div_add by lia. lia.
Qed.

Lemma length_encode (bs : list N) :
  length (b64_encode bs) = (4 * ((length bs + 2) / 3))%nat.
Proof.
  unfold b64_encode. rewrite length_app, length_map.
  induction bs as [| a | a b | a b c l IH] using list_ind3; try reflexivity.
  cbn [sextets length]. rewrite padding_SSS.
  replace (S (S (S (length l))) + 2)%nat with (length l + 2 + 1 * 3)%nat by lia.
  rewrite Nat.div_add by lia. lia.
Qed.

Lemma padding_cases (n : nat) :
  padding n = [] \/ padding n = [61%N] \/ padding n = [61%N; 61%N].
Proof. unfold padding. destruct (n mod 3)%nat as [|[|[|?]]]; auto. Qed.

Lemma chars_not_pad (vs : list N) : Forall (fun c => c <> 61%N) (map b64_char vs).
Proof.
  apply List.Forall_forall. intros c Hin. apply in_map_iff in Hin.
  destruct Hin as (i & <- & _). apply b64_char_not_pad.
Qed.

Lemma filter_keep {A : Type} (f : A -> bool) (l : list A) :
  Forall (fun c => f c = true) l -> List.filter f l = l.
Proof. induction 1 as [|c l Hc _ IH]; [reflexivity|]. simpl. now rewrite Hc, IH. Qed.

Lemma filter_drop {A : Type} (f : A -> bool) (l : list A) :
  Forall (fun c => f c = false) l -> List.filter f l = [].
Proof. induction 1 as [|c l Hc _ IH]; [reflexivity|]. simpl. now rewrite Hc, IH. Qed.

(** Without its padding an encoding is the characters of its 6-bit
    groups. *)
Lemma unpadded (bs : list N) :
  List.filter (fun c => negb (c =? 61)%N) (b64_encode bs) = map b64_char (sextets bs).
Proof.
  unfold b64_encode. rewrite List.filter_app, filter_keep, filter_drop.
  - apply app_nil_r.
  - destruct (padding_cases (length bs)) as [-> | [-> | ->]]; repeat constructor.
  - eapply List.Forall_impl; [|apply chars_not_pad].
    intros c Hc. cbn beta. apply negb_true_iff. now apply N.eqb_neq.
Qed.

(** A text without ['='] has no padding to remove. *)
Lemma strip_padding_none (s : jsstring) :
  Forall (fun c => c <> 61%N) s -> strip_padding s = s.
Proof.
  intros Hs. unfold strip_padding.
  destruct (length s mod 4 =? 0)%nat; [|reflexivity].
  destruct (rev s) as [|c1 [|c2 r]] eqn:E; try reflexivity.
  replace (c1 =? 61)%N with false; [reflexivity|].
  symmetry. apply N.eqb_neq. rewrite List.Forall_forall in Hs. apply Hs.
  apply in_rev. rewrite E. now left.
Qed.

(** [atob] reads an encoding whose padding was removed. *)
Lemma atob_unpadded (bs : list N) :
  Forall (fun n => (n < 256)%N) bs -> atob (map b64_char (sextets bs)) = Some bs.
Proof.
  intros Hbs. unfold atob.
  rewrite filter_keep.
  2:{ apply List.Forall_forall. intros c Hin. apply in_map_iff in Hin.
      destruct Hin as (i & <- & _). now rewrite b64_char_not_space. }
  rewrite strip_padding_none by apply chars_not_pad.
  rewrite length_map.
  destruct (encode_shape bs) as (_ & (k & r & Hk & Hr) & _).
  replace (length (sextets bs) mod 4 =? 1)%nat with false.
  2:{ symmetry. apply Nat.eqb_neq. rewrite Hk, mod4_of_mul_add by lia. lia. }
  rewrite b64_values_chars by now apply sextets_lt.
  simpl. now rewrite octets_sextets.
Qed.

(** What [strip_padding] removes is ['=']. *)
Lemma strip_padding_keeps (s : jsstring) (c : N) :
  In c s -> c <> 61%N -> In c (strip_padding s).
Proof.
  intros Hin Hc. unfold strip_padding.
  destruct (length s mod 4 =? 0)%nat; [|assumption].
  destruct (rev s) as [|c1 [|c2 r]] eqn:E; try assumption.
  assert (Hs : s = rev r ++ [c2] ++ [c1]).
  { rewrite <- (rev_involutive s), E. cbn [rev]. now rewrite <- app_assoc. }
  destruct (N.eqb_spec c1 61) as [->|]; [|assumption].
  rewrite Hs in Hin. apply in_app_or in Hin as [Hin|[E2|[E1|[]]]].
  - destruct (c2 =? 61)%N; [assumption|]. cbn [rev]. apply in_or_app. now left.
  - subst c2. destruct (N.eqb_spec c 61) as [->|]; [contradiction|].
    cbn [rev]. apply in_or_app. right. now left.
  - congruence.
Qed.

Lemma b64_values_invalid (s : jsstring) (c : N) :
  In c s -> b64_value c = None -> b64_values s = None.
Proof.
  induction s as [|d s IH]; [now intros []|].
  intros [->|Hin] Hc; cbn [b64_values].
  - now rewrite Hc.
  - rewrite (IH Hin Hc). now destruct (b64_value d).
Qed.

(** Every character of an encoding is printable ASCII. *)
Lemma encode_chars (bs : list N) :
  Forall (fun c => (43 <= c <= 122)%N) (b64_encode bs).
Proof.
  unfold b64_encode. apply List.Forall_app. split.
  - apply List.Forall_forall. intros c Hin. apply in_map_iff in Hin.
    destruct Hin as (i & <- & _). apply b64_char_range.
  - destruct (padding_cases (length bs)) as [-> | [-> | ->]];
      repeat constructor; lia.
Qed.

End Base64More.

(** ** [String.prototype.trim] *)

Lemma trimStart_head (c : N) (s : jsstring) :
  is_js_whitespace c = false -> trimStart (c :: s) = c :: s.
Proof. intros H. cbn [trimStart]. now rewrite H. Qed.

(** A text without whitespace at its ends is its own trimmed text. *)
Lemma trim_clean (s : jsstring) :
  Forall (fun c => is_js_whitespace c = false) s -> trim s = s.
Proof.
  intros Hs. unfold trim.
  assert (Hstart : forall l, Forall (fun c => is_js_whitespace c = false) l ->
                             trimStart l = l).
  { intros l Hl. destruct Hl; [reflexivity|now apply trimStart_head]. }
  rewrite (Hstart s Hs), Hstart, rev_involutive; [reflexivity|].
  apply List.Forall_forall. intros c Hin. apply in_rev in Hin.
  rewrite List.Forall_forall in Hs. now apply Hs.
Qed.

Lemma printable_not_whitespace (c : N) :
  (43 <= c <= 122)%N -> is_js_whitespace c = false.
Proof.
  intros Hc. unfold is_js_whitespace.
  assert (H1 : (c <=? 13)%N = false) by (apply N.leb_gt; lia).
  assert (H2 : (8192 <=? c)%N = false) by (apply N.leb_gt; lia).
  assert (He : forall k, (k < 43 \/ 122 < k)%N -> (c =? k)%N = false).
  { intros k Hk. apply N.eqb_neq. lia. }
  rewrite H1, H2, !He by lia. now rewrite andb_false_r.
Qed.

(** What [toB64] returns has nothing to trim. *)
Lemma trim_toB64 (bytes : list byte) : trim (toB64 bytes) = toB64 bytes.
Proof.
  apply trim_clean. eapply List.Forall_impl; [|apply Base64More.encode_chars].
  intros c. apply printable_not_whitespace.
Qed.

(** The text of a byte array that is not empty is not empty. *)
Lemma truthy_toB64 (bytes : list byte) : bytes <> [] -> truthy (toB64 bytes) = true.
Proof. destruct bytes as [|b [|b2 [|b3 bs]]]; [congruence|reflexivity..]. Qed.


(** (X1) [fromB64(toB64(bytes))] is [bytes], for every byte array: what
    [toB64] writes into the storage, the clipboard or a signaling event
    is read back unchanged by [fromB64]. *)
Theorem base64_roundtrip (bytes : list byte) : fromB64 (toB64 bytes) = Some bytes.
Proof. apply fromB64_toB64. Qed.

(** (X2) The text [toB64] returns for [n] bytes has four characters for
    every three bytes, rounded up, and every character is one of the
    base64 alphabet or the padding ['=']. *)
Theorem toB64_shape (bytes : list byte) :
  length (toB64 bytes) = (4 * ((length bytes + 2) / 3))%nat /\
  Forall (fun c => Base64.b64_value c <> None \/ c = 61%N) (toB64 bytes).
Proof.
  unfold toB64. split.
  - now rewrite Base64More.length_encode, length_map.
  - unfold Base64.b64_encode. apply List.Forall_app. split.
    + apply List.Forall_forall. intros c Hin. apply in_map_iff in Hin.
      destruct Hin as (i & <- & Hi). left.
      pose proof (Base64Facts.sextets_lt _ (Forall_to_N_lt bytes)) as Hlt.
      rewrite List.Forall_forall in Hlt.
      rewrite Base64Facts.b64_value_char by now apply Hlt. discriminate.
    + destruct (Base64More.padding_cases (length (map Byte.to_N bytes)))
        as [-> | [-> | ->]]; repeat constructor; now right.
Qed.

(** (X3) [fromB64] throws, and returns no bytes, when the text holds a
    character that is neither of the base64 alphabet, nor ['='], nor
    ASCII whitespace, and when the text without its whitespace has one
    character more than a multiple of four. *)
Theorem fromB64_rejects (str : jsstring) :
  (forall c, In c str -> Base64.is_ascii_whitespace c = false ->
             Base64.b64_value c = None -> c <> 61%N -> fromB64 str = None) /\
  ((length (List.filter (fun c => negb (Base64.is_ascii_whitespace c)) str) mod 4 = 1)%nat ->
   fromB64 str = None).
Proof.
  unfold fromB64, Base64.atob. split.
  - intros c Hin Hws Hval Hpad.
    set (data := Base64.strip_padding _).
    assert (Hdata : In c data).
    { apply Base64More.strip_padding_keeps; [|assumption].
      apply filter_In. split; [assumption|]. now rewrite Hws. }
    rewrite (Base64More.b64_values_invalid data c Hdata Hval).
    now destruct (length data mod 4 =? 1)%nat.
  - intros Hlen. unfold Base64.strip_padding. rewrite Hlen.
    cbn [Nat.eqb]. now rewrite Hlen.
Qed.

(** (X4) The identifier is the first six bytes of the public key and
    nothing more: [fromB64(shortId(a))] is those six bytes, so two keys
    have the same identifier exactly when their first six bytes are the
    same. *)
Theorem shortId_names_prefix (a b : list byte) :
  fromB64 (shortId a) = Some (firstn 6 a) /\
  (shortId a = shortId b <-> firstn 6 a = firstn 6 b).
Proof.
  assert (Hdec : forall x, fromB64 (shortId x) = Some (firstn 6 x)).
  { intros x. unfold fromB64, shortId, toB64.
    rewrite Base64More.unpadded, Base64More.atob_unpadded by apply Forall_to_N_lt.
    simpl. now rewrite map_byte_of_to_N. }
  split; [apply Hdec|]. split.
  - intros E. apply (f_equal fromB64) in E. rewrite !Hdec in E. now injection E.
  - intros E. unfold shortId. now rewrite E.
Qed.

(** (X5) An identifier never holds ['='], has at most eight characters,
    all of the base64 alphabet, and exactly eight for a key of six bytes
    or more. *)
Theorem shortId_shape (bytes : list byte) :
  (length (shortId bytes) <= 8)%nat /\
  Forall (fun c => Base64.b64_value c <> None) (shortId bytes) /\
  ((6 <= length bytes)%nat -> length (shortId bytes) = 8%nat).
Proof.
  unfold shortId, toB64. rewrite Base64More.unpadded.
  rewrite length_map, Base64More.length_sextets, length_map.
  pose proof (length_firstn 6 bytes) as Hlen.
  split; [|split].
  - assert (H : (length (firstn 6 bytes) <= 6)%nat) by lia.
    revert H. generalize (length (firstn 6 bytes)). intros n Hn.
    do 7 (destruct n as [|n]; [cbn; lia|]). lia.
  - apply List.Forall_forall. intros c Hin. apply in_map_iff in Hin.
    destruct Hin as (i & <- & Hi).
    pose proof (Base64Facts.sextets_lt _ (Forall_to_N_lt (firstn 6 bytes))) as Hlt.
    rewrite List.Forall_forall in Hlt.
    rewrite Base64Facts.b64_value_char by now apply Hlt. discriminate.
  - intros H6. rewrite Hlen, Nat.min_l by lia. reflexivity.
Qed.

(** ** The identity: creation, storage, reload *)

Section Identity.

Context {P : Platform}.

#[local] Instance preserves_preorder (I : State P -> Prop) : PreOrder (preserves I).
Proof. split; [intros s H; exact H | intros s1 s2 s3 H1 H2 H; auto]. Qed.

#[local] Instance same_identity_preorder : PreOrder (same_identity (P := P)).
Proof.
  split.
  - intros s. repeat split.
  - intros s1 s2 s3 (H1 & H2 & H3 & H4) (H5 & H6 & H7 & H8).
    repeat split; congruence.
Qed.

Lemma generateKeyPair_eq (s : State P) :
  generateKeyPair s =
  (set_entropyPos (entropyPos s + 48) s,
   match getPublicKey P (randomPrivateKey P (draw 48 s)) with
   | Some pub => inr {| priv := randomPrivateKey P (draw 48 s); pub := pub |}
   | None => inl Secp256k1Error
   end).
Proof.
  unfold generateKeyPair, bind, getRandomValues, orThrow, ret, throw.
  now destruct (getPublicKey P (randomPrivateKey P (draw 48 s))).
Qed.

Lemma setIdentity_eq (me : KeyPair) (s : State P) :
  setIdentity me s =
  (set_trace (trace s ++ [EShowIdentity (shortId (pub me)) (toB64 (pub me))])
     (set_identity me (toB64 (pub me)) (shortId (pub me)) s), inr tt).
Proof. reflexivity. Qed.

Lemma storage_keys_differ : storageKeys_priv <> storageKeys_pub.
Proof. discriminate. Qed.

Lemma run_invariant (I : State P -> Prop) :
  (forall s i, I s -> I (step s i)) ->
  forall inputs s, I s -> I (run s inputs).
Proof.
  intros Hstep inputs. induction inputs as [|i inputs IH]; intros s Hs; [exact Hs|].
  cbn [run fold_left]. apply IH, Hstep, Hs.
Qed.

(** An invariant of the start and of every turn of the event loop holds
    in every state the program reaches. *)
Lemma launch_invariant (I : State P -> Prop) storage els rnd now inputs :
  I (boot storage els rnd now) ->
  frame (preserves I) init ->
  (forall s e, I s -> I (set_trace (trace s ++ [EConsoleError e]) s)) ->
  (forall s i, I s -> I (step s i)) ->
  I (launch storage els rnd now inputs).
Proof.
  intros Hboot Hinit Hlog Hstep. unfold launch.
  specialize (Hinit (boot storage els rnd now) Hboot).
  destruct (init (boot storage els rnd now)) as [s [e|[]]]; cbn [fst] in Hinit.
  - now apply Hlog.
  - now apply run_invariant.
Qed.

Lemma consistent_rtc (conn : nat) (call : RtcCall) :
  frame (P := P) (preserves identity_consistent) (rtc conn call).
Proof.
  intros s H. rewrite rtc_eq. destruct (heap s !! conn); exact H.
Qed.

Lemma consistent_set_readyState (conn : nat) (st : ReadyState) :
  frame (P := P) (preserves identity_consistent) (set_readyState conn st).
Proof.
  intros s H. unfold set_readyState, modify. cbn [fst].
  destruct (heap s !! conn); exact H.
Qed.

End Identity.

Ltac consistent_leaf :=
  first
    [ apply consistent_rtc
    | apply consistent_set_readyState
    | apply frame_modify; intros ? ?;
      first [assumption | split; reflexivity]
    | intros ? ?; assumption ].

Section IdentityInvariants.

Context {P : Platform}.

#[local] Existing Instance preserves_preorder.
#[local] Existing Instance same_identity_preorder.

Lemma consistent_step (s : State P) (i : Input) :
  identity_consistent s -> identity_consistent (step s i).
Proof.
  destruct i; cbn [step]; try (intros H; exact H);
    try (destruct (room s); [|intros H; exact H]);
    apply (frame_exec (preserves identity_consistent));
    repeat autounfold with handlers; frame_walk consistent_leaf.
Qed.

Lemma consistent_init : frame (P := P) (preserves identity_consistent) init.
Proof.
  unfold init, loadOrCreateKeys, getItem. repeat autounfold with handlers.
  frame_walk consistent_leaf.
Qed.

End IdentityInvariants.

(** (X6) In every state the program reaches, the identifier and the
    public key text, as they are shown and as they are sent in signaling
    events, are those of the key pair in memory: [myPubB64] is
    [toB64(myKeyPair.pub)] and [myId] is [shortId(myKeyPair.pub)], and
    both are empty as long as there is no key pair. *)
Theorem identity_consistent_always {P : Platform} storage els rnd now inputs :
  identity_consistent (launch (P := P) storage els rnd now inputs).
Proof.
  apply launch_invariant.
  - split; reflexivity.
  - apply consistent_init.
  - intros s e H. exact H.
  - apply consistent_step.
Qed.

Section Storage.

Context {P : Platform}.

#[local] Existing Instance preserves_preorder.
#[local] Existing Instance same_identity_preorder.

Lemma stored_with_new_identity (me : KeyPair) (s : State P) :
  identity_stored (with_new_identity me s).
Proof.
  unfold identity_stored, stored_bytes, with_new_identity.
  cbn [myKeyPair localStorage set_trace set_identity set_localStorage].
  rewrite lookup_insert_ne by (symmetry; apply storage_keys_differ).
  rewrite !lookup_insert_eq. now rewrite !fromB64_toB64.
Qed.

Lemma regenerate_eq (s : State P) :
  regenerate s =
  let s1 := set_entropyPos (entropyPos s + 48)
              (set_localStorage
                 (delete storageKeys_pub (delete storageKeys_priv (localStorage s))) s) in
  match getPublicKey P (randomPrivateKey P (draw 48 s)) with
  | Some pub =>
      (set_trace (trace s ++ [EShowIdentity (shortId pub) (toB64 pub);
                              EAlert AlertKeysUpdated])
         (with_new_identity {| priv := randomPrivateKey P (draw 48 s); pub := pub |} s1),
       inr tt)
  | None => (s1, inl Secp256k1Error)
  end.
Proof.
  unfold regenerate, removeItem. rewrite !bind_modify.
  set (s0 := set_localStorage (delete storageKeys_pub _) _).
  unfold bind at 1. rewrite generateKeyPair_eq.
  change (draw 48 s0) with (draw 48 s).
  destruct (getPublicKey P (randomPrivateKey P (draw 48 s))) as [pub|];
    [|reflexivity].
  unfold setItem. rewrite !bind_modify. unfold bind at 1.
  rewrite setIdentity_eq. unfold alert, emit, modify, with_new_identity.
  cbn. now rewrite <- app_assoc.
Qed.

Lemma importSeed_eq (s : State P) :
  importSeed s =
  let seed := trim (importSeedInput_value (elements s)) in
  let rejected := (set_trace (trace s ++ [EAlert AlertBadSeed]) s, inr tt) in
  if truthy seed then
    match fromB64 seed with
    | Some priv =>
        if (length priv =? 32)%nat then
          match getPublicKey P priv with
          | Some pub =>
              (set_trace (trace s ++ [EShowIdentity (shortId pub) (toB64 pub);
                                      EAlert AlertSeedImported])
                 (with_new_identity {| priv := priv; pub := pub |} s), inr tt)
          | None => rejected
          end
        else rejected
    | None => rejected
    end
  else (s, inr tt).
Proof.
  unfold importSeed. rewrite bind_get. cbv zeta.
  destruct (truthy (trim (importSeedInput_value (elements s)))); [|reflexivity].
  cbn [negb]. unfold try_catch, bind.
  destruct (fromB64 (trim (importSeedInput_value (elements s)))) as [priv|];
    [|reflexivity].
  cbn [orThrow ret].
  destruct (length priv =? 32)%nat; [|reflexivity]. cbn [negb ret].
  destruct (getPublicKey P priv) as [pub|]; [|reflexivity].
  cbn. unfold with_new_identity. cbn. now rewrite <- app_assoc.
Qed.

Lemma stored_set_trace (tr : list Effect) (s : State P) :
  identity_stored s -> identity_stored (set_trace tr s).
Proof. intros H. exact H. Qed.

Lemma stored_same_identity (s s' : State P) :
  same_identity s s' -> identity_stored s -> identity_stored s'.
Proof.
  intros (H1 & _ & _ & H2). unfold identity_stored, stored_bytes.
  now rewrite H1, H2.
Qed.

Lemma same_identity_rtc (conn : nat) (call : RtcCall) :
  frame (P := P) same_identity (rtc conn call).
Proof.
  intros s. rewrite rtc_eq. destruct (heap s !! conn); repeat split.
Qed.

Lemma same_identity_set_readyState (conn : nat) (st : ReadyState) :
  frame (P := P) same_identity (set_readyState conn st).
Proof.
  intros s. unfold set_readyState, modify. cbn [fst].
  destruct (heap s !! conn); repeat split.
Qed.

End Storage.

Ltac same_identity_leaf :=
  first
    [ apply same_identity_rtc
    | apply same_identity_set_readyState
    | apply frame_modify; solve [intros ?; repeat split]
    | solve [intros ?; repeat split] ].

Section StorageInvariant.

Context {P : Platform}.

#[local] Existing Instance preserves_preorder.
#[local] Existing Instance same_identity_preorder.

(** Every input but an import and a regeneration leaves the identity
    and the storage as they are. *)
Lemma same_identity_step (s : State P) (i : Input) :
  i <> ClickImportSeed -> i <> ClickRegenerate -> same_identity s (step s i).
Proof.
  intros H1 H2.
  destruct i; cbn [step]; try (repeat split; fail); try congruence;
    try (destruct (room s); [|repeat split; fail]);
    apply frame_exec; repeat autounfold with handlers;
    frame_walk same_identity_leaf.
Qed.

Lemma stored_step (s : State P) (i : Input) :
  generated_keys_valid P -> identity_stored s -> identity_stored (step s i).
Proof.
  intros Hgen Hs.
  assert (Hother : i <> ClickImportSeed -> i <> ClickRegenerate ->
                   identity_stored (step s i)).
  { intros H1 H2. eapply stored_same_identity; [|exact Hs].
    now apply same_identity_step. }
  destruct i; try (apply Hother; discriminate); clear Hother; cbn [step].
  - unfold exec, catch_console, try_catch. rewrite importSeed_eq. cbv zeta.
    destruct (truthy _); [|exact Hs].
    destruct (fromB64 _) as [priv|]; [|exact Hs].
    destruct (length priv =? 32)%nat; [|exact Hs].
    destruct (getPublicKey P priv) as [pub|]; [|exact Hs].
    cbn [fst]. apply stored_set_trace, stored_with_new_identity.
  - unfold exec, catch_console, try_catch. rewrite regenerate_eq.
    cbv zeta. specialize (Hgen (draw 48 s)).
    destruct (getPublicKey P (randomPrivateKey P (draw 48 s))) as [pub|];
      [|contradiction].
    cbn [fst]. apply stored_set_trace, stored_with_new_identity.
Qed.

Lemma init_eq (s : State P) :
  init s =
  if has_item (localStorage s) storageKeys_priv
     && has_item (localStorage s) storageKeys_pub
  then
    match stored_bytes storageKeys_priv s, stored_bytes storageKeys_pub s with
    | Some priv, Some pub => setIdentity {| priv := priv; pub := pub |} s
    | _, _ => (s, inl InvalidCharacterError)
    end
  else
    match getPublicKey P (randomPrivateKey P (draw 48 s)) with
    | Some pub =>
        (with_new_identity {| priv := randomPrivateKey P (draw 48 s); pub := pub |}
           (set_entropyPos (entropyPos s + 48) s), inr tt)
    | None => (set_entropyPos (entropyPos s + 48) s, inl Secp256k1Error)
    end.
Proof.
  assert (Hgen : bind (pair <- generateKeyPair ;;
                       setItem storageKeys_priv (toB64 (priv pair)) ;;;
                       setItem storageKeys_pub (toB64 (pub pair)) ;;; ret pair)
                      setIdentity s
                 = match getPublicKey P (randomPrivateKey P (draw 48 s)) with
                   | Some pub =>
                       (with_new_identity
                          {| priv := randomPrivateKey P (draw 48 s); pub := pub |}
                          (set_entropyPos (entropyPos s + 48) s), inr tt)
                   | None => (set_entropyPos (entropyPos s + 48) s, inl Secp256k1Error)
                   end).
  { rewrite bind_assoc. unfold bind at 1. rewrite generateKeyPair_eq.
    destruct (getPublicKey P (randomPrivateKey P (draw 48 s))) as [pub|];
      reflexivity. }
  unfold init, loadOrCreateKeys, getItem, has_item, stored_bytes.
  rewrite bind_assoc. unfold bind at 1. cbv beta iota.
  rewrite bind_assoc. unfold bind at 1. cbv beta iota.
  destruct (localStorage s !! storageKeys_priv) as [[|c1 t1]|]; cbn [andb];
    try exact Hgen.
  destruct (localStorage s !! storageKeys_pub) as [[|c2 t2]|]; cbn [andb];
    try exact Hgen.
  unfold bind, orThrow, ret, throw.
  destruct (fromB64 (c1 :: t1)) as [priv|]; [|reflexivity].
  destruct (fromB64 (c2 :: t2)) as [pub|]; reflexivity.
Qed.

Lemma stored_init : frame (P := P) (preserves identity_stored) init.
Proof.
  intros s Hs. rewrite init_eq.
  destruct (has_item _ _ && has_item _ _).
  - destruct (stored_bytes storageKeys_priv s) as [priv|] eqn:Hpriv; [|exact Hs].
    destruct (stored_bytes storageKeys_pub s) as [pub|] eqn:Hpub; [|exact Hs].
    rewrite setIdentity_eq. cbn [fst]. unfold identity_stored.
    cbn [myKeyPair set_trace set_identity]. split; assumption.
  - destruct (getPublicKey P (randomPrivateKey P (draw 48 s))) as [pub|];
      [|exact Hs].
    cbn [fst]. apply stored_with_new_identity.
Qed.

End StorageInvariant.

(** (X7) In every state the program reaches, the two texts in the
    storage decode to the key pair in memory, provided the library's key
    generation does not fail on a key it drew: the identity in use is
    the identity a reload would find. *)
Theorem identity_stored_always {P : Platform} storage els rnd now inputs :
  generated_keys_valid P ->
  identity_stored (launch (P := P) storage els rnd now inputs).
Proof.
  intros Hgen. apply launch_invariant.
  - exact I.
  - apply stored_init.
  - intros s e H. exact H.
  - intros s i. now apply stored_step.
Qed.

Section Reload.

Context {P : Platform}.

Lemma has_item_stored (s : State P) (k : jsstring) (bytes : list byte) :
  stored_bytes k s = Some bytes -> bytes <> [] -> has_item (localStorage s) k = true.
Proof.
  unfold stored_bytes, has_item. intros H Hne.
  destruct (localStorage s !! k) as [[|c t]|]; try discriminate; [|reflexivity].
  injection H as <-. now destruct Hne.
Qed.

(** (X8) A reload finds the identity: when the storage holds the texts
    of a key pair, neither empty, [init] on a freshly loaded module
    returns, makes that key pair the identity and shows it, draws no
    random bytes and writes nothing into the storage. *)
Theorem reload_restores_identity (s : State P) (me : KeyPair)
    (els : Elements) (rnd : nat -> byte) (now : N) :
  myKeyPair s = Some me -> identity_stored s ->
  priv me <> [] -> pub me <> [] ->
  init (P := P) (boot (localStorage s) els rnd now) =
  (set_trace [EShowIdentity (shortId (pub me)) (toB64 (pub me))]
     (set_identity me (toB64 (pub me)) (shortId (pub me))
        (boot (localStorage s) els rnd now)), inr tt).
Proof.
  intros Hme Hstored Hpriv Hpub. unfold identity_stored in Hstored.
  rewrite Hme in Hstored. destruct Hstored as [H1 H2].
  rewrite init_eq.
  change (localStorage (boot (localStorage s) els rnd now)) with (localStorage s).
  rewrite (has_item_stored s _ _ H1 Hpriv), (has_item_stored s _ _ H2 Hpub).
  cbn [andb].
  change (stored_bytes storageKeys_priv (boot (localStorage s) els rnd now))
    with (stored_bytes storageKeys_priv s).
  change (stored_bytes storageKeys_pub (boot (localStorage s) els rnd now))
    with (stored_bytes storageKeys_pub s).
  rewrite H1, H2, setIdentity_eq. now destruct me.
Qed.

(** (X9) The first visit, or a visit with one of the two stored texts
    missing or empty: [init] draws 48 random bytes for a new private
    key, stores the texts of both keys over whatever was stored, and
    makes the pair the identity; when the library rejects the key,
    [init] fails with the library's error, nothing is stored and there
    is no identity. *)
Theorem first_visit_creates_identity (storage : gmap jsstring jsstring)
    (els : Elements) (rnd : nat -> byte) (now : N) :
  has_item storage storageKeys_priv && has_item storage storageKeys_pub = false ->
  init (P := P) (boot storage els rnd now) =
  match getPublicKey P (randomPrivateKey P (map rnd (seq 0 48))) with
  | Some pub =>
      (with_new_identity
         {| priv := randomPrivateKey P (map rnd (seq 0 48)); pub := pub |}
         (set_entropyPos 48 (boot storage els rnd now)), inr tt)
  | None => (set_entropyPos 48 (boot storage els rnd now), inl Secp256k1Error)
  end.
Proof.
  intros Hmissing. rewrite init_eq.
  change (localStorage (boot storage els rnd now)) with storage.
  rewrite Hmissing. reflexivity.
Qed.

(** (X10) Export then import gives the identity back: [exportSeed] puts
    the text of the private key on the clipboard, and [importSeed],
    given that text for a private key of 32 bytes whose public key the
    library computes, stores both keys, makes the pair the identity and
    reports the import. *)
Theorem import_restores_exported_seed (s s2 : State P) (me : KeyPair) :
  myKeyPair s = Some me -> valid_keypair P me -> length (priv me) = 32%nat ->
  exists seed,
    exportSeed s = (set_trace (trace s ++ [EClipboard seed; EAlert AlertSeedCopied]) s,
                    inr tt) /\
    (importSeedInput_value (elements s2) = seed ->
     importSeed s2 =
     (set_trace (trace s2 ++ [EShowIdentity (shortId (pub me)) (toB64 (pub me));
                              EAlert AlertSeedImported])
        (with_new_identity me s2), inr tt)).
Proof.
  intros Hme Hvalid Hlen. exists (toB64 (priv me)). split.
  - unfold exportSeed. rewrite bind_get, Hme. cbn [orThrow]. rewrite bind_ret.
    unfold alert, emit. rewrite bind_modify. unfold modify.
    cbn [trace set_trace]. now rewrite <- app_assoc.
  - intros Hinput. rewrite importSeed_eq. cbv zeta.
    rewrite Hinput, trim_toB64, truthy_toB64, fromB64_toB64, Hlen.
    2:{ intros E. now rewrite E in Hlen. }
    cbn [Nat.eqb]. unfold valid_keypair in Hvalid. rewrite Hvalid.
    now destruct me.
Qed.

End Reload.

(** ** The room and the subscription *)

Section Room.

Context {P : Platform}.

#[local] Instance quiet_preorder : PreOrder (quiet (P := P)).
Proof.
  split.
  - intros s. now split.
  - intros s1 s2 s3 [H1 H2] [H3 H4]. split; congruence.
Qed.

#[local] Instance same_subscriptions_preorder : PreOrder (same_subscriptions (P := P)).
Proof.
  split.
  - intros s. reflexivity.
  - intros s1 s2 s3 H1 H2. unfold same_subscriptions in *. congruence.
Qed.

Lemma published_app (tr tr' : list Effect) :
  published (tr ++ tr') = published tr ++ published tr'.
Proof. apply flat_map_app. Qed.

Lemma subscriptions_app (tr tr' : list Effect) :
  subscriptions (tr ++ tr') = subscriptions tr ++ subscriptions tr'.
Proof. apply flat_map_app. Qed.

Lemma quiet_emit (e : Effect) :
  published [e] = [] -> frame (P := P) quiet (emit e).
Proof.
  intros He s. split; [reflexivity|].
  unfold emit, modify. cbn [fst trace set_trace].
  now rewrite published_app, He, app_nil_r.
Qed.

Lemma quiet_rtc (conn : nat) (call : RtcCall) : frame (P := P) quiet (rtc conn call).
Proof. intros s. rewrite rtc_eq. destruct (heap s !! conn); now split. Qed.

Lemma quiet_set_readyState (conn : nat) (st : ReadyState) :
  frame (P := P) quiet (set_readyState conn st).
Proof.
  intros s. unfold set_readyState, modify. cbn [fst].
  destruct (heap s !! conn); now split.
Qed.

Lemma same_subscriptions_emit (e : Effect) :
  subscriptions [e] = [] -> frame (P := P) same_subscriptions (emit e).
Proof.
  intros He s. unfold same_subscriptions, emit, modify. cbn [fst trace set_trace].
  now rewrite subscriptions_app, He, app_nil_r.
Qed.

Lemma same_subscriptions_rtc (conn : nat) (call : RtcCall) :
  frame (P := P) same_subscriptions (rtc conn call).
Proof. intros s. rewrite rtc_eq. now destruct (heap s !! conn). Qed.

Lemma same_subscriptions_set_readyState (conn : nat) (st : ReadyState) :
  frame (P := P) same_subscriptions (set_readyState conn st).
Proof.
  intros s. unfold set_readyState, modify. cbn [fst].
  now destruct (heap s !! conn).
Qed.

End Room.

Ltac quiet_leaf :=
  first
    [ apply quiet_rtc
    | apply quiet_set_readyState
    | apply quiet_emit; reflexivity
    | apply frame_modify; solve [intros ?; split; reflexivity]
    | solve [intros ?; split; reflexivity] ].

Ltac subscriptions_leaf :=
  first
    [ apply same_subscriptions_rtc
    | apply same_subscriptions_set_readyState
    | apply same_subscriptions_emit; reflexivity
    | apply frame_modify; solve [intros ?; reflexivity]
    | solve [intros ?; reflexivity] ].

Section RoomFacts.

Context {P : Platform}.

#[local] Existing Instance quiet_preorder.
#[local] Existing Instance same_subscriptions_preorder.
#[local] Existing Instance same_sessions_preorder.

Lemma startConnection_no_room (s : State P) :
  room s = None -> startConnection s = (s, inl NoRoomError).
Proof.
  intros Hroom. unfold startConnection, ensureRoom.
  now rewrite bind_assoc, bind_get, Hroom.
Qed.

Lemma sendSignal_no_room (s : State P) (target : jsstring) (payload : SignalPayload) :
  room s = None -> sendSignal target payload s = (s, inr tt).
Proof. intros Hroom. unfold sendSignal. now rewrite bind_get, Hroom. Qed.

(** Outside a room an input that is not a join leaves the party
    outside, changes no session and publishes nothing. *)
Lemma no_room_step (s : State P) (i : Input) :
  room s = None -> i <> ClickJoinRoom ->
  room (step s i) = None /\ same_sessions s (step s i) /\
  published (trace (step s i)) = published (trace s).
Proof.
  intros Hroom Hjoin.
  assert (Hquiet : quiet s (step s i) ->
            (i <> ClickStartConnection) -> (forall data key, i <> Deliver data key) ->
            room (step s i) = None /\ same_sessions s (step s i) /\
            published (trace (step s i)) = published (trace s)).
  { intros [H1 H2] H3 H4. split; [congruence|]. split; [|assumption].
    now apply same_sessions_step. }
  destruct i; try congruence;
    try (apply Hquiet; [|discriminate|discriminate]); clear Hquiet; cbn [step].
  - now split.
  - now split.
  - unfold exec, catch_console, try_catch. rewrite startConnection_no_room by assumption.
    cbn. rewrite published_app. cbn. rewrite app_nil_r. repeat split. assumption.
  - apply frame_exec. repeat autounfold with handlers. frame_walk quiet_leaf.
  - apply frame_exec. repeat autounfold with handlers. frame_walk quiet_leaf.
  - apply frame_exec. repeat autounfold with handlers. frame_walk quiet_leaf.
  - apply frame_exec. repeat autounfold with handlers. frame_walk quiet_leaf.
  - apply frame_exec. repeat autounfold with handlers. frame_walk quiet_leaf.
  - rewrite Hroom. repeat split. assumption.
  - unfold exec, catch_console, try_catch, onicecandidate. rewrite bind_get.
    destruct (heap s !! conn) as [c|]; [destruct candidate|];
      rewrite ?sendSignal_no_room by assumption; now split.
  - apply frame_exec. frame_walk quiet_leaf.
  - apply frame_exec. repeat autounfold with handlers. frame_walk quiet_leaf.
  - apply frame_exec. repeat autounfold with handlers. frame_walk quiet_leaf.
Qed.

(** Every input but a join leaves the subscriptions as they are. *)
Lemma same_subscriptions_step (s : State P) (i : Input) :
  i <> ClickJoinRoom -> same_subscriptions s (step s i).
Proof.
  intros Hjoin.
  destruct i; cbn [step]; try reflexivity; try congruence;
    try (destruct (room s); [|reflexivity]);
    apply frame_exec; repeat autounfold with handlers;
    frame_walk subscriptions_leaf.
Qed.

Lemma joinRoom_eq (s : State P) :
  joinRoom s =
  let roomId := trim (roomId_value (elements s)) in
  if truthy roomId then
    (set_trace (trace s ++ [ESubscribe roomId (myId s); EStatus (StatusInRoom roomId)])
       (set_signalSeen ∅ (set_room (Some roomId) s)), inr tt)
  else (set_trace (trace s ++ [EAlert AlertEnterRoomId]) s, inr tt).
Proof.
  unfold joinRoom. rewrite bind_get. cbv zeta.
  destruct (truthy (trim (roomId_value (elements s)))); [|reflexivity].
  cbn [negb]. rewrite bind_modify. unfold listenSignals.
  rewrite bind_assoc, bind_get. cbn [room set_room].
  unfold resetSignals. rewrite bind_assoc, bind_modify.
  unfold emit, setStatus, emit. rewrite bind_modify. unfold modify.
  cbn. now rewrite <- app_assoc.
Qed.

End RoomFacts.

(** (X11) Until the party joins a room nothing happens on the signaling
    channel: whatever else is clicked and whatever the transport
    reports, the party stays outside, no session is recorded, no
    connection object is created and no signaling event is published; a
    start of a connection is refused with ['Сначала войдите в room']. *)
Theorem nothing_before_join {P : Platform} (s : State P) (inputs : list Input) :
  room s = None -> Forall (fun i => i <> ClickJoinRoom) inputs ->
  room (run s inputs) = None /\
  same_sessions s (run s inputs) /\
  published (trace (run s inputs)) = published (trace s) /\
  step s ClickStartConnection
  = set_trace (trace s ++ [EConsoleError NoRoomError]) s.
Proof.
  intros Hroom Hin.
  assert (Hrun : room (run s inputs) = None /\ same_sessions s (run s inputs) /\
                 published (trace (run s inputs)) = published (trace s)).
  { revert s Hroom. induction Hin as [|i inputs Hi _ IH]; intros s Hroom.
    - repeat split. assumption.
    - cbn [run fold_left].
      destruct (no_room_step s i Hroom Hi) as (H1 & [H2 H3] & H4).
      destruct (IH (step s i) H1) as (H5 & [H6 H7] & H8).
      fold (run (step s i) inputs) in *.
      split; [assumption|]. split; [split; congruence|congruence]. }
  destruct Hrun as (H1 & H2 & H3). repeat split; try assumption; try apply H2.
  cbn [step]. unfold exec, catch_console, try_catch.
  now rewrite startConnection_no_room.
Qed.

(** (X12) The mailbox is subscribed to by a join and by nothing else,
    under the identifier the party has at that moment: a join with a
    room name subscribes to the mailbox of [myId] in that room, a join
    without one only asks for the name, and no other input subscribes,
    so after [importSeed] or [regenerate] has changed the identifier the
    party still listens to the mailbox of the old one until it joins
    again. *)
Theorem subscription_only_on_join {P : Platform} (s : State P) :
  (forall inputs, Forall (fun i => i <> ClickJoinRoom) inputs ->
     subscriptions (trace (run s inputs)) = subscriptions (trace s)) /\
  (truthy (trim (roomId_value (elements s))) = true ->
   subscriptions (trace (step s ClickJoinRoom))
   = subscriptions (trace s) ++ [(trim (roomId_value (elements s)), myId s)]) /\
  (truthy (trim (roomId_value (elements s))) = false ->
   step s ClickJoinRoom = set_trace (trace s ++ [EAlert AlertEnterRoomId]) s).
Proof.
  split; [|split].
  - intros inputs Hin. revert s. induction Hin as [|i inputs Hi _ IH]; intros s.
    + reflexivity.
    + cbn [run fold_left]. fold (run (step s i) inputs). rewrite IH.
      now apply same_subscriptions_step.
  - intros Hroom. cbn [step]. unfold exec, catch_console, try_catch.
    rewrite joinRoom_eq. cbv zeta. rewrite Hroom. cbn [fst trace set_trace].
    now rewrite subscriptions_app.
  - intros Hroom. cbn [step]. unfold exec, catch_console, try_catch.
    rewrite joinRoom_eq. cbv zeta. now rewrite Hroom.
Qed.

(** (X13) Sessions come from signaling only: an input that is neither a
    start of a connection nor a delivery from the mailbox records no
    session, replaces none and creates no connection object. *)
Theorem sessions_only_from_signaling {P : Platform} (s : State P)
    (inputs : list Input) :
  Forall (fun i => i <> ClickStartConnection /\ forall data key, i <> Deliver data key)
    inputs ->
  same_sessions s (run s inputs).
Proof.
  intros Hin. revert s. induction Hin as [|i inputs [H1 H2] _ IH]; intros s.
  - now split.
  - cbn [run fold_left]. fold (run (step s i) inputs).
    destruct (same_sessions_step s i H1 H2) as [H3 H4].
    destruct (IH (step s i)) as [H5 H6]. split; congruence.
Qed.

(** ** Sessions: what is recorded, and for whom *)

Section SessionsMore.

Context {P : Platform}.

#[local] Existing Instance keys_fixed_preorder.
#[local] Existing Instance same_sessions_preorder.
#[local] Existing Instance preserves_preorder.

Lemma same_sessions_offer_actions (peerId : jsstring) (conn : nat) :
  frame (P := P) same_sessions (offer_actions peerId conn).
Proof.
  unfold offer_actions. repeat autounfold with handlers. frame_walk sessions_leaf.
Qed.

Lemma keys_fixed_offer_actions (peerId : jsstring) (conn : nat) :
  frame (P := P) keys_fixed (offer_actions peerId conn).
Proof.
  unfold offer_actions. repeat autounfold with handlers. frame_walk keys_leaf.
Qed.

(** [startConnection]: refused outside a room; with the identifier or
    the key missing it only asks for them; when the key derivation
    fails it fails and leaves the state as it was; otherwise the new
    object is recorded for the peer and the offer is made. *)
Lemma startConnection_eq (s : State P) :
  startConnection s =
  match room s with
  | None => (s, inl NoRoomError)
  | Some _ =>
      let peerId := trim (peerId_value (elements s)) in
      let peerPubB64 := trim (peerPub_value (elements s)) in
      if negb (truthy peerId) || negb (truthy peerPubB64)
      then (set_trace (trace s ++ [EAlert AlertNeedIdAndKey]) s, inr tt)
      else
        match session_key peerPubB64 s with
        | inl e => (s, inl e)
        | inr key =>
            offer_actions peerId (fresh (dom (heap s))) (with_session peerId key s)
        end
  end.
Proof.
  unfold startConnection, ensureRoom. rewrite bind_assoc, bind_get.
  destruct (room s); [|reflexivity].
  rewrite bind_ret, bind_get. cbv zeta.
  destruct (negb (truthy (trim (peerId_value (elements s))))
            || negb (truthy (trim (peerPub_value (elements s))))); [reflexivity|].
  unfold bind at 1. rewrite createConnection_eq.
  destruct (session_key _ s) as [e|key]; [reflexivity|].
  unfold connections_set. now rewrite bind_modify.
Qed.

Lemma handleSignal_new_session (data : SignalData) (s : State P) :
  negb (truthy (sig_from data)) || bool_decide (sig_from data = myId s) = false ->
  map_get (connections s) (sig_from data) = None ->
  handleSignal data s =
  match session_key (sig_pub data) s with
  | inl e => (s, inl e)
  | inr key =>
      signal_actions data (fresh (dom (heap s))) (with_session (sig_from data) key s)
  end.
Proof. apply handleSignal_unknown. Qed.

Lemma wf_same (s s' : State P) :
  connections s' = connections s -> heap s' = heap s ->
  sessions_wf s -> sessions_wf s'.
Proof. intros H1 H2 H p r. rewrite H1, H2. apply H. Qed.

Lemma wf_transfer (s s' : State P) :
  sessions_wf s -> keys_fixed s s' -> connections s' = connections s ->
  sessions_wf s'.
Proof.
  intros Hwf Hkeys Hconn p r Hp. rewrite Hconn in Hp.
  destruct (Hwf p r Hp) as (Ht & c & Hc & Hpid).
  destruct (Hkeys r c Hc) as (c' & Hc' & _ & Hpid').
  split; [assumption|]. exists c'. split; [assumption|congruence].
Qed.

Lemma wf_with_session (s : State P) (p : jsstring) (key : option (AesKey P)) :
  sessions_wf s -> truthy p = true -> sessions_wf (with_session p key s).
Proof.
  intros Hwf Hp q r. unfold with_session.
  cbn [connections heap set_connections set_heap].
  destruct (decide (p = q)) as [<-|Hne].
  - rewrite map_get_set_same. intros [= <-]. split; [assumption|].
    exists (new_conn p key). now rewrite lookup_insert_eq.
  - rewrite map_get_set_other by assumption. intros Hq.
    destruct (Hwf q r Hq) as (Ht & c & Hc & Hpid).
    split; [assumption|]. exists c. split; [|assumption].
    rewrite lookup_insert_ne; [assumption|].
    intros <-. apply (is_fresh (dom (heap s))). apply elem_of_dom. eauto.
Qed.

Lemma wf_startConnection (s : State P) :
  sessions_wf s -> sessions_wf (exec startConnection s).
Proof.
  intros Hwf. unfold exec. rewrite startConnection_eq.
  destruct (room s); [|exact Hwf]. cbv zeta.
  destruct (truthy (trim (peerId_value (elements s)))) eqn:Hid; [|exact Hwf].
  destruct (truthy (trim (peerPub_value (elements s)))); [|exact Hwf].
  cbn [negb orb].
  destruct (session_key _ s) as [e|key]; [exact Hwf|].
  apply (wf_transfer (with_session (trim (peerId_value (elements s))) key s)).
  - apply wf_with_session; assumption.
  - apply keys_fixed_offer_actions.
  - apply same_sessions_offer_actions.
Qed.

Lemma wf_handleSignal (data : SignalData) (s : State P) :
  sessions_wf s -> sessions_wf (exec (handleSignal data) s).
Proof.
  intros Hwf. unfold exec.
  destruct (negb (truthy (sig_from data)) || bool_decide (sig_from data = myId s))
    eqn:Hguard.
  { rewrite handleSignal_guard by assumption. exact Hwf. }
  destruct (map_get (connections s) (sig_from data)) as [conn|] eqn:Hget.
  - rewrite (handleSignal_known data s conn) by assumption.
    eapply wf_transfer; [exact Hwf| |].
    + apply keys_fixed_signal_actions.
    + apply same_sessions_signal_actions.
  - rewrite handleSignal_new_session by assumption.
    destruct (session_key _ s) as [e|key]; [exact Hwf|].
    apply (wf_transfer (with_session (sig_from data) key s)).
    + apply wf_with_session; [exact Hwf|].
      apply orb_false_iff in Hguard as [Hguard _].
      now apply negb_false_iff in Hguard.
    + apply keys_fixed_signal_actions.
    + apply same_sessions_signal_actions.
Qed.

Lemma wf_step (s : State P) (i : Input) : sessions_wf s -> sessions_wf (step s i).
Proof.
  intros Hwf.
  assert (Hother : i <> ClickStartConnection -> (forall data key, i <> Deliver data key) ->
                   sessions_wf (step s i)).
  { intros H1 H2. eapply wf_transfer; [exact Hwf|apply keys_fixed_step|].
    now apply same_sessions_step. }
  destruct i; try (apply Hother; discriminate); clear Hother; cbn [step].
  - destruct (catch_console_connections startConnection s) as [H1 H2].
    eapply wf_same; [exact H1|exact H2|]. now apply wf_startConnection.
  - destruct (room s); [|exact Hwf].
    destruct data as [d|]; [|exact Hwf].
    rewrite onSignal_eq.
    destruct (negb (truthy (sig_type d)) || bool_decide (key ∈ signalSeen s));
      [exact Hwf|].
    set (s1 := set_trace _ _).
    destruct (catch_console_connections (handleSignal d) s1) as [H1 H2].
    eapply wf_same; [exact H1|exact H2|]. apply wf_handleSignal. exact Hwf.
Qed.

Lemma wf_init : frame (P := P) (preserves sessions_wf) init.
Proof.
  intros s Hwf. rewrite init_eq.
  destruct (has_item _ _ && has_item _ _).
  - destruct (stored_bytes storageKeys_priv s); [|exact Hwf].
    destruct (stored_bytes storageKeys_pub s); exact Hwf.
  - destruct (getPublicKey P _); exact Hwf.
Qed.

End SessionsMore.

(** (X14) In every state the program reaches, every session is recorded
    under a peer identifier that is not empty and refers to a connection
    object that exists and that was created for that very peer: the
    connections map never holds a dangling or a misfiled session. *)
Theorem sessions_well_formed {P : Platform} storage els rnd now inputs :
  sessions_wf (launch (P := P) storage els rnd now inputs).
Proof.
  apply launch_invariant.
  - intros p r H. discriminate.
  - apply wf_init.
  - intros s e H. exact H.
  - apply wf_step.
Qed.

(** (X15) A signaling event of a peer that has a session goes to that
    session and to no other: no session is recorded or replaced, no
    connection object is created, the session keeps the key it had, and
    the public key the event carries is not read. *)
Theorem known_sender_keeps_session {P : Platform} (s : State P)
    (data : SignalData) (conn : nat) (c : Conn P) :
  truthy (sig_from data) = true -> sig_from data <> myId s ->
  map_get (connections s) (sig_from data) = Some conn ->
  heap s !! conn = Some c ->
  same_sessions s (exec (handleSignal data) s) /\
  (exists c', heap (exec (handleSignal data) s) !! conn = Some c' /\
              aesKey c' = aesKey c) /\
  (forall pub',
     handleSignal {| sig_type := sig_type data; sig_from := sig_from data;
                     sig_pub := pub'; sig_sdp := sig_sdp data;
                     sig_candidate := sig_candidate data |} s
     = handleSignal data s).
Proof.
  intros Hfrom Hself Hget Hc.
  pose proof (guard_false data s Hfrom Hself) as Hguard.
  unfold exec. rewrite (handleSignal_known data s conn Hguard Hget).
  split; [apply same_sessions_signal_actions|]. split.
  - destruct (keys_fixed_signal_actions data conn s conn c Hc) as (c' & H1 & H2 & _).
    eauto.
  - intros pub'.
    now rewrite (handleSignal_known
                   {| sig_type := sig_type data; sig_from := sig_from data;
                      sig_pub := pub'; sig_sdp := sig_sdp data;
                      sig_candidate := sig_candidate data |} s conn Hguard Hget).
Qed.

(** ** The handshake *)

Section Handshake.

Context {P : Platform}.

#[local] Existing Instance keys_fixed_preorder.
#[local] Existing Instance same_sessions_preorder.

Lemma with_conn_twice (conn : nat) (c1 c2 : Conn P) (s : State P) :
  with_conn conn c2 (with_conn conn c1 s) = with_conn conn c2 s.
Proof.
  unfold with_conn. cbn [heap set_heap]. rewrite insert_insert_eq.
  reflexivity.
Qed.

Lemma after_calls_twice (c : Conn P) (l1 l2 : list RtcCall) :
  after_calls (after_calls c l1) l2 = after_calls c (l1 ++ l2).
Proof. unfold after_calls. cbn. now rewrite app_assoc. Qed.

(** A call on the [peer] of an object the heap holds. *)
Lemma rtc_after (conn : nat) (call : RtcCall) (s : State P) (c : Conn P) :
  heap s !! conn = Some c ->
  rtc conn call s =
  (with_conn conn (after_calls c [call]) s,
   if rtc_accepts P (calls c) call then inr (rtc_sdp P (calls c))
   else inl TransportError).
Proof. intros Hc. now rewrite rtc_eq, Hc. Qed.

Lemma rtc_with_conn (conn : nat) (call : RtcCall) (s : State P) (c : Conn P) :
  rtc conn call (with_conn conn c s) =
  (with_conn conn (after_calls c [call]) s,
   if rtc_accepts P (calls c) call then inr (rtc_sdp P (calls c))
   else inl TransportError).
Proof.
  rewrite (rtc_after conn call (with_conn conn c s) c).
  - now rewrite with_conn_twice.
  - unfold with_conn. cbn [heap set_heap]. apply lookup_insert_eq.
Qed.

Lemma sendSignal_in_room (target : jsstring) (payload : SignalPayload)
    (s : State P) (r : jsstring) :
  room s = Some r ->
  sendSignal target payload s =
  (set_trace (trace s ++ [ESignal r target payload (myId s) (clock s)]) s, inr tt).
Proof. intros Hr. unfold sendSignal. now rewrite bind_get, Hr. Qed.

(** The offer: [createOffer], [setLocalDescription], the signaling
    event and the status, or the transport's refusal at the first call
    it refuses. *)
Lemma offer_actions_eq (peerId : jsstring) (conn : nat) (s : State P)
    (c : Conn P) (r : jsstring) :
  heap s !! conn = Some c -> room s = Some r ->
  offer_actions peerId conn s =
  let offer := rtc_sdp P (calls c) in
  let local := SetLocalDescription SdpOffer offer in
  if rtc_accepts P (calls c) CreateOffer then
    if rtc_accepts P (calls c ++ [CreateOffer]) local then
      (set_trace
         (trace s ++ [ESignal r peerId (OfferPayload offer (myPubB64 s)) (myId s) (clock s);
                      EStatus (StatusOfferSent peerId)])
         (with_conn conn (after_calls c [CreateOffer; local]) s), inr tt)
    else (with_conn conn (after_calls c [CreateOffer; local]) s, inl TransportError)
  else (with_conn conn (after_calls c [CreateOffer]) s, inl TransportError).
Proof.
  intros Hc Hr. cbv zeta. unfold offer_actions.
  unfold bind at 1. rewrite (rtc_after _ _ _ _ Hc).
  destruct (rtc_accepts P (calls c) CreateOffer); [|reflexivity].
  unfold bind at 1. rewrite rtc_with_conn, after_calls_twice.
  cbn [calls after_calls app].
  destruct (rtc_accepts P (calls c ++ [CreateOffer]) _); [|reflexivity].
  rewrite bind_get. unfold bind at 1.
  rewrite (sendSignal_in_room _ _ _ r) by exact Hr.
  unfold setStatus, emit, modify. cbn. now rewrite <- app_assoc.
Qed.

(** An offer that is read: [setRemoteDescription], [createAnswer],
    [setLocalDescription], the answer as a signaling event to the
    sender and the status, or the transport's refusal at the first call
    it refuses. *)
Lemma signal_actions_offer (data : SignalData) (conn : nat) (s : State P)
    (c : Conn P) (r : jsstring) :
  sig_type data = lit "offer" -> heap s !! conn = Some c -> room s = Some r ->
  signal_actions data conn s =
  let remote := SetRemoteDescription SdpOffer (sig_sdp data) in
  let answer := rtc_sdp P (calls c ++ [remote]) in
  let local := SetLocalDescription SdpAnswer answer in
  if rtc_accepts P (calls c) remote then
    if rtc_accepts P (calls c ++ [remote]) CreateAnswer then
      if rtc_accepts P (calls c ++ [remote; CreateAnswer]) local then
        (set_trace
           (trace s ++ [ESignal r (sig_from data) (AnswerPayload answer (myPubB64 s))
                          (myId s) (clock s);
                        EStatus (StatusAnswerSent (sig_from data))])
           (with_conn conn (after_calls c [remote; CreateAnswer; local]) s), inr tt)
      else (with_conn conn (after_calls c [remote; CreateAnswer; local]) s,
            inl TransportError)
    else (with_conn conn (after_calls c [remote; CreateAnswer]) s, inl TransportError)
  else (with_conn conn (after_calls c [remote]) s, inl TransportError).
Proof.
  intros Htype Hc Hr. cbv zeta. unfold signal_actions. cbv zeta. rewrite Htype.
  change (bool_decide (lit "offer" = lit "offer")) with true.
  change (bool_decide (lit "offer" = lit "answer")) with false.
  change (bool_decide (lit "offer" = lit "ice")) with false.
  cbv beta iota. rewrite !bind_assoc.
  unfold bind at 1. rewrite (rtc_after _ _ _ _ Hc).
  destruct (rtc_accepts P (calls c) _); [|reflexivity].
  rewrite !bind_assoc.
  unfold bind at 1. rewrite rtc_with_conn, after_calls_twice.
  cbn [calls after_calls app].
  destruct (rtc_accepts P (calls c ++ [_]) CreateAnswer); [|reflexivity].
  rewrite !bind_assoc.
  unfold bind at 1. rewrite rtc_with_conn, after_calls_twice.
  cbn [calls after_calls app].
  destruct (rtc_accepts P _ (SetLocalDescription _ _)); [|reflexivity].
  rewrite !bind_assoc, bind_get. rewrite !bind_assoc. unfold bind at 1.
  rewrite (sendSignal_in_room _ _ _ r) by exact Hr.
  unfold setStatus, emit, modify. cbn. now rewrite <- app_assoc.
Qed.



Lemma fresh_not_in_heap (s : State P) : heap s !! fresh (dom (heap s)) = None.
Proof. apply not_elem_of_dom, is_fresh. Qed.

Lemma heap_with_session (peerId : jsstring) (key : option (AesKey P)) (s : State P) :
  heap (with_session peerId key s) !! fresh (dom (heap s)) = Some (new_conn peerId key).
Proof. unfold with_session. cbn [heap set_connections set_heap]. apply lookup_insert_eq. Qed.

(** What a click on the start button leaves when the key derivation
    succeeds. *)
Lemma start_step (s : State P) (r : jsstring) (key : AesKey P) :
  room s = Some r ->
  truthy (trim (peerId_value (elements s))) = true ->
  session_key (trim (peerPub_value (elements s))) s = inr (Some key) ->
  step s ClickStartConnection =
  exec (catch_console
          (offer_actions (trim (peerId_value (elements s))) (fresh (dom (heap s)))))
    (with_session (trim (peerId_value (elements s))) (Some key) s).
Proof.
  intros Hr Hid Hkey. cbn [step]. unfold exec, catch_console, try_catch.
  rewrite startConnection_eq, Hr. cbv zeta. rewrite Hid, Hkey.
  assert (Hpub : truthy (trim (peerPub_value (elements s))) = true).
  { unfold session_key in Hkey.
    destruct (truthy (trim (peerPub_value (elements s)))); [reflexivity|discriminate]. }
  now rewrite Hpub.
Qed.

End Handshake.

(** (X16) A connection the user starts, in a room, to a peer whose key
    derives: a new connection object with the derived key is recorded as
    the session of the peer, in the place of the session the peer had if
    it had one, whose object stays as it was; then the offer is made and
    published with the party's own public key. The session is recorded
    before the offer is made: when the transport refuses [createOffer]
    or [setLocalDescription] the error goes to the console, nothing is
    published and the session stays recorded. *)
Theorem start_connection_records_session {P : Platform} (s : State P)
    (r : jsstring) (key : AesKey P) :
  room s = Some r ->
  truthy (trim (peerId_value (elements s))) = true ->
  session_key (trim (peerPub_value (elements s))) s = inr (Some key) ->
  let peerId := trim (peerId_value (elements s)) in
  let conn := fresh (dom (heap s)) in
  let offer := rtc_sdp P [CreateDataChannel] in
  let local := SetLocalDescription SdpOffer offer in
  let s' := step s ClickStartConnection in
  heap s !! conn = None /\
  connections s' = map_set (connections s) peerId conn /\
  (forall old, old <> conn -> heap s' !! old = heap s !! old) /\
  if rtc_accepts P [CreateDataChannel] CreateOffer then
    heap s' !! conn
    = Some (after_calls (new_conn peerId (Some key)) [CreateOffer; local]) /\
    if rtc_accepts P [CreateDataChannel; CreateOffer] local then
      trace s' = trace s ++ [ESignal r peerId (OfferPayload offer (myPubB64 s))
                               (myId s) (clock s);
                             EStatus (StatusOfferSent peerId)]
    else trace s' = trace s ++ [EConsoleError TransportError]
  else
    heap s' !! conn = Some (after_calls (new_conn peerId (Some key)) [CreateOffer]) /\
    trace s' = trace s ++ [EConsoleError TransportError].
Proof.
  intros Hr Hid Hkey. cbv zeta. rewrite (start_step s r key Hr Hid Hkey).
  unfold exec, catch_console, try_catch.
  rewrite (offer_actions_eq _ _ _ _ r
             (heap_with_session (trim (peerId_value (elements s))) (Some key) s) Hr).
  cbv zeta. cbn [calls new_conn app].
  split; [apply fresh_not_in_heap|].
  assert (Hold : forall c' old, old <> fresh (dom (heap s)) ->
            <[fresh (dom (heap s)) := c']>
              (<[fresh (dom (heap s))
                 := new_conn (trim (peerId_value (elements s))) (Some key)]> (heap s))
            !! old = heap s !! old).
  { intros c' old Hne. now rewrite !lookup_insert_ne by congruence. }
  destruct (rtc_accepts P [CreateDataChannel] CreateOffer);
    [destruct (rtc_accepts P [CreateDataChannel; CreateOffer] _)|];
    cbn [fst emit modify connections heap trace with_conn with_session
         set_trace set_heap set_connections];
    (split; [reflexivity|]); (split; [apply Hold|]);
    rewrite ?lookup_insert_eq; split; reflexivity.
Qed.

Section Answer.

Context {P : Platform}.

#[local] Existing Instance keys_fixed_preorder.
#[local] Existing Instance same_sessions_preorder.

(** The key of a new session depends on the key pair in memory and on
    the room field, and on nothing else of the state. *)
Lemma session_key_frame (peerPubB64 : jsstring) (s s' : State P) :
  myKeyPair s' = myKeyPair s -> elements s' = elements s ->
  session_key peerPubB64 s' = session_key peerPubB64 s.
Proof.
  intros H1 H2. unfold session_key, roomSalt. rewrite H2.
  destruct (truthy peerPubB64); [|reflexivity].
  unfold deriveAesKey, bind, orThrow, get, ret, throw.
  destruct (fromB64 peerPubB64); [|reflexivity]. cbv beta iota. rewrite H1.
  destruct (myKeyPair s) as [me|]; [|reflexivity]. cbv beta iota.
  now destruct (getSharedSecret P (priv me) _).
Qed.

(** A first event of a sender, read from the mailbox: the key is
    marked, the call is counted, the session is recorded and the event
    is applied to it. *)
Lemma deliver_new_sender (s : State P) (data : SignalData) (key : jsstring)
    (r : jsstring) (k : option (AesKey P)) :
  room s = Some r -> truthy (sig_type data) = true -> key ∉ signalSeen s ->
  truthy (sig_from data) = true -> sig_from data <> myId s ->
  map_get (connections s) (sig_from data) = None ->
  session_key (sig_pub data) s = inr k ->
  step s (Deliver (Some data) key) =
  exec (catch_console (signal_actions data (fresh (dom (heap s)))))
    (with_session (sig_from data) k
       (set_trace (trace s ++ [HandleSignal key])
          (set_signalSeen ({[key]} ∪ signalSeen s) s))).
Proof.
  intros Hr Htype Hseen Hfrom Hself Hget Hkey. cbn [step]. rewrite Hr, onSignal_eq.
  rewrite Htype, bool_decide_eq_false_2 by assumption. cbn [negb orb].
  set (s1 := set_trace _ _).
  unfold exec, catch_console, try_catch.
  rewrite (handleSignal_new_session data s1 (guard_false data s1 Hfrom Hself) Hget).
  rewrite (session_key_frame (sig_pub data) s s1) by reflexivity.
  now rewrite Hkey.
Qed.

Lemma new_sender_session (s : State P) (data : SignalData) (key : jsstring)
    (r : jsstring) (k : option (AesKey P)) :
  room s = Some r -> truthy (sig_type data) = true -> key ∉ signalSeen s ->
  truthy (sig_from data) = true -> sig_from data <> myId s ->
  map_get (connections s) (sig_from data) = None ->
  session_key (sig_pub data) s = inr k ->
  connections (step s (Deliver (Some data) key))
  = connections s ++ [(sig_from data, fresh (dom (heap s)))] /\
  exists c, heap (step s (Deliver (Some data) key)) !! fresh (dom (heap s)) = Some c /\
            conn_peerId c = sig_from data /\ aesKey c = k.
Proof.
  intros Hr Htype Hseen Hfrom Hself Hget Hkey.
  rewrite (deliver_new_sender s data key r k) by assumption.
  set (s1 := set_trace _ _). set (s2 := with_session _ _ _).
  destruct (catch_console_connections (signal_actions data (fresh (dom (heap s)))) s2)
    as [-> ->].
  unfold exec.
  destruct (same_sessions_signal_actions data (fresh (dom (heap s))) s2) as [-> _].
  split.
  - subst s2 s1. unfold with_session. cbn [connections set_connections set_heap set_trace
                                            set_signalSeen].
    now apply map_set_absent.
  - destruct (keys_fixed_signal_actions data (fresh (dom (heap s))) s2
                (fresh (dom (heap s))) (new_conn (sig_from data) k))
      as (c & Hc & Hk & Hp).
    { exact (heap_with_session (sig_from data) k s1). }
    exists c. split; [exact Hc|]. split; assumption.
Qed.

End Answer.

(** (X17) An offer of a peer that has no session, read from the mailbox:
    a session is recorded for the sender, after the sessions already
    there, with the key derived from the offer's public key, or with no
    key when the offer carries none; when the transport accepts the
    three calls the answer is published to the sender with the party's
    own public key; when it refuses the offer nothing is published, the
    error goes to the console and the session stays recorded. *)
Theorem offer_is_answered {P : Platform} (s : State P) (data : SignalData)
    (key r : jsstring) (k : option (AesKey P)) :
  room s = Some r -> sig_type data = lit "offer" -> key ∉ signalSeen s ->
  truthy (sig_from data) = true -> sig_from data <> myId s ->
  map_get (connections s) (sig_from data) = None ->
  session_key (sig_pub data) s = inr k ->
  let conn := fresh (dom (heap s)) in
  let remote := SetRemoteDescription SdpOffer (sig_sdp data) in
  let answer := rtc_sdp P [CreateDataChannel; remote] in
  let local := SetLocalDescription SdpAnswer answer in
  let s' := step s (Deliver (Some data) key) in
  connections s' = connections s ++ [(sig_from data, conn)] /\
  (exists c, heap s' !! conn = Some c /\ conn_peerId c = sig_from data /\ aesKey c = k) /\
  (rtc_accepts P [CreateDataChannel] remote = true ->
   rtc_accepts P [CreateDataChannel; remote] CreateAnswer = true ->
   rtc_accepts P [CreateDataChannel; remote; CreateAnswer] local = true ->
   heap s' !! conn
   = Some (after_calls (new_conn (sig_from data) k) [remote; CreateAnswer; local]) /\
   trace s' = trace s ++ [HandleSignal key;
                          ESignal r (sig_from data) (AnswerPayload answer (myPubB64 s))
                            (myId s) (clock s);
                          EStatus (StatusAnswerSent (sig_from data))]) /\
  (rtc_accepts P [CreateDataChannel] remote = false ->
   trace s' = trace s ++ [HandleSignal key; EConsoleError TransportError]).
Proof.
  intros Hr Htype Hseen Hfrom Hself Hget Hkey. cbv zeta.
  assert (Htruthy : truthy (sig_type data) = true) by now rewrite Htype.
  destruct (new_sender_session s data key r k) as [H1 H2]; try assumption.
  split; [exact H1|]. split; [exact H2|].
  rewrite (deliver_new_sender s data key r k) by assumption.
  set (s1 := set_trace _ _).
  unfold exec, catch_console, try_catch.
  rewrite (signal_actions_offer data (fresh (dom (heap s)))
             (with_session (sig_from data) k s1) (new_conn (sig_from data) k) r Htype
             (heap_with_session (sig_from data) k s1) Hr).
  cbv zeta. cbn [calls new_conn app]. split.
  - intros -> -> ->.
    cbn [fst heap trace with_conn with_session set_trace set_heap set_connections].
    rewrite lookup_insert_eq. split; [reflexivity|].
    subst s1. cbn [trace set_trace]. now rewrite <- app_assoc.
  - intros ->. cbn. now rewrite <- app_assoc.
Qed.


(** ** Messages: from the sender's field to the receiver's list *)

Section Messages.

Context {P : Platform}.

#[local] Existing Instance keys_fixed_preorder.

#[local] Instance same_displayed_preorder : PreOrder (same_displayed (P := P)).
Proof.
  split.
  - intros s. reflexivity.
  - intros s1 s2 s3 H1 H2. unfold same_displayed in *. congruence.
Qed.

Lemma sent_app (tr tr' : list Effect) : sent (tr ++ tr') = sent tr ++ sent tr'.
Proof. apply flat_map_app. Qed.

Lemma displayed_app (tr tr' : list Effect) :
  displayed (tr ++ tr') = displayed tr ++ displayed tr'.
Proof. apply flat_map_app. Qed.



Lemma same_displayed_emit (e : Effect) :
  displayed [e] = [] -> frame (P := P) same_displayed (emit e).
Proof.
  intros He s. unfold same_displayed, emit, modify. cbn [fst trace set_trace].
  now rewrite displayed_app, He, app_nil_r.
Qed.

Lemma same_displayed_rtc (conn : nat) (call : RtcCall) :
  frame (P := P) same_displayed (rtc conn call).
Proof. intros s. rewrite rtc_eq. now destruct (heap s !! conn). Qed.

Lemma same_displayed_set_readyState (conn : nat) (st : ReadyState) :
  frame (P := P) same_displayed (set_readyState conn st).
Proof.
  intros s. unfold set_readyState, modify. cbn [fst].
  now destruct (heap s !! conn).
Qed.

(** [decryptMessage] changes nothing. *)
Lemma decryptMessage_state (key : AesKey P) (payload : Payload) (s : State P) :
  decryptMessage key payload s = (s, snd (decryptMessage key payload s)).
Proof.
  unfold decryptMessage, bind, orThrow, ret, throw.
  destruct (fromB64 (payload_iv payload)) as [iv|]; [|reflexivity]. cbv beta iota.
  destruct (fromB64 (payload_data payload)) as [ct|]; [|reflexivity]. cbv beta iota.
  now destruct (aes_gcm_decrypt P key iv ct).
Qed.

(** What a message on a data channel leaves: a notice when the session
    has no key, whatever the message is; an error on the console when
    the message is not JSON, is not base64 or does not decrypt; the text
    otherwise. Nothing but the trace changes. *)
Lemma onmessage_step (s : State P) (conn : nat) (data : option Payload) :
  step s (ChannelMessage conn data) =
  match heap s !! conn with
  | None => s
  | Some c =>
      set_trace
        (trace s ++
           [match aesKey c with
            | None => EAddMessage (Peer (conn_peerId c)) KeyNotReady
            | Some key =>
                match data with
                | None => EConsoleError SyntaxError
                | Some payload =>
                    match snd (decryptMessage key payload s) with
                    | inl e => EConsoleError e
                    | inr text => EAddMessage (Peer (conn_peerId c)) (Text text)
                    end
                end
            end]) s
  end.
Proof.
  cbn [step]. unfold exec, catch_console, try_catch, onmessage. rewrite bind_get.
  destruct (heap s !! conn) as [c|]; [|reflexivity].
  destruct (aesKey c) as [key|]; [|reflexivity].
  destruct data as [payload|]; [|reflexivity].
  cbn [orThrow]. rewrite bind_ret. unfold bind. rewrite decryptMessage_state.
  now destruct (snd (decryptMessage key payload s)).
Qed.

End Messages.

Ltac displayed_leaf :=
  first
    [ apply same_displayed_rtc
    | apply same_displayed_set_readyState
    | apply same_displayed_emit; reflexivity
    | apply frame_modify; solve [intros ?; reflexivity]
    | solve [intros ?; reflexivity] ].

Section MessagesMore.

Context {P : Platform}.

#[local] Existing Instance keys_fixed_preorder.
#[local] Existing Instance same_displayed_preorder.

(** Every input but a message on a data channel displays no text as
    received. *)
Lemma same_displayed_step (s : State P) (i : Input) :
  (forall conn data, i <> ChannelMessage conn data) -> same_displayed s (step s i).
Proof.
  intros Hmsg.
  destruct i; cbn [step]; try reflexivity;
    try (exfalso; eapply Hmsg; reflexivity);
    try (destruct (room s); [|reflexivity]);
    apply frame_exec; repeat autounfold with handlers;
    frame_walk displayed_leaf.
Qed.

(** A text one turn displays as received was decrypted under the key
    of the session whose channel delivered it. *)
Lemma displayed_step (s : State P) (i : Input) (p t : jsstring) :
  In (p, t) (displayed (trace (step s i))) ->
  In (p, t) (displayed (trace s)) \/
  exists conn c key iv data plain,
    heap s !! conn = Some c /\ conn_peerId c = p /\ aesKey c = Some key /\
    aes_gcm_decrypt P key iv data = Some plain /\ t = Utf8.decode plain.
Proof.
  assert (Hcase : (exists conn data, i = ChannelMessage conn data) \/
                   (forall conn data, i <> ChannelMessage conn data)).
  { destruct i; try (right; discriminate). left; eauto. }
  destruct Hcase as [(conn & data & ->)|Hother].
  2:{ rewrite (same_displayed_step s i Hother). auto. }
  rewrite onmessage_step.
  destruct (heap s !! conn) as [c|] eqn:Hc; [|auto].
  cbn [trace set_trace]. rewrite displayed_app. intros Hin.
  apply in_app_or in Hin as [Hin|Hin]; [now left|]. right.
  destruct (aesKey c) as [key|] eqn:Hkey; [|destruct Hin].
  destruct data as [payload|]; [|destruct Hin].
  unfold decryptMessage, bind, orThrow, ret, throw in Hin.
  destruct (fromB64 (payload_iv payload)) as [iv|]; [|destruct Hin].
  cbv beta iota in Hin.
  destruct (fromB64 (payload_data payload)) as [ct|]; [|destruct Hin].
  cbv beta iota in Hin.
  destruct (aes_gcm_decrypt P key iv ct) as [plain|] eqn:Hplain; [|destruct Hin].
  cbn in Hin. destruct Hin as [[= <- <-]|[]].
  exists conn, c, key, iv, ct, plain. auto.
Qed.

End MessagesMore.


Section Sent.

Context {P : Platform}.

#[local] Existing Instance keys_fixed_preorder.

#[local] Instance same_sent_preorder : PreOrder (same_sent (P := P)).
Proof.
  split.
  - intros s. reflexivity.
  - intros s1 s2 s3 H1 H2. unfold same_sent in *. congruence.
Qed.

Lemma same_sent_emit (e : Effect) :
  sent [e] = [] -> frame (P := P) same_sent (emit e).
Proof.
  intros He s. unfold same_sent, emit, modify. cbn [fst trace set_trace].
  now rewrite sent_app, He, app_nil_r.
Qed.

Lemma same_sent_rtc (conn : nat) (call : RtcCall) :
  frame (P := P) same_sent (rtc conn call).
Proof. intros s. rewrite rtc_eq. now destruct (heap s !! conn). Qed.

Lemma same_sent_set_readyState (conn : nat) (st : ReadyState) :
  frame (P := P) same_sent (set_readyState conn st).
Proof.
  intros s. unfold set_readyState, modify. cbn [fst].
  now destruct (heap s !! conn).
Qed.

End Sent.

Ltac sent_leaf :=
  first
    [ apply same_sent_rtc
    | apply same_sent_set_readyState
    | apply same_sent_emit; reflexivity
    | apply frame_modify; solve [intros ?; reflexivity]
    | solve [intros ?; reflexivity] ].

Section SentMore.

Context {P : Platform}.

#[local] Existing Instance keys_fixed_preorder.
#[local] Existing Instance same_sent_preorder.

(** Every input but a send request sends nothing on a data channel. *)
Lemma same_sent_step (s : State P) (i : Input) :
  i <> ClickSendMessage -> same_sent s (step s i).
Proof.
  intros Hsend.
  destruct i; cbn [step]; try reflexivity; try congruence;
    try (destruct (room s); [|reflexivity]);
    apply frame_exec; repeat autounfold with handlers;
    frame_walk sent_leaf.
Qed.

(** What a send request leaves. *)
Lemma sendMessage_step (s : State P) :
  step s ClickSendMessage =
  let text := trim (messageInput_value (elements s)) in
  if truthy text then
    match find (is_open s) (map_values (connections s)) with
    | Some conn =>
        match heap s !! conn with
        | Some {| aesKey := Some key |} =>
            set_messageInput []
              (set_trace
                 (trace s ++
                    [EChannelSend conn
                       {| payload_iv := toB64 (draw 12 s);
                          payload_data :=
                            toB64 (aes_gcm_encrypt P key (draw 12 s) (Utf8.encode text)) |};
                     EAddMessage You (Text text)])
                 (set_entropyPos (entropyPos s + 12) s))
        | _ => set_trace (trace s ++ [EAlert AlertNoActiveChannel]) s
        end
    | None => set_trace (trace s ++ [EAlert AlertNoActiveChannel]) s
    end
  else s.
Proof.
  cbv zeta. cbn [step]. unfold exec, catch_console, try_catch, sendMessage.
  rewrite bind_get. cbv zeta.
  destruct (truthy (trim (messageInput_value (elements s)))); [|reflexivity].
  cbn [negb].
  destruct (find (is_open s) (map_values (connections s))) as [conn|]; [|reflexivity].
  destruct (heap s !! conn) as [[pid cs rs [key|]]|]; try reflexivity.
  unfold bind at 1. rewrite encryptMessage_eq.
  unfold emit, addMessage, emit. rewrite !bind_modify. unfold modify.
  cbn [fst trace set_trace set_entropyPos]. now rewrite <- app_assoc.
Qed.

(** A message one turn sends is a ciphertext under the key of the
    session it is sent on. *)
Lemma sent_step (s : State P) (i : Input) (payload : Payload) :
  In payload (sent (trace (step s i))) ->
  In payload (sent (trace s)) \/
  exists conn c key iv text,
    heap s !! conn = Some c /\ aesKey c = Some key /\ length iv = 12%nat /\
    payload = {| payload_iv := toB64 iv;
                 payload_data := toB64 (aes_gcm_encrypt P key iv (Utf8.encode text)) |}.
Proof.
  assert (Hcase : i = ClickSendMessage \/ i <> ClickSendMessage).
  { destruct i; try (right; discriminate). now left. }
  destruct Hcase as [->|Hother].
  2:{ rewrite (same_sent_step s i Hother). auto. }
  rewrite sendMessage_step. cbv zeta.
  destruct (truthy (trim (messageInput_value (elements s)))); [|auto].
  assert (Halert : In payload (sent (trace (set_trace (trace s ++ [EAlert AlertNoActiveChannel]) s))) ->
                   In payload (sent (trace s))).
  { cbn [trace set_trace]. rewrite sent_app. cbn. now rewrite app_nil_r. }
  destruct (find (is_open s) (map_values (connections s))) as [conn|]; [|auto].
  destruct (heap s !! conn) as [[pid cs rs [key|]]|] eqn:Hc; auto.
  cbn [trace set_messageInput set_elements set_trace]. rewrite sent_app.
  intros Hin. apply in_app_or in Hin as [Hin|Hin]; [now left|right].
  cbn in Hin. destruct Hin as [<-|[]].
  eexists conn, _, key, (draw 12 s), _.
  split; [exact Hc|]. split; [reflexivity|]. split; [apply length_draw|reflexivity].
Qed.

End SentMore.

(** (X25) Nothing leaves on a data channel in the clear: every message
    sent during a run was sent before the run, or is the pair of a
    nonce of twelve bytes and the ciphertext of a text under that nonce
    and the key a connection object holds. *)
Theorem sent_payload_was_encrypted {P : Platform} (s : State P)
    (inputs : list Input) (payload : Payload) :
  In payload (sent (trace (run s inputs))) ->
  In payload (sent (trace s)) \/
  exists conn c key iv text,
    heap (run s inputs) !! conn = Some c /\ aesKey c = Some key /\
    length iv = 12%nat /\
    payload = {| payload_iv := toB64 iv;
                 payload_data := toB64 (aes_gcm_encrypt P key iv (Utf8.encode text)) |}.
Proof.
  revert s. induction inputs as [|i inputs IH]; intros s Hin; [now left|].
  cbn [run fold_left] in *. fold (run (step s i) inputs) in *.
  destruct (IH (step s i) Hin) as [Hold|Hnew]; [|now right].
  destruct (sent_step s i payload Hold) as [H|(conn & c & key & iv & text & H)];
    [now left|right].
  destruct H as (Hc & Hk & Hlen & Hp).
  destruct (keys_fixed_run (i :: inputs) s conn c Hc) as (c' & Hc' & Hk' & _).
  exists conn, c', key, iv, text.
  cbn [run fold_left] in Hc'. fold (run (step s i) inputs) in Hc'.
  repeat split; try assumption; congruence.
Qed.

(** (X20) A text is displayed as received from a peer only when it was
    decrypted, with its tag verified, under the key of a session of that
    peer: every such text in the trace of a run was there before the
    run, or is the decoding of a plaintext the cipher returned under the
    key a connection object of that peer holds. *)
Theorem displayed_text_was_authenticated {P : Platform} (s : State P)
    (inputs : list Input) (p t : jsstring) :
  In (p, t) (displayed (trace (run s inputs))) ->
  In (p, t) (displayed (trace s)) \/
  exists conn c key iv data plain,
    heap (run s inputs) !! conn = Some c /\ conn_peerId c = p /\
    aesKey c = Some key /\
    aes_gcm_decrypt P key iv data = Some plain /\ t = Utf8.decode plain.
Proof.
  revert s. induction inputs as [|i inputs IH]; intros s Hin; [now left|].
  cbn [run fold_left] in *. fold (run (step s i) inputs) in *.
  destruct (IH (step s i) Hin) as [Hold|Hnew]; [|now right].
  destruct (displayed_step s i p t Hold) as [H|(conn & c & key & iv & data & plain & H)];
    [now left|right].
  destruct H as (Hc & Hp & Hk & Hdec & Ht).
  destruct (keys_fixed_run (i :: inputs) s conn c Hc) as (c' & Hc' & Hk' & Hp').
  exists conn, c', key, iv, data, plain.
  cbn [run fold_left] in Hc'. fold (run (step s i) inputs) in Hc'.
  repeat split; try assumption; congruence.
Qed.

(** ** Events for a session that exists *)

Section KnownSession.

Context {P : Platform}.

(** An event of a sender that has a session, read from the mailbox:
    the key is marked, the call is counted and the event is applied to
    the session. *)
Lemma deliver_known_sender (s : State P) (data : SignalData) (key r : jsstring)
    (conn : nat) :
  room s = Some r -> truthy (sig_type data) = true -> key ∉ signalSeen s ->
  truthy (sig_from data) = true -> sig_from data <> myId s ->
  map_get (connections s) (sig_from data) = Some conn ->
  step s (Deliver (Some data) key) =
  exec (catch_console (signal_actions data conn))
    (set_trace (trace s ++ [HandleSignal key])
       (set_signalSeen ({[key]} ∪ signalSeen s) s)).
Proof.
  intros Hr Htype Hseen Hfrom Hself Hget. cbn [step]. rewrite Hr, onSignal_eq.
  rewrite Htype, bool_decide_eq_false_2 by assumption. cbn [negb orb].
  set (s1 := set_trace _ _).
  unfold exec, catch_console, try_catch.
  now rewrite (handleSignal_known data s1 conn (guard_false data s1 Hfrom Hself) Hget).
Qed.

End KnownSession.

(** (X21) An answer of a peer that has a session, read from the mailbox,
    goes to that session: its remote description is set and the
    connection is reported as established, or the transport's refusal
    goes to the console; no session is recorded or replaced, and the
    session's key is the one it had. *)
Theorem answer_reaches_offerer {P : Platform} (s : State P) (data : SignalData)
    (key r : jsstring) (conn : nat) (c : Conn P) :
  room s = Some r -> sig_type data = lit "answer" -> key ∉ signalSeen s ->
  truthy (sig_from data) = true -> sig_from data <> myId s ->
  map_get (connections s) (sig_from data) = Some conn ->
  heap s !! conn = Some c ->
  let remote := SetRemoteDescription SdpAnswer (sig_sdp data) in
  let s' := step s (Deliver (Some data) key) in
  connections s' = connections s /\
  heap s' = <[conn := after_calls c [remote]]> (heap s) /\
  trace s' = trace s ++ HandleSignal key ::
               (if rtc_accepts P (calls c) remote
                then [EStatus (StatusEstablished (sig_from data))]
                else [EConsoleError TransportError]).
Proof.
  intros Hr Htype Hseen Hfrom Hself Hget Hc. cbv zeta.
  assert (Htruthy : truthy (sig_type data) = true) by now rewrite Htype.
  rewrite (deliver_known_sender s data key r conn) by assumption.
  set (s1 := set_trace _ _).
  assert (Hact : signal_actions data conn s1 =
            (if rtc_accepts P (calls c) (SetRemoteDescription SdpAnswer (sig_sdp data))
             then (set_trace (trace s1 ++ [EStatus (StatusEstablished (sig_from data))])
                     (with_conn conn
                        (after_calls c [SetRemoteDescription SdpAnswer (sig_sdp data)]) s1),
                   inr tt)
             else (with_conn conn
                     (after_calls c [SetRemoteDescription SdpAnswer (sig_sdp data)]) s1,
                   inl TransportError))).
  { unfold signal_actions. cbv zeta. rewrite Htype.
    change (bool_decide (lit "answer" = lit "offer")) with false.
    change (bool_decide (lit "answer" = lit "answer")) with true.
    change (bool_decide (lit "answer" = lit "ice")) with false.
    cbv beta iota. rewrite bind_ret, !bind_assoc. unfold bind at 1.
    rewrite (rtc_after conn _ s1 c Hc).
    now destruct (rtc_accepts P (calls c) _). }
  unfold exec, catch_console, try_catch. rewrite Hact.
  destruct (rtc_accepts P (calls c) _); cbn; rewrite <- app_assoc; repeat split.
Qed.

(** (X22) A candidate of the local transport reaches the session of the
    peer. The candidate found for a connection object is published, in a
    room, as an [ice] event for the peer of that object, and the end of
    the candidates publishes nothing; a party that has a session for the
    sender passes the candidate of such an event to that session's
    transport, records no session and publishes nothing. *)
Theorem ice_candidate_reaches_peer {P : Platform} (sA sB : State P)
    (connA connB : nat) (cA cB : Conn P) (rA rB candidate key : jsstring) :
  heap sA !! connA = Some cA -> room sA = Some rA ->
  room sB = Some rB -> key ∉ signalSeen sB ->
  truthy (myId sA) = true -> myId sA <> myId sB ->
  map_get (connections sB) (myId sA) = Some connB ->
  heap sB !! connB = Some cB ->
  step sA (IceCandidate connA (Some candidate))
  = set_trace (trace sA ++ [ESignal rA (conn_peerId cA) (IcePayload candidate)
                              (myId sA) (clock sA)]) sA /\
  step sA (IceCandidate connA None) = sA /\
  let sB' := step sB (Deliver (Some (event_of (IcePayload candidate) (myId sA))) key) in
  connections sB' = connections sB /\
  heap sB' = <[connB := after_calls cB [AddIceCandidate candidate]]> (heap sB) /\
  published (trace sB') = published (trace sB).
Proof.
  intros HcA HrA HrB Hseen Hfrom Hself Hget HcB. split; [|split].
  - cbn [step]. unfold exec, catch_console, try_catch, onicecandidate.
    rewrite bind_get, HcA. now rewrite (sendSignal_in_room _ _ _ rA HrA).
  - cbn [step]. unfold exec, catch_console, try_catch, onicecandidate.
    now rewrite bind_get, HcA.
  - cbv zeta. set (data := event_of _ _).
    rewrite (deliver_known_sender sB data key rB connB) by (assumption || reflexivity).
    set (s1 := set_trace _ _).
    assert (Hact : signal_actions data connB s1 =
              (with_conn connB (after_calls cB [AddIceCandidate candidate]) s1,
               if rtc_accepts P (calls cB) (AddIceCandidate candidate)
               then inr tt else inl TransportError)).
    { unfold signal_actions. cbv zeta.
      change (bool_decide (sig_type data = lit "offer")) with false.
      change (bool_decide (sig_type data = lit "answer")) with false.
      change (bool_decide (sig_type data = lit "ice")) with true.
      cbv beta iota. rewrite !bind_ret. cbn [sig_candidate data event_of].
      unfold bind at 1. rewrite (rtc_after connB _ s1 cB HcB).
      now destruct (rtc_accepts P (calls cB) _). }
    unfold exec, catch_console, try_catch. rewrite Hact.
    destruct (rtc_accepts P (calls cB) _); cbn;
      rewrite !published_app; cbn; rewrite !app_nil_r; repeat split.
Qed.

(** (X23) A regeneration replaces the identity and nothing else: the new
    key pair, from the next 48 random bytes, is stored and becomes the
    identity, with its identifier and public key text; the sessions and
    their connection objects, with the keys derived from the old
    identity, the room and the set of seen keys are as before. *)
Theorem regenerate_replaces_identity {P : Platform} (s : State P)
    (newPub : list byte) :
  getPublicKey P (randomPrivateKey P (draw 48 s)) = Some newPub ->
  let newPriv := randomPrivateKey P (draw 48 s) in
  let s' := step s ClickRegenerate in
  myKeyPair s' = Some {| priv := newPriv; pub := newPub |} /\
  myId s' = shortId newPub /\ myPubB64 s' = toB64 newPub /\
  localStorage s' !! storageKeys_priv = Some (toB64 newPriv) /\
  localStorage s' !! storageKeys_pub = Some (toB64 newPub) /\
  entropyPos s' = (entropyPos s + 48)%nat /\
  trace s' = trace s ++ [EShowIdentity (shortId newPub) (toB64 newPub);
                         EAlert AlertKeysUpdated] /\
  connections s' = connections s /\ heap s' = heap s /\
  room s' = room s /\ signalSeen s' = signalSeen s.
Proof.
  intros Hpub. cbv zeta. cbn [step]. unfold exec, catch_console, try_catch.
  rewrite regenerate_eq. cbv zeta. rewrite Hpub. unfold with_new_identity.
  cbn [fst myKeyPair myId myPubB64 localStorage entropyPos trace connections heap
       room signalSeen set_trace set_identity set_localStorage set_entropyPos].
  rewrite lookup_insert_ne by (symmetry; apply storage_keys_differ).
  rewrite !lookup_insert_eq. repeat split.
Qed.

(** (X24) An import is all or nothing: either the trimmed text decodes
    to exactly 32 bytes for which the library computes a public key, and
    then both keys are stored, the pair becomes the identity and the
    import is reported; or nothing changes, but for the report of a bad
    seed when the text is not empty. *)
Theorem import_all_or_nothing {P : Platform} (s : State P) :
  let seed := trim (importSeedInput_value (elements s)) in
  let s' := step s ClickImportSeed in
  (exists priv pub,
     fromB64 seed = Some priv /\ length priv = 32%nat /\
     getPublicKey P priv = Some pub /\
     s' = set_trace (trace s ++ [EShowIdentity (shortId pub) (toB64 pub);
                                 EAlert AlertSeedImported])
            (with_new_identity {| priv := priv; pub := pub |} s)) \/
  (seed = [] /\ s' = s) \/
  (seed <> [] /\ s' = set_trace (trace s ++ [EAlert AlertBadSeed]) s).
Proof.
  cbv zeta. cbn [step]. unfold exec, catch_console, try_catch.
  rewrite importSeed_eq. cbv zeta.
  destruct (trim (importSeedInput_value (elements s))) as [|c seed] eqn:Hseed;
    [right; left; now split|].
  cbn [truthy].
  destruct (fromB64 (c :: seed)) as [priv|];
    [|right; right; split; [discriminate|reflexivity]].
  destruct (length priv =? 32)%nat eqn:Hlen;
    [|right; right; split; [discriminate|reflexivity]].
  destruct (getPublicKey P priv) as [pub|] eqn:Hpub;
    [|right; right; split; [discriminate|reflexivity]].
  left. exists priv, pub. apply Nat.eqb_eq in Hlen. repeat split; assumption.
Qed.

(** ** The further properties on the small platform *)

Lemma toy_keys_valid : generated_keys_valid Toy.platform.
Proof. intros seed. discriminate. Qed.

Lemma toy_keypair_valid (priv : list byte) : valid_keypair Toy.platform (Toy.keypair priv).
Proof. reflexivity. Qed.

(** Witness of [identity_stored_always]: a first visit on the small
    platform, and then a regeneration. *)
Lemma identity_stored_always_witness :
  exists me,
    myKeyPair (launch (P := Toy.platform) ∅ Toy.no_elements Toy.counter 0 [ClickRegenerate])
    = Some me /\
    stored_bytes storageKeys_priv
      (launch (P := Toy.platform) ∅ Toy.no_elements Toy.counter 0 [ClickRegenerate])
    = Some (priv me) /\
    stored_bytes storageKeys_pub
      (launch (P := Toy.platform) ∅ Toy.no_elements Toy.counter 0 [ClickRegenerate])
    = Some (pub me).
Proof.
  pose proof (identity_stored_always (P := Toy.platform) ∅ Toy.no_elements Toy.counter 0
                [ClickRegenerate] toy_keys_valid) as H.
  unfold identity_stored in H.
  destruct (myKeyPair (launch ∅ Toy.no_elements Toy.counter 0 [ClickRegenerate]))
    as [me|] eqn:Hme; [|vm_compute in Hme; discriminate].
  exists me. split; [reflexivity|exact H].
Defined.

(** Witness of [sessions_well_formed]: the session a new party records
    for [alice]. *)
Lemma sessions_well_formed_witness :
  truthy (myId Toy.alice) = true /\
  exists c, heap Scenes.dave_offers !! 0%nat = Some c /\ conn_peerId c = myId Toy.alice.
Proof.
  apply (sessions_well_formed (P := Toy.platform) ∅ (elements Toy.bob) Toy.counter 0
           [ClickJoinRoom; ClickStartConnection] (myId Toy.alice) 0%nat).
  vm_compute. reflexivity.
Defined.

(** Witness of [first_visit_creates_identity]: an empty storage. *)
Lemma first_visit_creates_identity_witness :
  init (P := Toy.platform) (boot ∅ Toy.no_elements Toy.zeros 0) =
  match getPublicKey Toy.platform
          (randomPrivateKey Toy.platform (map Toy.zeros (seq 0 48))) with
  | Some pub =>
      (with_new_identity
         {| priv := randomPrivateKey Toy.platform (map Toy.zeros (seq 0 48));
            pub := pub |}
         (set_entropyPos 48 (boot ∅ Toy.no_elements Toy.zeros 0)), inr tt)
  | None => (set_entropyPos 48 (boot ∅ Toy.no_elements Toy.zeros 0), inl Secp256k1Error)
  end.
Proof.
  apply (first_visit_creates_identity (P := Toy.platform) ∅ Toy.no_elements Toy.zeros 0).
  reflexivity.
Defined.

Ltac unseen := apply (proj1 (bool_decide_eq_false _)); vm_compute; reflexivity.

(** Witness of [reload_restores_identity]: a reload after the first
    visit. *)
Lemma reload_restores_identity_witness :
  exists me,
    myKeyPair Scenes.first_visit = Some me /\
    init (P := Toy.platform)
      (boot (localStorage Scenes.first_visit) Toy.no_elements Toy.counter 7) =
    (set_trace [EShowIdentity (shortId (pub me)) (toB64 (pub me))]
       (set_identity me (toB64 (pub me)) (shortId (pub me))
          (boot (localStorage Scenes.first_visit) Toy.no_elements Toy.counter 7)),
     inr tt).
Proof.
  exists (Toy.keypair (repeat x00 32)).
  assert (Hme : myKeyPair Scenes.first_visit = Some (Toy.keypair (repeat x00 32))).
  { vm_compute. reflexivity. }
  split; [exact Hme|].
  apply (reload_restores_identity Scenes.first_visit (Toy.keypair (repeat x00 32))
           Toy.no_elements Toy.counter 7 Hme).
  - unfold identity_stored. rewrite Hme. split; vm_compute; reflexivity.
  - discriminate.
  - discriminate.
Defined.

(** Witness of [import_restores_exported_seed]: [carol] exports, and
    [alice] imports what [carol] exported. *)
Lemma import_restores_exported_seed_witness :
  exists seed,
    exportSeed Scenes.carol
    = (set_trace (trace Scenes.carol ++ [EClipboard seed; EAlert AlertSeedCopied])
         Scenes.carol, inr tt) /\
    (importSeedInput_value (elements Toy.alice) = seed ->
     importSeed Toy.alice =
     (set_trace
        (trace Toy.alice ++
           [EShowIdentity (shortId (pub (Toy.keypair (repeat x01 32))))
              (toB64 (pub (Toy.keypair (repeat x01 32))));
            EAlert AlertSeedImported])
        (with_new_identity (Toy.keypair (repeat x01 32)) Toy.alice), inr tt)).
Proof.
  apply (import_restores_exported_seed Scenes.carol Toy.alice
           (Toy.keypair (repeat x01 32)));
    [reflexivity | apply toy_keypair_valid | reflexivity].
Defined.

(** Witness of [nothing_before_join]: [bob], outside every room, asks
    for a connection and sends. *)
Lemma nothing_before_join_witness :
  room (run Toy.bob [ClickStartConnection; ClickSendMessage]) = None /\
  same_sessions Toy.bob (run Toy.bob [ClickStartConnection; ClickSendMessage]) /\
  published (trace (run Toy.bob [ClickStartConnection; ClickSendMessage]))
  = published (trace Toy.bob) /\
  step Toy.bob ClickStartConnection
  = set_trace (trace Toy.bob ++ [EConsoleError NoRoomError]) Toy.bob.
Proof.
  apply (nothing_before_join Toy.bob [ClickStartConnection; ClickSendMessage]).
  - reflexivity.
  - repeat constructor; discriminate.
Defined.

(** Witness of [sessions_only_from_signaling]: [bob], with a session
    for [alice], joins again, regenerates and sends. *)
Lemma sessions_only_from_signaling_witness :
  same_sessions Toy.bob_offers
    (run Toy.bob_offers [ClickJoinRoom; ClickRegenerate; ClickSendMessage]).
Proof.
  apply (sessions_only_from_signaling Toy.bob_offers
           [ClickJoinRoom; ClickRegenerate; ClickSendMessage]).
  repeat constructor; discriminate.
Defined.

(** Witness of [known_sender_keeps_session]: [bob], who has a session
    for [alice], reads her answer. *)
Lemma known_sender_keeps_session_witness :
  same_sessions Toy.bob_offers (exec (handleSignal Scenes.answer_of_alice) Toy.bob_offers).
Proof.
  destruct (heap Toy.bob_offers !! 0%nat) as [c|] eqn:Hc;
    [|vm_compute in Hc; discriminate].
  apply (known_sender_keeps_session Toy.bob_offers Scenes.answer_of_alice 0%nat c).
  - vm_compute. reflexivity.
  - vm_compute. discriminate.
  - vm_compute. reflexivity.
  - exact Hc.
Defined.

(** Witness of [start_connection_records_session]: [bob], in the room,
    connects to [alice]. *)
Lemma start_connection_records_session_witness :
  connections (step Scenes.bob_joined ClickStartConnection)
  = map_set (connections Scenes.bob_joined)
      (trim (peerId_value (elements Scenes.bob_joined)))
      (fresh (dom (heap Scenes.bob_joined))).
Proof.
  destruct (session_key (trim (peerPub_value (elements Scenes.bob_joined)))
              Scenes.bob_joined) as [e|[key|]] eqn:Hkey;
    [vm_compute in Hkey; discriminate| |vm_compute in Hkey; discriminate].
  apply (start_connection_records_session Scenes.bob_joined (lit "r1") key);
    [vm_compute; reflexivity | vm_compute; reflexivity | exact Hkey].
Defined.

(** Witness of [offer_is_answered]: [alice], in the room, reads the
    offer of [bob]. *)
Lemma offer_is_answered_witness :
  connections (step Scenes.alice_joined (Deliver (Some Scenes.offer_of_bob) (lit "k1")))
  = connections Scenes.alice_joined
    ++ [(sig_from Scenes.offer_of_bob, fresh (dom (heap Scenes.alice_joined)))].
Proof.
  destruct (session_key (sig_pub Scenes.offer_of_bob) Scenes.alice_joined)
    as [e|k] eqn:Hkey; [vm_compute in Hkey; discriminate|].
  apply (offer_is_answered Scenes.alice_joined Scenes.offer_of_bob (lit "k1")
           (lit "r1") k);
    [vm_compute; reflexivity | reflexivity | unseen | vm_compute; reflexivity
    | vm_compute; discriminate | vm_compute; reflexivity | exact Hkey].
Defined.



(** Witness of [displayed_text_was_authenticated]: the text ["hi"]
    [bob] displays. *)
Lemma displayed_text_was_authenticated_witness :
  In (myId Toy.alice, lit "hi") (displayed (trace Toy.bob_connected)) \/
  exists conn c key iv data plain,
    heap Toy.bob_receives !! conn = Some c /\ conn_peerId c = myId Toy.alice /\
    aesKey c = Some key /\
    aes_gcm_decrypt Toy.platform key iv data = Some plain /\
    lit "hi" = Utf8.decode plain.
Proof.
  apply (displayed_text_was_authenticated Toy.bob_connected
           [ChannelMessage 0 (head (sent (trace Toy.alice_sends)))]
           (myId Toy.alice) (lit "hi")).
  vm_compute. left. reflexivity.
Defined.

(** Witness of [answer_reaches_offerer]: [bob] reads the answer of
    [alice]. *)
Lemma answer_reaches_offerer_witness :
  connections (step Toy.bob_offers (Deliver (Some Scenes.answer_of_alice) (lit "k2")))
  = connections Toy.bob_offers.
Proof.
  destruct (heap Toy.bob_offers !! 0%nat) as [c|] eqn:Hc;
    [|vm_compute in Hc; discriminate].
  apply (answer_reaches_offerer Toy.bob_offers Scenes.answer_of_alice (lit "k2")
           (lit "r1") 0%nat c);
    [vm_compute; reflexivity | reflexivity | unseen | vm_compute; reflexivity
    | vm_compute; discriminate | vm_compute; reflexivity | exact Hc].
Defined.

(** Witness of [ice_candidate_reaches_peer]: a candidate of [alice]
    for her session with [bob]. *)
Lemma ice_candidate_reaches_peer_witness :
  step Toy.alice_answers (IceCandidate 0 None) = Toy.alice_answers.
Proof.
  destruct (heap Toy.alice_answers !! 0%nat) as [cA|] eqn:HcA;
    [|vm_compute in HcA; discriminate].
  destruct (heap Toy.bob_offers !! 0%nat) as [cB|] eqn:HcB;
    [|vm_compute in HcB; discriminate].
  apply (ice_candidate_reaches_peer Toy.alice_answers Toy.bob_offers 0%nat 0%nat
           cA cB (lit "r1") (lit "r1") (lit "candidate") (lit "k3"));
    [exact HcA | vm_compute; reflexivity | vm_compute; reflexivity | unseen
    | vm_compute; reflexivity | vm_compute; discriminate | vm_compute; reflexivity
    | exact HcB].
Defined.

(** Witness of [regenerate_replaces_identity]: [alice] regenerates. *)
Lemma regenerate_replaces_identity_witness :
  myKeyPair (step Toy.alice ClickRegenerate) = Some (Toy.keypair (repeat x00 32)) /\
  connections (step Toy.alice ClickRegenerate) = connections Toy.alice.
Proof.
  destruct (regenerate_replaces_identity Toy.alice [x00] ltac:(reflexivity))
    as (H1 & _ & _ & _ & _ & _ & _ & H2 & _).
  split; [exact H1|exact H2].
Defined.

Lemma head_some_in {A : Type} (l : list A) (x : A) : head l = Some x -> In x l.
Proof. destruct l as [|y l]; [discriminate|]. intros [= ->]. now left. Qed.

(** Witness of [sent_payload_was_encrypted]: the message [alice]
    sends. *)
Lemma sent_payload_was_encrypted_witness :
  exists payload,
    In payload (sent (trace (run Scenes.alice_typing [ClickSendMessage]))) /\
    (In payload (sent (trace Scenes.alice_typing)) \/
     exists conn c key iv text,
       heap (run Scenes.alice_typing [ClickSendMessage]) !! conn = Some c /\
       aesKey c = Some key /\ length iv = 12%nat /\
       payload = {| payload_iv := toB64 iv;
                    payload_data :=
                      toB64 (aes_gcm_encrypt Toy.platform key iv (Utf8.encode text)) |}).
Proof.
  destruct (head (sent (trace (run Scenes.alice_typing [ClickSendMessage]))))
    as [payload|] eqn:Hhead; [|vm_compute in Hhead; discriminate].
  apply head_some_in in Hhead.
  exists payload. split; [exact Hhead|].
  exact (sent_payload_was_encrypted Scenes.alice_typing [ClickSendMessage] payload Hhead).
Defined.
